(** * Spec-Bot: the phase-gated workflow engine and the response extraction
    layer, embedded from [backend/workflow_state.py], [backend/workflow_nodes.py],
    [backend/workflow.py], [backend/api/workflow_routes.py] and
    [backend/llm_utils.py].

    Python dictionaries are finite maps with string keys, the manager's
    in-memory table is a finite map from workflow ids to such dictionaries,
    exceptions are an explicit outcome, and the effects of the code (mutation
    of the table, reads of the clock, model invocations, sleeps) are threaded
    through small state monads. *)

From Stdlib Require Import ZArith Ascii String List Lia Bool.
From stdpp Require Import base option list strings gmap fin_maps pretty.

Import ListNotations.
Local Open Scope string_scope.
Local Open Scope Z_scope.

(** ** Python values, exceptions and outcomes *)

Module WorkflowStatus.
(** [class WorkflowStatus(str, Enum)] of workflow_state.py. *)
Inductive t :=
| INITIALIZING
| GENERATING_REQUIREMENTS
| AWAITING_REQUIREMENTS_APPROVAL
| GENERATING_DESIGN
| AWAITING_DESIGN_APPROVAL
| GENERATING_TASKS
| AWAITING_TASKS_APPROVAL
| GENERATING_FINAL_DOCUMENTS
| COMPLETED
| FAILED
| CANCELLED.

Definition value (s : t) : string :=
match s with
| INITIALIZING => "initializing"
| GENERATING_REQUIREMENTS => "generating_requirements"
| AWAITING_REQUIREMENTS_APPROVAL => "awaiting_requirements_approval"
| GENERATING_DESIGN => "generating_design"
| AWAITING_DESIGN_APPROVAL => "awaiting_design_approval"
| GENERATING_TASKS => "generating_tasks"
| AWAITING_TASKS_APPROVAL => "awaiting_tasks_approval"
| GENERATING_FINAL_DOCUMENTS => "generating_final_documents"
| COMPLETED => "completed"
| FAILED => "failed"
| CANCELLED => "cancelled"
end.

#[global] Instance eq_dec : EqDecision t.
Proof. solve_decision. Defined.
End WorkflowStatus.

Module WorkflowAction.
(** [class WorkflowAction(str, Enum)] of workflow_state.py. *)
Inductive t :=
| START_GENERATION
| APPROVE
| REJECT
| REQUEST_REVISION
| CANCEL
| RETRY.

Definition value (a : t) : string :=
match a with
| START_GENERATION => "start_generation"
| APPROVE => "approve"
| REJECT => "reject"
| REQUEST_REVISION => "request_revision"
| CANCEL => "cancel"
| RETRY => "retry"
end.

#[global] Instance eq_dec : EqDecision t.
Proof. solve_decision. Defined.
End WorkflowAction.

Module WorkflowPhase.
(** [class WorkflowPhase(str, Enum)] of models.py. *)
Inductive t :=
| REQUIREMENTS
| DESIGN
| TASKS
| COMPLETED.

Definition value (p : t) : string :=
match p with
| REQUIREMENTS => "requirements"
| DESIGN => "design"
| TASKS => "tasks"
| COMPLETED => "completed"
end.

#[global] Instance eq_dec : EqDecision t.
Proof. solve_decision. Defined.
End WorkflowPhase.

(** One entry of [conversation_history]: the dictionary built by
    [add_conversation_message]. *)
Record ChatEntry := {
  role : string;
  content : string;
  timestamp : string;
  metadata : list (string * string)
}.

(** [LLMMessage] and [LLMResponse] of llm_client.py. *)
Record LLMMessage := { msg_role : string; msg_content : string }.
Record LLMResponse := { response_content : string; response_model : string }.

(** The values held by the keys of a [WorkflowGraphState] dictionary. *)
Inductive Value :=
| VNone
| VBool (b : bool)
| VInt (n : Z)
| VStr (s : string)
| VStatus (s : WorkflowStatus.t)
| VPhase (p : WorkflowPhase.t)
| VAction (a : WorkflowAction.t)
| VMessages (l : list ChatEntry)
| VFiles (d : list (string * string)).

Inductive PyExc :=
| ValueError (msg : string)
| KeyError (key : string)
| TypeError (msg : string)
| Exception (msg : string).

(** [str(e)]: the message of the exception; a [KeyError] prints the repr of
    its key. *)
Definition str_exc (e : PyExc) : string :=
  match e with
  | ValueError m | TypeError m | Exception m => m
  | KeyError k => "'" ++ k ++ "'"
  end.

Inductive Outcome (A : Type) :=
| Return (a : A)
| Raise (e : PyExc).
Arguments Return {A} a.
Arguments Raise {A} e.

#[global] Instance Outcome_ret : MRet Outcome := @Return.
#[global] Instance Outcome_bind : MBind Outcome :=
  fun A B k o => match o with Return a => k a | Raise e => Raise e end.

(** Truth value of a Python object, as tested by [if not x]. *)
Definition truthy (v : Value) : bool :=
  match v with
  | VNone => false
  | VBool b => b
  | VInt n => negb (n =? 0)
  | VStr s => negb (String.eqb s "")
  | VStatus _ | VPhase _ | VAction _ => true
  | VMessages l => match l with [] => false | _ => true end
  | VFiles d => match d with [] => false | _ => true end
  end.

(** The text an f-string substitutes for a value.  The enumerations mix in
    [str] and format as their value; containers are given by a tag only, no
    key of the record is named after one. *)
Definition fmt (v : Value) : string :=
  match v with
  | VNone => "None"
  | VBool true => "True"
  | VBool false => "False"
  | VInt n => pretty n
  | VStr s => s
  | VStatus s => WorkflowStatus.value s
  | VPhase p => WorkflowPhase.value p
  | VAction a => WorkflowAction.value a
  | VMessages _ => "[...]"
  | VFiles _ => "{...}"
  end.

(** [x == WorkflowStatus.S] for a dictionary value [x]: a member of a
    [str]-mixin enumeration equals its own value as a plain string. *)
Definition eq_status (v : Value) (s : WorkflowStatus.t) : bool :=
  match v with
  | VStatus s' => bool_decide (s' = s)
  | VStr x => String.eqb x (WorkflowStatus.value s)
  | _ => false
  end.

Definition eq_phase (v : Value) (p : WorkflowPhase.t) : bool :=
  match v with
  | VPhase p' => bool_decide (p' = p)
  | VStr x => String.eqb x (WorkflowPhase.value p)
  | _ => false
  end.

(** [x == "literal"]. *)
Definition eq_str (v : Value) (s : string) : bool :=
  match v with
  | VStr x => String.eqb x s
  | VStatus x => String.eqb (WorkflowStatus.value x) s
  | VPhase x => String.eqb (WorkflowPhase.value x) s
  | VAction x => String.eqb (WorkflowAction.value x) s
  | _ => false
  end.

(** ** workflow_state.py: the state manager *)

(** A [WorkflowGraphState] is a [dict]; a [TypedDict] does not constrain
    which keys are present at run time. *)
Abbreviation WorkflowGraphState := (gmap string Value).

(** [WorkflowStateManager]: the table [_active_workflows], together with the
    number of clock readings taken so far ([datetime.utcnow()] is the n-th
    reading of the wall clock). *)
Record WorkflowStateManager := {
  _active_workflows : gmap string (gmap string Value);
  clock : nat
}.

(** [WorkflowStateManager.__init__]. *)
Definition init_manager : WorkflowStateManager :=
  {| _active_workflows := ∅; clock := 0 |}.

(** Computations that read and mutate the manager and may raise. *)
Definition M (A : Type) : Type :=
  WorkflowStateManager -> Outcome A * WorkflowStateManager.

Definition ret {A} (a : A) : M A := fun w => (Return a, w).
Definition raise {A} (e : PyExc) : M A := fun w => (Raise e, w).
Definition bind {A B} (k : A -> M B) (m : M A) : M B :=
  fun w => match m w with
           | (Return a, w') => k a w'
           | (Raise e, w') => (Raise e, w')
           end.
Definition lift {A} (o : Outcome A) : M A := fun w => (o, w).

#[global] Instance M_ret : MRet M := @ret.
#[global] Instance M_bind : MBind M := @bind.

(** [datetime.utcnow().isoformat()]: the text of the current reading. *)
Definition isoformat (n : nat) : string := "T+" ++ pretty n.

Definition utcnow_isoformat : M string :=
  fun w => (Return (isoformat (clock w)),
            {| _active_workflows := _active_workflows w; clock := S (clock w) |}).

Definition get_store : M (gmap string (gmap string Value)) :=
  fun w => (Return (_active_workflows w), w).

Definition put_record (workflow_id : string) (state : gmap string Value) : M unit :=
  fun w => (Return tt,
            {| _active_workflows := <[workflow_id := state]> (_active_workflows w);
               clock := clock w |}).

(** [state[key]] on a dictionary. *)
Definition getitem (state : gmap string Value) (key : string) : Outcome Value :=
  match state !! key with
  | Some v => Return v
  | None => Raise (KeyError key)
  end.

(** [create_workflow_state]: the initial dictionary has every key of the
    [TypedDict] except [written_file_paths]. *)
Definition initial_state (workflow_id feature_name description llm_provider
    model_name : string) (research_enabled : bool) (now : string)
    : gmap string Value :=
  list_to_map [
    ("workflow_id", VStr workflow_id);
    ("feature_name", VStr feature_name);
    ("initial_description", VStr description);
    ("status", VStatus WorkflowStatus.INITIALIZING);
    ("current_phase", VPhase WorkflowPhase.REQUIREMENTS);
    ("requirements_content", VNone);
    ("design_content", VNone);
    ("tasks_content", VNone);
    ("requirements_approved", VBool false);
    ("design_approved", VBool false);
    ("tasks_approved", VBool false);
    ("pending_approval", VNone);
    ("user_feedback", VNone);
    ("last_user_action", VNone);
    ("conversation_history", VMessages []);
    ("llm_provider", VStr llm_provider);
    ("model_name", VStr model_name);
    ("research_enabled", VBool research_enabled);
    ("research_results", VNone);
    ("retry_count", VInt 0);
    ("last_error", VNone);
    ("created_at", VStr now);
    ("updated_at", VStr now);
    ("generated_files", VFiles [])
  ].

Definition create_workflow_state (workflow_id feature_name description
    llm_provider model_name : string) (research_enabled : bool)
    : M (gmap string Value) :=
  now ← utcnow_isoformat;
  let initial_state :=
    initial_state workflow_id feature_name description llm_provider model_name
      research_enabled now in
  put_record workflow_id initial_state;;
  ret initial_state.

(** [get_workflow_state]: [dict.get], [None] when absent. *)
Definition get_workflow_state (workflow_id : string)
    : M (option (gmap string Value)) :=
  store ← get_store;
  ret (store !! workflow_id).

(** The loop of [update_workflow_state]:
    [for key, value in updates.items(): if key in state: state[key] = value].
    [updates] lists the items in iteration order. *)
Definition merge_updates (state : gmap string Value)
    (updates : list (string * Value)) : gmap string Value :=
  fold_left (fun st kv =>
               if decide (is_Some (st !! kv.1)) then <[kv.1 := kv.2]> st else st)
            updates state.

Definition update_workflow_state (workflow_id : string)
    (updates : list (string * Value)) : M (gmap string Value) :=
  store ← get_store;
  match store !! workflow_id with
  | None => raise (ValueError ("Workflow " ++ workflow_id ++ " not found"))
  | Some state =>
      let state := merge_updates state updates in
      now ← utcnow_isoformat;
      let state := <["updated_at" := VStr now]> state in
      put_record workflow_id state;;
      ret state
  end.

(** [transition_to_phase]. *)
Definition transition_to_phase (workflow_id : string) (phase : WorkflowPhase.t)
    (status : WorkflowStatus.t) : M (gmap string Value) :=
  let updates := [
    ("current_phase", VPhase phase);
    ("status", VStatus status);
    ("pending_approval", VNone);
    ("user_feedback", VNone);
    ("last_user_action", VNone);
    ("retry_count", VInt 0);
    ("last_error", VNone)
  ] in
  update_workflow_state workflow_id updates.

(** The dictionary [status_map] of [set_pending_approval]; a missing key
    raises [KeyError]. *)
Definition status_map (phase : string) : option WorkflowStatus.t :=
  if String.eqb phase "requirements" then
    Some WorkflowStatus.AWAITING_REQUIREMENTS_APPROVAL
  else if String.eqb phase "design" then
    Some WorkflowStatus.AWAITING_DESIGN_APPROVAL
  else if String.eqb phase "tasks" then
    Some WorkflowStatus.AWAITING_TASKS_APPROVAL
  else None.

(** [set_pending_approval]. *)
Definition set_pending_approval (workflow_id phase content : string)
    : M (gmap string Value) :=
  let content_field := phase ++ "_content" in
  match status_map phase with
  | None => raise (KeyError phase)
  | Some status =>
      let updates := [
        ("status", VStatus status);
        ("pending_approval", VStr phase);
        (content_field, VStr content)
      ] in
      update_workflow_state workflow_id updates
  end.

(** The dictionary [updates] that [handle_user_approval] builds from the
    action, the feedback and the pending phase.  The chain of [if]/[elif] on
    [action] has no final [else]. *)
Definition approval_updates (action : WorkflowAction.t)
    (feedback : option string) (pending_phase : Value)
    : list (string * Value) :=
  let updates := [
    ("last_user_action", VAction action);
    ("user_feedback", from_option VStr VNone feedback);
    ("pending_approval", VNone)
  ] in
  match action with
  | WorkflowAction.APPROVE =>
      let approval_field := fmt pending_phase +:+ "_approved" in
      let updates := (updates ++ [(approval_field, VBool true)])%list in
      if eq_str pending_phase "requirements" then
        (updates ++ [("status", VStatus WorkflowStatus.GENERATING_DESIGN);
                     ("current_phase", VPhase WorkflowPhase.DESIGN)])%list
      else if eq_str pending_phase "design" then
        (updates ++ [("status", VStatus WorkflowStatus.GENERATING_TASKS);
                     ("current_phase", VPhase WorkflowPhase.TASKS)])%list
      else if eq_str pending_phase "tasks" then
        (updates ++ [("status", VStatus WorkflowStatus.GENERATING_FINAL_DOCUMENTS);
                     ("current_phase", VPhase WorkflowPhase.COMPLETED)])%list
      else updates
  | WorkflowAction.REQUEST_REVISION =>
      if eq_str pending_phase "requirements" then
        (updates ++ [("status", VStatus WorkflowStatus.GENERATING_REQUIREMENTS)])%list
      else if eq_str pending_phase "design" then
        (updates ++ [("status", VStatus WorkflowStatus.GENERATING_DESIGN)])%list
      else if eq_str pending_phase "tasks" then
        (updates ++ [("status", VStatus WorkflowStatus.GENERATING_TASKS)])%list
      else updates
  | WorkflowAction.REJECT =>
      (updates ++ [("status", VStatus WorkflowStatus.CANCELLED)])%list
  | _ => updates
  end.

(** [handle_user_approval].  [feedback] is [Optional[str]]. *)
Definition handle_user_approval (workflow_id : string)
    (action : WorkflowAction.t) (feedback : option string)
    : M (gmap string Value) :=
  state ← get_workflow_state workflow_id;
  match state with
  | None => raise (ValueError ("Workflow " ++ workflow_id ++ " not found"))
  | Some state =>
  if decide (state = ∅) then
    raise (ValueError ("Workflow " ++ workflow_id ++ " not found"))
  else
    pending_phase ← lift (getitem state "pending_approval");
    if negb (truthy pending_phase) then
      raise (ValueError ("No pending approval for workflow " ++ workflow_id))
    else
      update_workflow_state workflow_id
        (approval_updates action feedback pending_phase)
  end.

(** [add_conversation_message]; [metadata or {}] is given as a list of items,
    already formatted. *)
Definition add_conversation_message (workflow_id role content : string)
    (metadata : list (string * string)) : M (gmap string Value) :=
  state ← get_workflow_state workflow_id;
  match state with
  | None => raise (ValueError ("Workflow " ++ workflow_id ++ " not found"))
  | Some state =>
  if decide (state = ∅) then
    raise (ValueError ("Workflow " ++ workflow_id ++ " not found"))
  else
    now ← utcnow_isoformat;
    let message := {| role := role; content := content; timestamp := now;
                      metadata := metadata |} in
    history ← lift (getitem state "conversation_history");
    match history with
    | VMessages l =>
        let conversation_history := (l ++ [message])%list in
        update_workflow_state workflow_id
          [("conversation_history", VMessages conversation_history)]
    | v => raise (Exception ("object has no attribute 'copy': " ++ fmt v))
    end
  end.

(** [cleanup_workflow]. *)
Definition cleanup_workflow (workflow_id : string) : M bool :=
  fun w =>
    match _active_workflows w !! workflow_id with
    | Some _ =>
        (Return true,
         {| _active_workflows := delete workflow_id (_active_workflows w);
            clock := clock w |})
    | None => (Return false, w)
    end.

(** ** api/workflow_routes.py: the reset operation *)

(** The body of [reset_workflow] up to the update of the record; the 404 of
    the route is the [ValueError] of a missing workflow here. *)
Definition reset_updates : list (string * Value) := [
  ("status", VStatus WorkflowStatus.INITIALIZING);
  ("current_phase", VPhase WorkflowPhase.REQUIREMENTS);
  ("requirements_content", VNone);
  ("design_content", VNone);
  ("tasks_content", VNone);
  ("requirements_approved", VBool false);
  ("design_approved", VBool false);
  ("tasks_approved", VBool false);
  ("pending_approval", VNone);
  ("user_feedback", VNone);
  ("last_user_action", VNone);
  ("retry_count", VInt 0);
  ("last_error", VNone);
  ("generated_files", VFiles [])
].

Definition reset_workflow (workflow_id : string) : M (gmap string Value) :=
  workflow_state ← get_workflow_state workflow_id;
  match workflow_state with
  | None => raise (ValueError ("Workflow " ++ workflow_id ++ " not found"))
  | Some st =>
      if decide (st = ∅) then
        raise (ValueError ("Workflow " ++ workflow_id ++ " not found"))
      else update_workflow_state workflow_id reset_updates
  end.

(** ** workflow_nodes.py: the generation nodes *)

(** The three system prompts.  Each literal is cut after its opening
    sentence: the rest is formatting guidance for the model and no code
    inspects it. *)
Definition REQUIREMENTS_SYSTEM_PROMPT : string :=
  "You are an expert business analyst and requirements engineer. Your task is to generate comprehensive, well-structured requirements documentation for software features.".
Definition DESIGN_SYSTEM_PROMPT : string :=
  "You are a senior software architect and system designer. Your task is to create comprehensive technical design documentation based on established requirements.".
Definition TASKS_SYSTEM_PROMPT : string :=
  "You are an experienced project manager and software development lead. Your task is to create detailed implementation plans based on requirements and design specifications.".

Definition nl : string := String "010"%char "".

(** [l[-n:]]. *)
Definition last_n {A} (n : nat) (l : list A) : list A :=
  drop (length l - n)%nat l.

(** [sep.join(parts)]. *)
Definition join (sep : string) (parts : list string) : string :=
  String.concat sep parts.

(** [_build_context_from_conversation]. *)
Definition _build_context_from_conversation (state : gmap string Value)
    : Outcome string :=
  history ← getitem state "conversation_history";
  if negb (truthy history) then Return ""
  else match history with
  | VMessages l =>
      let user_messages :=
        List.filter (fun msg => String.eqb (role msg) "user") (last_n 10 l) in
      match user_messages with
      | [] => Return ""
      | _ =>
          let context_parts :=
            "**Additional Context from Conversation:**" ::
            imap (fun i msg =>
                    pretty (S i) ++ ". " ++ substring 0 200 (content msg) ++
                    (if (200 <? String.length (content msg))%nat then "..." else ""))
                 (last_n 3 user_messages) in
          Return (join nl context_parts)
      end
  | v => Raise (TypeError ("object is not subscriptable: " ++ fmt v))
  end.

(** The name [state] of a node: first the dictionary it was called with, and
    after [state = state_manager.update_workflow_state(...)] the very
    dictionary held in the manager's table, which later updates mutate. *)
Inductive StateVar :=
| Local (d : gmap string Value)
| Stored (workflow_id : string).

Definition read (state : StateVar) : M (gmap string Value) :=
  match state with
  | Local d => ret d
  | Stored workflow_id =>
      store ← get_store;
      ret (default ∅ (store !! workflow_id))
  end.

(** [state[key]]. *)
Definition item (state : StateVar) (key : string) : M Value :=
  d ← read state;
  lift (getitem d key).

(** A workflow id taken from a record is any value; the table has string
    keys only. *)
Definition as_key (v : Value) : Outcome (option string) :=
  match v with
  | VStr s => Return (Some s)
  | VStatus s => Return (Some (WorkflowStatus.value s))
  | VPhase p => Return (Some (WorkflowPhase.value p))
  | VAction a => Return (Some (WorkflowAction.value a))
  | VMessages _ | VFiles _ => Raise (TypeError "unhashable type")
  | _ => Return None
  end.

(** [state = state_manager.update_workflow_state(state["workflow_id"], updates)]. *)
Definition update_and_rebind (workflow_id : Value)
    (updates : list (string * Value)) : M StateVar :=
  key ← lift (as_key workflow_id);
  match key with
  | Some k => update_workflow_state k updates;; ret (Stored k)
  | None => raise (ValueError ("Workflow " ++ fmt workflow_id ++ " not found"))
  end.

Definition with_key {A} (workflow_id : Value) (f : string -> M A) : M A :=
  key ← lift (as_key workflow_id);
  match key with
  | Some k => f k
  | None => raise (ValueError ("Workflow " ++ fmt workflow_id ++ " not found"))
  end.

(** [try: state = first; rest  except Exception as e: handler]: the handler
    sees the binding of [state] that is current where the exception is
    raised, and its own exceptions propagate. *)
Definition try_except {A} (state : StateVar) (first : M StateVar)
    (rest : StateVar -> M A) (handler : StateVar -> PyExc -> M A) : M A :=
  fun w =>
    match first w with
    | (Raise e, w1) => handler state e w1
    | (Return state', w1) =>
        match rest state' w1 with
        | (Raise e, w2) => handler state' e w2
        | r => r
        end
    end.

(** [x + 1] and [x < 3] on a dictionary value. *)
Definition add_one (v : Value) : Outcome Value :=
  match v with
  | VInt n => Return (VInt (n + 1))
  | VBool b => Return (VInt ((if b then 1 else 0) + 1))
  | v => Raise (TypeError ("unsupported operand type(s) for +: " ++ fmt v))
  end.

Definition less_than (v : Value) (k : Z) : Outcome bool :=
  match v with
  | VInt n => Return (n <? k)
  | VBool b => Return ((if b then 1 else 0) <? k)
  | v => Raise (TypeError ("'<' not supported: " ++ fmt v))
  end.

(** The [except Exception as e] block shared, word for word, by the three
    generation nodes. *)
Definition except_generation (state : StateVar) (e : PyExc)
    : M (gmap string Value) :=
  _ ← item state "workflow_id";
  workflow_id ← item state "workflow_id";
  retry_count ← item state "retry_count";
  retry_count ← lift (add_one retry_count);
  state ← update_and_rebind workflow_id [
    ("status", VStatus WorkflowStatus.FAILED);
    ("last_error", VStr (str_exc e));
    ("retry_count", retry_count)
  ];
  read state.

(** The model-invocation capability: [get_llm_client(provider, model_name)]
    yields a client whose [generate] maps messages to a response or raises. *)
Definition LLMClientFactory : Type :=
  Value -> Value -> Outcome (list LLMMessage -> Outcome LLMResponse).

(** The tail shared by the three [try] blocks: invoke the model, append the
    answer to the conversation, arm the approval gate. *)
Definition invoke_and_arm (get_llm_client : LLMClientFactory)
    (phase : string) (messages : list LLMMessage) (state : StateVar)
    : M (gmap string Value) :=
  provider ← item state "llm_provider";
  model_name ← item state "model_name";
  llm_client ← lift (get_llm_client provider model_name);
  response ← lift (llm_client messages);
  let phase_content := response_content response in
  workflow_id ← item state "workflow_id";
  model_name ← item state "model_name";
  with_key workflow_id (fun k =>
    add_conversation_message k "assistant" phase_content
      [("phase", phase); ("model", fmt model_name)]);;
  workflow_id ← item state "workflow_id";
  state ← with_key workflow_id (fun k =>
    set_pending_approval k phase phase_content;; ret (Stored k));
  _ ← item state "workflow_id";
  read state.

(** [generate_requirements_node]. *)
Definition generate_requirements_node (get_llm_client : LLMClientFactory)
    (state : gmap string Value) : M (gmap string Value) :=
  _ ← lift (getitem state "workflow_id");
  try_except (Local state)
    (workflow_id ← lift (getitem state "workflow_id");
     update_and_rebind workflow_id
       [("status", VStatus WorkflowStatus.GENERATING_REQUIREMENTS)])
    (fun state =>
       feature_name ← item state "feature_name";
       initial_description ← item state "initial_description";
       d ← read state;
       context ← lift (_build_context_from_conversation d);
       let messages := [
         {| msg_role := "system"; msg_content := REQUIREMENTS_SYSTEM_PROMPT |};
         {| msg_role := "user";
            msg_content :=
              "Please generate comprehensive requirements documentation for the following feature:"
              ++ nl ++ nl ++ "**Feature Name:** " ++ fmt feature_name
              ++ nl ++ nl ++ "**Description:** " ++ fmt initial_description
              ++ nl ++ nl ++ context ++ nl ++ nl ++
              "Please provide a detailed requirements document that covers all aspects of this feature, including functional requirements, non-functional requirements, data requirements, integration needs, constraints, and risk assessment." |}
       ] in
       invoke_and_arm get_llm_client "requirements" messages state)
    except_generation.

(** [context_parts.append(...)] under [if state[key]:]. *)
Definition append_if (state : StateVar) (key label : string)
    (context_parts : list string) : M (list string) :=
  v ← item state key;
  if truthy v then
    v ← item state key;
    ret (context_parts ++ [label +:+ fmt v])%list
  else ret context_parts.

(** [generate_design_node]. *)
Definition generate_design_node (get_llm_client : LLMClientFactory)
    (state : gmap string Value) : M (gmap string Value) :=
  _ ← lift (getitem state "workflow_id");
  try_except (Local state)
    (workflow_id ← lift (getitem state "workflow_id");
     update_and_rebind workflow_id
       [("status", VStatus WorkflowStatus.GENERATING_DESIGN)])
    (fun state =>
       feature_name ← item state "feature_name";
       initial_description ← item state "initial_description";
       let context_parts := [
         "**Feature Name:** " ++ fmt feature_name;
         "**Description:** " ++ fmt initial_description
       ] in
       context_parts ← append_if state "requirements_content"
                         ("**Requirements Document:**" ++ nl) context_parts;
       context_parts ← append_if state "user_feedback"
                         "**User Feedback:** " context_parts;
       let context := join (nl ++ nl) context_parts in
       d ← read state;
       conversation ← lift (_build_context_from_conversation d);
       let messages := [
         {| msg_role := "system"; msg_content := DESIGN_SYSTEM_PROMPT |};
         {| msg_role := "user";
            msg_content :=
              "Please generate comprehensive technical design documentation based on the following information:"
              ++ nl ++ nl ++ context ++ nl ++ nl ++ conversation ++ nl ++ nl ++
              "Create a detailed design document that addresses architecture, data models, API design, user interface, security, performance, and implementation considerations. The design should be practical and implementable based on the requirements." |}
       ] in
       invoke_and_arm get_llm_client "design" messages state)
    except_generation.

(** [generate_tasks_node]. *)
Definition generate_tasks_node (get_llm_client : LLMClientFactory)
    (state : gmap string Value) : M (gmap string Value) :=
  _ ← lift (getitem state "workflow_id");
  try_except (Local state)
    (workflow_id ← lift (getitem state "workflow_id");
     update_and_rebind workflow_id
       [("status", VStatus WorkflowStatus.GENERATING_TASKS)])
    (fun state =>
       feature_name ← item state "feature_name";
       initial_description ← item state "initial_description";
       let context_parts := [
         "**Feature Name:** " ++ fmt feature_name;
         "**Description:** " ++ fmt initial_description
       ] in
       context_parts ← append_if state "requirements_content"
                         ("**Requirements Document:**" ++ nl) context_parts;
       context_parts ← append_if state "design_content"
                         ("**Design Document:**" ++ nl) context_parts;
       context_parts ← append_if state "user_feedback"
                         "**User Feedback:** " context_parts;
       let context := join (nl ++ nl) context_parts in
       d ← read state;
       conversation ← lift (_build_context_from_conversation d);
       let messages := [
         {| msg_role := "system"; msg_content := TASKS_SYSTEM_PROMPT |};
         {| msg_role := "user";
            msg_content :=
              "Please generate a comprehensive implementation plan based on the following information:"
              ++ nl ++ nl ++ context ++ nl ++ nl ++ conversation ++ nl ++ nl ++
              "Create a detailed implementation plan that breaks down the work into phases and specific tasks. Include estimates, dependencies, resource requirements, quality assurance processes, and success metrics. The plan should be actionable and guide a development team through the implementation." |}
       ] in
       invoke_and_arm get_llm_client "tasks" messages state)
    except_generation.

(** [human_approval_gate_node]: the state is returned unchanged. *)
Definition human_approval_gate_node (state : gmap string Value)
    : M (gmap string Value) :=
  _ ← lift (getitem state "workflow_id");
  ret state.

(** The collaborators of [generate_final_documents_node]: conversion to a
    [SpecState], template rendering and writing to disk, taken together as
    one capability yielding [(documents, written_files)] or raising. *)
Definition FinalDocuments : Type :=
  gmap string Value ->
  Outcome (list (string * string) * list (string * string)).

(** [generate_final_documents_node]. *)
Definition generate_final_documents_node (render_and_write : FinalDocuments)
    (state : gmap string Value) : M (gmap string Value) :=
  _ ← lift (getitem state "workflow_id");
  try_except (Local state)
    ('(documents, written_files) ← lift (render_and_write state);
     workflow_id ← lift (getitem state "workflow_id");
     update_and_rebind workflow_id [
       ("generated_files", VFiles documents);
       ("written_file_paths", VFiles written_files);
       ("status", VStatus WorkflowStatus.COMPLETED)
     ])
    (fun state =>
       _ ← item state "workflow_id";
       read state)
    (fun state e =>
       _ ← item state "workflow_id";
       workflow_id ← item state "workflow_id";
       state ← update_and_rebind workflow_id [
         ("status", VStatus WorkflowStatus.FAILED);
         ("last_error", VStr (str_exc e))
       ];
       read state).

(** The routing predicates at the end of workflow_nodes.py. *)
Definition should_generate_requirements (state : gmap string Value)
    : Outcome bool :=
  status ← getitem state "status";
  if eq_status status WorkflowStatus.GENERATING_REQUIREMENTS then Return true
  else
    status ← getitem state "status";
    if eq_status status WorkflowStatus.INITIALIZING then
      current_phase ← getitem state "current_phase";
      Return (eq_phase current_phase WorkflowPhase.REQUIREMENTS)
    else Return false.

Definition should_generate_design (state : gmap string Value) : Outcome bool :=
  status ← getitem state "status";
  Return (eq_status status WorkflowStatus.GENERATING_DESIGN).

Definition should_generate_tasks (state : gmap string Value) : Outcome bool :=
  status ← getitem state "status";
  Return (eq_status status WorkflowStatus.GENERATING_TASKS).

Definition should_wait_for_approval (state : gmap string Value)
    : Outcome bool :=
  status ← getitem state "status";
  Return (existsb (eq_status status) [
    WorkflowStatus.AWAITING_REQUIREMENTS_APPROVAL;
    WorkflowStatus.AWAITING_DESIGN_APPROVAL;
    WorkflowStatus.AWAITING_TASKS_APPROVAL
  ]).

Definition should_generate_final_documents (state : gmap string Value)
    : Outcome bool :=
  a ← getitem state "requirements_approved";
  if negb (truthy a) then Return false else
  a ← getitem state "design_approved";
  if negb (truthy a) then Return false else
  a ← getitem state "tasks_approved";
  if negb (truthy a) then Return false else
  status ← getitem state "status";
  Return (negb (eq_status status WorkflowStatus.COMPLETED)).

Definition is_workflow_complete (state : gmap string Value) : Outcome bool :=
  status ← getitem state "status";
  Return (eq_status status WorkflowStatus.COMPLETED).

Definition is_workflow_failed (state : gmap string Value) : Outcome bool :=
  status ← getitem state "status";
  Return (eq_status status WorkflowStatus.FAILED).

(** ** workflow.py: routing after a generation node *)

(** The common body of [_route_from_requirements], [_route_from_design] and
    [_route_from_tasks], which differ in the awaiting status they test and
    in the node they send a failed record back to. *)
Definition route_from_generation (awaiting : WorkflowStatus.t)
    (again : string) (state : gmap string Value) : Outcome string :=
  failed ← is_workflow_failed state;
  if (failed : bool) then
    retry_count ← getitem state "retry_count";
    retry ← less_than retry_count 3;
    if (retry : bool) then
      getitem state "workflow_id";;
      Return again
    else
      getitem state "workflow_id";;
      Return "end"
  else
    status ← getitem state "status";
    if eq_status status awaiting then Return "human_approval"
    else Return "end".

Definition _route_from_requirements : gmap string Value -> Outcome string :=
  route_from_generation WorkflowStatus.AWAITING_REQUIREMENTS_APPROVAL
    "generate_requirements".

Definition _route_from_design : gmap string Value -> Outcome string :=
  route_from_generation WorkflowStatus.AWAITING_DESIGN_APPROVAL
    "generate_design".

Definition _route_from_tasks : gmap string Value -> Outcome string :=
  route_from_generation WorkflowStatus.AWAITING_TASKS_APPROVAL
    "generate_tasks".

Definition _route_from_final_documents (state : gmap string Value)
    : Outcome string :=
  failed ← is_workflow_failed state;
  if (failed : bool) then
    retry_count ← getitem state "retry_count";
    retry ← less_than retry_count 3;
    if (retry : bool) then
      getitem state "workflow_id";;
      Return "generate_final_documents"
    else Return "end"
  else Return "end".

(** ** Histories of a manager *)

(** The calls that mutate a manager: its own methods, the reset of the API
    layer and the nodes of the graph. *)
Inductive Op :=
| OpCreate (workflow_id feature_name description llm_provider
            model_name : string) (research_enabled : bool)
| OpUpdate (workflow_id : string) (updates : list (string * Value))
| OpTransitionToPhase (workflow_id : string) (phase : WorkflowPhase.t)
                      (status : WorkflowStatus.t)
| OpSetPendingApproval (workflow_id phase content : string)
| OpHandleUserApproval (workflow_id : string) (action : WorkflowAction.t)
                       (feedback : option string)
| OpAddConversationMessage (workflow_id role content : string)
                           (metadata : list (string * string))
| OpCleanup (workflow_id : string)
| OpReset (workflow_id : string)
| OpGenerateRequirements (get_llm_client : LLMClientFactory)
                         (state : gmap string Value)
| OpGenerateDesign (get_llm_client : LLMClientFactory)
                   (state : gmap string Value)
| OpGenerateTasks (get_llm_client : LLMClientFactory)
                  (state : gmap string Value)
| OpGenerateFinalDocuments (render_and_write : FinalDocuments)
                           (state : gmap string Value).

(** The manager after a call, whether the call returned or raised. *)
Definition run_op (op : Op) (w : WorkflowStateManager) : WorkflowStateManager :=
  match op with
  | OpCreate i f d p m r => (create_workflow_state i f d p m r w).2
  | OpUpdate i u => (update_workflow_state i u w).2
  | OpTransitionToPhase i p s => (transition_to_phase i p s w).2
  | OpSetPendingApproval i p c => (set_pending_approval i p c w).2
  | OpHandleUserApproval i a f => (handle_user_approval i a f w).2
  | OpAddConversationMessage i r c m => (add_conversation_message i r c m w).2
  | OpCleanup i => (cleanup_workflow i w).2
  | OpReset i => (reset_workflow i w).2
  | OpGenerateRequirements g s => (generate_requirements_node g s w).2
  | OpGenerateDesign g s => (generate_design_node g s w).2
  | OpGenerateTasks g s => (generate_tasks_node g s w).2
  | OpGenerateFinalDocuments r s => (generate_final_documents_node r s w).2
  end.

Definition run_ops (ops : list Op) (w : WorkflowStateManager)
    : WorkflowStateManager :=
  fold_left (fun w op => run_op op w) ops w.

(** The managers reachable from a fresh one by calls taken from [allowed]. *)
Inductive reachable (allowed : Op -> Prop) : WorkflowStateManager -> Prop :=
| reachable_init : reachable allowed init_manager
| reachable_step w op :
    reachable allowed w -> allowed op -> reachable allowed (run_op op w).

(** Every call is allowed. *)
Definition any_op (op : Op) : Prop := True.

(** The operations of the state manager that move a record between states:
    create, set_pending_approval, handle_user_approval, transition_to_phase
    and reset. *)
Definition state_op (op : Op) : Prop :=
  match op with
  | OpCreate _ _ _ _ _ _ | OpSetPendingApproval _ _ _
  | OpHandleUserApproval _ _ _ | OpTransitionToPhase _ _ _ | OpReset _ => True
  | _ => False
  end.

(** The three awaiting-approval states, the values of [status_map]. *)
Definition is_awaiting (s : WorkflowStatus.t) : bool :=
  match s with
  | WorkflowStatus.AWAITING_REQUIREMENTS_APPROVAL
  | WorkflowStatus.AWAITING_DESIGN_APPROVAL
  | WorkflowStatus.AWAITING_TASKS_APPROVAL => true
  | _ => false
  end.

(** The three actions the approval route of the API layer lets through
    ([action_mapping] of [handle_approval]). *)
Definition gate_action (a : WorkflowAction.t) : bool :=
  match a with
  | WorkflowAction.APPROVE | WorkflowAction.REJECT
  | WorkflowAction.REQUEST_REVISION => true
  | _ => false
  end.

(** The same operations, with the approval gate called as the API layer calls
    it and [transition_to_phase] never aimed at an awaiting-approval state. *)
Definition gated_op (op : Op) : Prop :=
  match op with
  | OpCreate _ _ _ _ _ _ | OpSetPendingApproval _ _ _ | OpReset _ => True
  | OpHandleUserApproval _ a _ => gate_action a = true
  | OpTransitionToPhase _ _ s => is_awaiting s = false
  | _ => False
  end.

(** [state[key]] is present and is not [None]. *)
Definition non_null (state : gmap string Value) (key : string) : Prop :=
  exists v, state !! key = Some v /\ v <> VNone.

(** The consistency rule of [pending_approval]: it is non-null exactly in
    the awaiting-approval states, and then names the phase whose entry of
    [status_map] is the status of the record. *)
Definition pending_approval_consistent (state : gmap string Value) : Prop :=
  (non_null state "pending_approval" <->
   should_wait_for_approval state = Return true) /\
  (forall v, state !! "pending_approval" = Some v -> v <> VNone ->
     exists phase status,
       v = VStr phase /\ status_map phase = Some status /\
       state !! "status" = Some (VStatus status)).

(** The value [updates] gives to [key]: its last item for that key. *)
Fixpoint last_binding (key : string) (updates : list (string * Value))
    : option Value :=
  match updates with
  | [] => None
  | (k, v) :: rest =>
      match last_binding key rest with
      | Some x => Some x
      | None => if String.eqb k key then Some v else None
      end
  end.

(** A property of every record of the table. *)
Definition table_inv (P : gmap string Value -> Prop)
    (w : WorkflowStateManager) : Prop :=
  forall workflow_id state,
    _active_workflows w !! workflow_id = Some state -> P state.

(** The record an update leaves in the table. *)
Definition updated (state : gmap string Value)
    (updates : list (string * Value)) (now : string) : gmap string Value :=
  <["updated_at" := VStr now]> (merge_updates state updates).

(** [m] keeps [I], whether it returns or raises. *)
Definition preserves {A} (I : WorkflowStateManager -> Prop) (m : M A) : Prop :=
  forall w, I w -> I (m w).2.

(** What an update must keep for [P] to survive it, whatever the time. *)
Definition update_keeps (P : gmap string Value -> Prop)
    (updates : list (string * Value)) : Prop :=
  forall state now, P state -> P (updated state updates now).

(** A record whose [status] and [pending_approval] are present and agree:
    either nothing is pending and the status is not an awaiting-approval
    state, or the pending phase is the one [status_map] sends to the
    status. *)
Definition armed (state : gmap string Value) : Prop :=
  exists pending status,
    state !! "pending_approval" = Some pending /\
    state !! "status" = Some (VStatus status) /\
    ((pending = VNone /\ is_awaiting status = false) \/
     (exists phase, pending = VStr phase /\ status_map phase = Some status)).

(** The last character of a string; tells the keys built by
    [f"{phase}_approved"] from the fixed keys of an update. *)
Fixpoint last_char (s : string) : option ascii :=
  match s with
  | EmptyString => None
  | String c EmptyString => Some c
  | String _ rest => last_char rest
  end.

(** The record of a workflow as [continue_workflow] hands it to the graph. *)
Definition current_state (w : WorkflowStateManager) (workflow_id : string)
    : gmap string Value :=
  default ∅ (_active_workflows w !! workflow_id).

(** Calls of the graph on a started workflow: creation and the generation
    nodes. *)
Definition generation_op (op : Op) : Prop :=
  match op with
  | OpCreate _ _ _ _ _ _ | OpGenerateRequirements _ _
  | OpGenerateDesign _ _ | OpGenerateTasks _ _ => True
  | _ => False
  end.

(** Two model-invocation capabilities: one whose every call raises, one that
    always answers with the same text. *)
Definition failing_client (msg : string) : LLMClientFactory :=
  fun _ _ => Return (fun _ => Raise (Exception msg)).

Definition answering_client (text : string) : LLMClientFactory :=
  fun _ model =>
    Return (fun _ => Return {| response_content := text;
                               response_model := fmt model |}).

(** A workflow as the start operation creates it. *)
Definition started : WorkflowStateManager :=
  run_op (OpCreate "wf" "Login" "Users sign in with a password" "openai"
                   "gpt-4-turbo-preview" true) init_manager.

(** The same workflow with every phase generated and approved up to the
    approval of the tasks, which is pending. *)
Definition tasks_pending : WorkflowStateManager :=
  run_ops [
    OpSetPendingApproval "wf" "requirements" "# Requirements";
    OpHandleUserApproval "wf" WorkflowAction.APPROVE None;
    OpSetPendingApproval "wf" "design" "# Design";
    OpHandleUserApproval "wf" WorkflowAction.APPROVE None;
    OpSetPendingApproval "wf" "tasks" "# Tasks"
  ] started.

(** The keys of the dictionary built by [create_workflow_state]. *)
Definition record_keys : list string := [
  "workflow_id"; "feature_name"; "initial_description"; "status";
  "current_phase"; "requirements_content"; "design_content"; "tasks_content";
  "requirements_approved"; "design_approved"; "tasks_approved";
  "pending_approval"; "user_feedback"; "last_user_action";
  "conversation_history"; "llm_provider"; "model_name"; "research_enabled";
  "research_results"; "retry_count"; "last_error"; "created_at";
  "updated_at"; "generated_files"
].

Definition has_record_keys (state : gmap string Value) : Prop :=
  Forall (fun key => is_Some (state !! key)) record_keys.

(** A record as the graph finds it under [workflow_id]: the keys of a
    created record, its own id, a list of messages and an integer count of
    retries. *)
Definition well_formed (workflow_id : string) (state : gmap string Value)
    : Prop :=
  has_record_keys state /\
  state !! "workflow_id" = Some (VStr workflow_id) /\
  (exists l, state !! "conversation_history" = Some (VMessages l)) /\
  (exists n, state !! "retry_count" = Some (VInt n)).

(** A capability whose client raises [e] on every invocation. *)
Definition always_fails (get_llm_client : LLMClientFactory) (e : PyExc)
    : Prop :=
  forall provider model_name,
    exists client,
      get_llm_client provider model_name = Return client /\
      forall messages, client messages = Raise e.

(** The dictionary of the [except] block of a generation node. *)
Definition failure_updates (e : PyExc) (retry_count : Z)
    : list (string * Value) := [
  ("status", VStatus WorkflowStatus.FAILED);
  ("last_error", VStr (str_exc e));
  ("retry_count", VInt (retry_count + 1))
].

(** The outcome of a generation node whose [try] block gets as far as the
    model and no further. *)
Definition failed_generation (w : WorkflowStateManager) (workflow_id : string)
    (state : gmap string Value) (generating : WorkflowStatus.t) (e : PyExc)
    (n : Z) : Outcome (gmap string Value) * WorkflowStateManager :=
  let state1 := updated state [("status", VStatus generating)]
                  (isoformat (clock w)) in
  let state2 := updated state1 (failure_updates e n) (isoformat (S (clock w))) in
  (Return state2,
   {| _active_workflows :=
        <[workflow_id := state2]> (<[workflow_id := state1]> (_active_workflows w));
      clock := S (S (clock w)) |}).

(** ** llm_utils.py: response extraction *)

Module ParseMode.
(** [class ParseMode(str, Enum)]. *)
Inductive t := JSON | MARKDOWN | CONVERSATION.

Definition value (m : t) : string :=
match m with
| JSON => "json"
| MARKDOWN => "markdown"
| CONVERSATION => "conversation"
end.

#[global] Instance eq_dec : EqDecision t.
Proof. solve_decision. Defined.
End ParseMode.

(** Text is a sequence of code points below 256, one [ascii] each. *)

Definition quote : ascii := "034"%char.
Definition backslash : ascii := "092"%char.

(** [str.isspace] on one character, which is also the class [\s] of a
    [str] pattern. *)
Definition is_space (c : ascii) : bool :=
  let n := nat_of_ascii c in
  ((9 <=? n) && (n <=? 13) || (28 <=? n) && (n <=? 32)
   || (n =? 133) || (n =? 160))%nat.

Fixpoint lstrip (s : string) : string :=
  match s with
  | String c rest => if is_space c then lstrip rest else s
  | EmptyString => EmptyString
  end.

Fixpoint rstrip (s : string) : string :=
  match s with
  | String c rest =>
      match rstrip rest with
      | EmptyString => if is_space c then EmptyString else String c EmptyString
      | r => String c r
      end
  | EmptyString => EmptyString
  end.

(** [s.strip()]. *)
Definition strip (s : string) : string := lstrip (rstrip s).

(** [s.startswith(p)], [s.endswith(p)], [s[n:]] and [p in s]. *)
Definition startswith (p s : string) : bool := String.prefix p s.

Definition endswith (p s : string) : bool :=
  String.prefix (String.rev p) (String.rev s).

Fixpoint drop_chars (n : nat) (s : string) : string :=
  match n, s with
  | S k, String _ rest => drop_chars k rest
  | _, _ => s
  end.

Fixpoint contains (p s : string) : bool :=
  startswith p s ||
  match s with
  | String _ rest => contains p rest
  | EmptyString => false
  end.

(** Lower case of an ASCII letter, for [re.IGNORECASE]. *)
Definition lower (c : ascii) : ascii :=
  let n := nat_of_ascii c in
  if ((65 <=? n) && (n <=? 90))%nat then ascii_of_nat (n + 32) else c.

Fixpoint startswith_ignorecase (p s : string) : bool :=
  match p, s with
  | EmptyString, _ => true
  | String a p', String b s' =>
      Ascii.eqb (lower a) (lower b) && startswith_ignorecase p' s'
  | _, EmptyString => false
  end.

Definition fence : string := "```".

(** Pattern 1, [```(?:json)?\s*(\{.*?\})\s*```] with [re.DOTALL] and
    [re.IGNORECASE].  [lazy_object s] is the shortest [.*?\}] at the head of
    [s] after which [\s*```] matches: every character before it is taken by
    the lazy [.*?]. *)
Fixpoint lazy_object (s : string) : option string :=
  match s with
  | EmptyString => None
  | String c rest =>
      if Ascii.eqb c "}" && startswith fence (lstrip rest)
      then Some (String c EmptyString)
      else String c <$> lazy_object rest
  end.

(** The pattern anchored at the head of [s]; the result is group 1.  The
    optional [json] and both [\s*] are greedy, and giving characters back
    never helps: what must follow them is a brace or a backquote. *)
Definition match_json_block (s : string) : option string :=
  if startswith fence s then
    let s := drop_chars 3 s in
    let s := if startswith_ignorecase "json" s then drop_chars 4 s else s in
    match lstrip s with
    | String "{" rest => String "{" <$> lazy_object rest
    | _ => None
    end
  else None.

(** [re.search]: the match at the leftmost position that has one. *)
Fixpoint search_json_block (s : string) : option string :=
  match match_json_block s with
  | Some group => Some group
  | None =>
      match s with
      | String _ rest => search_json_block rest
      | EmptyString => None
      end
  end.

(** Pattern 3 ([json_pattern]): an opening brace, characters other than
    braces, any number of groups made of a brace pair around characters
    other than braces and followed by characters other than braces, and a
    closing brace.  [match_braces inner s] matches what follows the opening
    brace; [inner] tells whether the head of [s] is inside a group.  A brace
    opened inside a group, or the end of the text, fails the match at this
    position. *)
Fixpoint match_braces (inner : bool) (s : string) : option string :=
  match s with
  | EmptyString => None
  | String c rest =>
      if Ascii.eqb c "{" then
        if inner then None else String c <$> match_braces true rest
      else if Ascii.eqb c "}" then
        if inner then String c <$> match_braces false rest
        else Some (String c EmptyString)
      else String c <$> match_braces inner rest
  end.

Definition match_json_pattern (s : string) : option string :=
  match s with
  | String "{" rest => String "{" <$> match_braces false rest
  | _ => None
  end.

(** [re.findall]: the matches from left to right, none overlapping; [skip]
    counts the characters of the last match still to pass. *)
Fixpoint findall_json_pattern (skip : nat) (s : string) : list string :=
  match s with
  | EmptyString => []
  | String _ rest =>
      match skip with
      | S k => findall_json_pattern k rest
      | O =>
          match match_json_pattern s with
          | Some m => m :: findall_json_pattern (String.length m - 1) rest
          | None => findall_json_pattern 0 rest
          end
      end
  end.

(** *** json.loads *)

(** A decoded document.  Numbers and strings keep the text they were
    written with. *)
#[local] Set Warnings "-register-all".
Inductive Json :=
| JNull
| JBool (b : bool)
| JNumber (lexeme : string)
| JString (lexeme : string)
| JArray (items : list Json)
| JObject (members : list (string * Json)).

(** The class [WHITESPACE] of json/decoder.py. *)
Definition is_json_ws (c : ascii) : bool :=
  Ascii.eqb c " " || Ascii.eqb c "009" || Ascii.eqb c "010" || Ascii.eqb c "013".

Fixpoint skip_ws (s : string) : string :=
  match s with
  | String c rest => if is_json_ws c then skip_ws rest else s
  | EmptyString => EmptyString
  end.

Definition is_digit (c : ascii) : bool :=
  let n := nat_of_ascii c in ((48 <=? n) && (n <=? 57))%nat.

Definition is_hex (c : ascii) : bool :=
  let n := nat_of_ascii c in
  (is_digit c || (65 <=? n) && (n <=? 70) || (97 <=? n) && (n <=? 102))%nat.

(** [scanstring] in strict mode, from just after the opening quote: the
    text up to the closing quote and what follows it. *)
Fixpoint scanstring (s : string) : option (string * string) :=
  match s with
  | EmptyString => None
  | String c rest =>
      if Ascii.eqb c quote then Some (EmptyString, rest)
      else if Ascii.eqb c backslash then
        match rest with
        | String "u" (String h1 (String h2 (String h3 (String h4 rest')))) =>
            if is_hex h1 && is_hex h2 && is_hex h3 && is_hex h4 then
              '(lexeme, tail) ← scanstring rest';
              Some (String c (String "u" (String h1 (String h2
                      (String h3 (String h4 lexeme))))), tail)
            else None
        | String e rest' =>
            if existsb (Ascii.eqb e)
                 [quote; backslash; "/"; "b"; "f"; "n"; "r"; "t"]%char then
              '(lexeme, tail) ← scanstring rest';
              Some (String c (String e lexeme), tail)
            else None
        | EmptyString => None
        end
      else if (nat_of_ascii c <? 32)%nat then None
      else
        '(lexeme, tail) ← scanstring rest;
        Some (String c lexeme, tail)
  end.

(** The longest run of digits at the head of [s]. *)
Fixpoint span_digits (s : string) : string * string :=
  match s with
  | String c rest =>
      if is_digit c then
        let '(digits, tail) := span_digits rest in (String c digits, tail)
      else (EmptyString, s)
  | EmptyString => (EmptyString, EmptyString)
  end.

(** [NUMBER_RE] at the head of [s]: an optional minus sign, then [0] or a
    non-zero digit and digits, then optionally a dot and digits, then
    optionally [e] or [E], a sign and digits. *)
Definition match_number (s : string) : option (string * string) :=
  let '(sign, s1) :=
    match s with
    | String "-" rest => ("-", rest)
    | _ => (EmptyString, s)
    end in
  match s1 with
  | String c rest =>
      if is_digit c then
        let '(int_part, s2) :=
          if Ascii.eqb c "0" then (String c EmptyString, rest)
          else let '(digits, tail) := span_digits rest in
               (String c digits, tail) in
        let '(frac, s3) :=
          match s2 with
          | String "." rest2 =>
              match span_digits rest2 with
              | (EmptyString, _) => (EmptyString, s2)
              | (digits, tail) => (String "." digits, tail)
              end
          | _ => (EmptyString, s2)
          end in
        let '(exponent, s4) :=
          match s3 with
          | String e rest3 =>
              if Ascii.eqb e "e" || Ascii.eqb e "E" then
                let '(esign, rest4) :=
                  match rest3 with
                  | String "+" r => ("+", r)
                  | String "-" r => ("-", r)
                  | _ => (EmptyString, rest3)
                  end in
                match span_digits rest4 with
                | (EmptyString, _) => (EmptyString, s3)
                | (digits, tail) => (String e (esign +:+ digits), tail)
                end
              else (EmptyString, s3)
          | EmptyString => (EmptyString, s3)
          end in
        Some (sign +:+ int_part +:+ frac +:+ exponent, s4)
      else None
  | EmptyString => None
  end.

(** A literal [word] at the head of [s]. *)
Definition literal (word : string) (v : Json) (s : string)
    : option (Json * string) :=
  if startswith word s then Some (v, drop_chars (String.length word) s)
  else None.

(** What the interpreter fixes for a run: the builtin [hash] on strings; how
    many containers, one inside the other, the decoder can enter before the
    interpreter raises [RecursionError], for the call of [json.loads] in
    [parse_json_response] and for the one in [_extract_json_from_response],
    which is made one frame deeper; [sys.get_int_max_str_digits()], 0 for no
    limit; and the text of the [JSONDecodeError] that [json.loads] raises on
    a text that does not decode. *)
Record Interpreter := {
  hash : string -> Z;
  json_depth : nat;
  json_depth_extracting : nat;
  int_max_str_digits : nat;
  decode_error : string -> string
}.

(** What a call of [scan_once] comes to: a value and the text after it,
    [StopIteration] or [JSONDecodeError], or an exception that is neither. *)
Inductive Scan :=
| Scanned (v : Json) (rest : string)
| Malformed
| GaveUp (e : PyExc).

(** The [RecursionError] of [Py_EnterRecursiveCall] in the scanner, for an
    [object] or an [array]. *)
Definition RecursionError (container : string) : PyExc :=
  Exception ("maximum recursion depth exceeded while decoding a JSON "
             +:+ container +:+ " from a unicode string").

(** The number of digits of an integer lexeme: [None] for a lexeme with a
    fraction or an exponent, which is converted by [float]. *)
Definition int_digits (lexeme : string) : option nat :=
  let chars := list_ascii_of_string lexeme in
  if forallb (fun c => is_digit c || Ascii.eqb c "-") chars
  then Some (length (List.filter is_digit chars))
  else None.

(** [int(lexeme)]: the [ValueError] of the limit on integer string
    conversion, which applies above 640 digits when the limit is not 0. *)
Definition int_conversion (max_digits : nat) (lexeme : string)
    : option PyExc :=
  match int_digits lexeme with
  | Some digits =>
      if ((640 <? digits) && (0 <? max_digits) && (max_digits <? digits))%nat
      then Some (ValueError
                   ("Exceeds the limit (" +:+ pretty max_digits
                    +:+ " digits) for integer string conversion: value has "
                    +:+ pretty digits
                    +:+ " digits; use sys.set_int_max_str_digits() to increase the limit"))
      else None
  | None => None
  end.

(** [scan_once] of the scanner with [JSONObject] and [JSONArray] of
    json/decoder.py.  [depth] is the number of containers that can still be
    entered; each loop over the members of a container is bounded by the
    length of the text it starts on, of which every turn consumes at least
    one character. *)
Fixpoint scan_once (max_digits depth : nat) (s : string) : Scan :=
  match s with
  | EmptyString => Malformed
  | String c rest =>
      if Ascii.eqb c quote then
        match scanstring rest with
        | Some (lexeme, s) => Scanned (JString lexeme) s
        | None => Malformed
        end
      else if Ascii.eqb c "{" then
        match depth with
        | O => GaveUp (RecursionError "object")
        | S depth =>
            let fix members (n : nat) (s : string)
                (acc : list (string * Json)) : Scan :=
              match n with
              | O => Malformed
              | S n =>
                  match scanstring s with
                  | None => Malformed
                  | Some (key, s) =>
                      match skip_ws s with
                      | String ":" s =>
                          match scan_once max_digits depth (skip_ws s) with
                          | Scanned v s =>
                              let acc := (acc ++ [(key, v)])%list in
                              match skip_ws s with
                              | String "}" s => Scanned (JObject acc) s
                              | String "," s =>
                                  match skip_ws s with
                                  | String c s =>
                                      if Ascii.eqb c quote
                                      then members n s acc else Malformed
                                  | EmptyString => Malformed
                                  end
                              | _ => Malformed
                              end
                          | failure => failure
                          end
                      | _ => Malformed
                      end
                  end
              end in
            match skip_ws rest with
            | String "}" s => Scanned (JObject []) s
            | String c s =>
                if Ascii.eqb c quote then members (String.length rest) s []
                else Malformed
            | EmptyString => Malformed
            end
        end
      else if Ascii.eqb c "[" then
        match depth with
        | O => GaveUp (RecursionError "array")
        | S depth =>
            let fix elements (n : nat) (s : string) (acc : list Json)
                : Scan :=
              match n with
              | O => Malformed
              | S n =>
                  match scan_once max_digits depth s with
                  | Scanned v s =>
                      let acc := (acc ++ [v])%list in
                      match skip_ws s with
                      | String "]" s => Scanned (JArray acc) s
                      | String "," s => elements n (skip_ws s) acc
                      | _ => Malformed
                      end
                  | failure => failure
                  end
              end in
            match skip_ws rest with
            | String "]" s => Scanned (JArray []) s
            | s => elements (String.length rest) s []
            end
        end
      else
        let scanned (r : option (Json * string)) (otherwise : Scan) : Scan :=
          match r with
          | Some (v, s) => Scanned v s
          | None => otherwise
          end in
        scanned (literal "null" JNull s) (
        scanned (literal "true" (JBool true) s) (
        scanned (literal "false" (JBool false) s) (
        match match_number s with
        | Some (lexeme, s) =>
            match int_conversion max_digits lexeme with
            | Some e => GaveUp e
            | None => Scanned (JNumber lexeme) s
            end
        | None =>
            scanned (literal "NaN" (JNumber "NaN") s) (
            scanned (literal "Infinity" (JNumber "Infinity") s) (
            scanned (literal "-Infinity" (JNumber "-Infinity") s)
              Malformed))
        end)))
  end.

(** What [json.loads] comes to: the document, a [JSONDecodeError] with its
    message, or an exception that is not a [JSONDecodeError]. *)
Inductive Loads :=
| Loaded (document : Json)
| JSONDecodeError (message : string)
| Uncaught (e : PyExc).

(** [json.loads(s)], called where [depth] containers can still be entered:
    one document between optional whitespace. *)
Definition json_loads (py : Interpreter) (depth : nat) (s : string) : Loads :=
  match scan_once (int_max_str_digits py) depth (skip_ws s) with
  | Scanned v rest =>
      match skip_ws rest with
      | EmptyString => Loaded v
      | _ => JSONDecodeError (decode_error py s)
      end
  | Malformed => JSONDecodeError (decode_error py s)
  | GaveUp e => Uncaught e
  end.

(** *** The processor *)

(** The loop [for match in matches] of pattern 3: the first match that
    decodes; a [JSONDecodeError] moves on to the next match, any other
    exception of the decoder leaves the loop and the function. *)
Fixpoint first_decodable (py : Interpreter) (matches : list string)
    : Outcome (option string) :=
  match matches with
  | [] => Return None
  | m :: rest =>
      match json_loads py (json_depth_extracting py) m with
      | Loaded _ => Return (Some m)
      | JSONDecodeError _ => first_decodable py rest
      | Uncaught e => Raise e
      end
  end.

(** [_extract_json_from_response]. *)
Definition _extract_json_from_response (py : Interpreter) (content : string)
    : Outcome (option string * ParseMode.t) :=
  let content := strip content in
  match search_json_block content with
  | Some group => Return (Some (strip group), ParseMode.JSON)
  | None =>
      if startswith "{" content && endswith "}" content then
        Return (Some content, ParseMode.JSON)
      else
        let matches := findall_json_pattern 0 content in
        found ← first_decodable py matches;
        match found with
        | Some m => Return (Some m, ParseMode.JSON)
        | None =>
            if existsb (fun marker => contains marker content)
                 ["#"; "##"; "###"; "```"; "*"; "-"; "|"] then
              Return (Some content, ParseMode.MARKDOWN)
            else Return (Some content, ParseMode.CONVERSATION)
        end
  end.

(** What [ParseResult.data] holds: the decoded document, the instance built
    by the validation model, or a dictionary of strings written by the
    code. *)
Inductive Data :=
| DParsed (document : Json)
| DValidated (instance : Json)
| DDict (items : list (string * string)).

(** [@dataclass ParseResult]. *)
Record ParseResult := {
  success : bool;
  data : option Data;
  error : option string;
  mode : option ParseMode.t;
  raw_content : option string
}.

(** A Pydantic model class: its name and its constructor applied to the
    members of a document, which yields an instance, the text of a
    [ValidationError], or raises another exception. *)
Record BaseModel := {
  __name__ : string;
  construct : list (string * Json) -> Outcome (string + Json)
}.

(** [LLMResponseProcessor]. *)
Record LLMResponseProcessor := {
  max_retries : Z;
  cache_enabled : bool;
  _response_cache : gmap string ParseResult
}.

(** What a run of the retry loop does to the outside: model invocations and
    sleeps, in order. *)
Inductive Event :=
| Generate (messages : list LLMMessage)
| Sleep (seconds : Z).

Definition is_generate (ev : Event) : bool :=
  match ev with Generate _ => true | Sleep _ => false end.

(** [llm_client.generate] over a run: the answer to the messages of an
    invocation, given the number of invocations made before it. *)
Definition LLMClient : Type := nat -> list LLMMessage -> Outcome LLMResponse.

Definition set_cache (self : LLMResponseProcessor)
    (cache : gmap string ParseResult) : LLMResponseProcessor :=
  {| max_retries := max_retries self; cache_enabled := cache_enabled self;
     _response_cache := cache |}.

Section Processor.
Variable py : Interpreter.

(** [_get_cache_key]. *)
Definition _get_cache_key (content : string)
  (validation_model : option BaseModel) : string :=
let model_name :=
  match validation_model with
  | Some m => __name__ m
  | None => "none"
  end in
pretty (hash py content) +:+ "_" +:+ model_name.

(** [parse_json_response]. *)
Definition parse_json_response (self : LLMResponseProcessor)
  (content : string) (validation_model : option BaseModel)
  (strict : bool) : Outcome ParseResult * LLMResponseProcessor :=
let cache_key := _get_cache_key content validation_model in
match (if cache_enabled self then _response_cache self !! cache_key
       else None) with
| Some cached => (Return cached, self)
| None =>
    match _extract_json_from_response py content with
    | Raise e => (Raise e, self)
    | Return (json_content, detected_mode) =>
    if negb (bool_decide (detected_mode = ParseMode.JSON)) then
      (Return {| success := false; data := None;
                 error := Some ("No JSON content detected, found "
                                +:+ ParseMode.value detected_mode);
                 mode := Some detected_mode;
                 raw_content := Some content |}, self)
    else
      match from_option (json_loads py (json_depth py))
              (Uncaught (TypeError "the JSON object must be str, bytes or bytearray, not NoneType"))
              json_content with
      | Uncaught e => (Raise e, self)
      | JSONDecodeError e =>
          (Return {| success := false; data := None;
                     error := Some ("JSON parsing failed: " +:+ e);
                     mode := Some ParseMode.JSON;
                     raw_content := Some content |}, self)
      | Loaded parsed_data =>
          let validated : Outcome ParseResult :=
            match validation_model with
            | Some model =>
                match parsed_data with
                | JObject members =>
                    validation ← construct model members;
                    match validation with
                    | inr validated_data =>
                        Return {| success := true;
                                  data := Some (DValidated validated_data);
                                  error := None;
                                  mode := Some ParseMode.JSON;
                                  raw_content := Some content |}
                    | inl e =>
                        if strict then
                          Return {| success := false; data := None;
                                    error := Some ("Validation failed: " +:+ e);
                                    mode := Some ParseMode.JSON;
                                    raw_content := Some content |}
                        else
                          Return {| success := true;
                                    data := Some (DParsed parsed_data);
                                    error := None;
                                    mode := Some ParseMode.JSON;
                                    raw_content := Some content |}
                    end
                | _ => Raise (TypeError "argument after ** must be a mapping")
                end
            | None =>
                Return {| success := true; data := Some (DParsed parsed_data);
                          error := None; mode := Some ParseMode.JSON;
                          raw_content := Some content |}
            end in
          match validated with
          | Return result =>
              (Return result,
               if cache_enabled self then
                 set_cache self (<[cache_key := result]> (_response_cache self))
               else self)
          | Raise e => (Raise e, self)
          end
      end
    end
end.

Definition default_retry_instruction : string :=
"The previous response could not be parsed as valid JSON. " +:+
"Please provide your response as valid JSON format only, " +:+
"enclosed in ```json``` markdown code blocks.".

Section Retry.
Variable llm_client : LLMClient.
Variable messages : list LLMMessage.
Variable validation_model : option BaseModel.
Variable retry_prompt : option string.

(** The messages of an attempt. *)
Definition attempt_messages (attempt : Z) : list LLMMessage :=
  if attempt =? 0 then messages
  else
let retry_instruction :=
  match retry_prompt with
  | Some p => if String.eqb p "" then default_retry_instruction else p
  | None => default_retry_instruction
  end in
(messages ++ [{| msg_role := "user";
                 msg_content := retry_instruction |}])%list.

(** The result after the loop: all attempts failed. *)
Definition all_failed (self : LLMResponseProcessor)
(last_error : option string) : ParseResult :=
  {| success := false; data := None;
 error := Some ("Failed after " +:+ pretty (max_retries self + 1)
                +:+ " attempts. Last error: "
                +:+ default "None" last_error);
 mode := Some ParseMode.JSON;
 raw_content := None |}.

(** The iterations of [for attempt in range(self.max_retries + 1)] from
[attempt] on, [remaining] of them. *)
Fixpoint retry_loop (remaining : nat) (attempt : Z)
(last_error : option string) (self : LLMResponseProcessor)
(events : list Event)
: ParseResult * LLMResponseProcessor * list Event :=
  match remaining with
  | O => (all_failed self last_error, self, events)
  | S remaining =>
  let except (e : PyExc) (self : LLMResponseProcessor)
      (events : list Event) :=
    let last_error := Some (str_exc e) in
    if attempt =? max_retries self then
      (all_failed self last_error, self, events)
    else
      let wait_time := 2 ^ attempt in
      retry_loop remaining (attempt + 1) last_error self
        (events ++ [Sleep wait_time])%list in
  let request := attempt_messages attempt in
  let invocation := length (List.filter is_generate events) in
  let events := (events ++ [Generate request])%list in
  match llm_client invocation request with
  | Raise e => except e self events
  | Return response =>
      match parse_json_response self (response_content response)
              validation_model true with
      | (Raise e, self) => except e self events
      | (Return parse_result, self) =>
          if success parse_result then (parse_result, self, events)
          else
            let last_error := error parse_result in
            if (attempt =? max_retries self)
               && (bool_decide (mode parse_result = Some ParseMode.CONVERSATION)
                   || bool_decide (mode parse_result = Some ParseMode.MARKDOWN))
            then
              ({| success := true;
                  data := Some (DDict [("content", response_content response);
                                       ("mode", "conversation")]);
                  error := None;
                  mode := Some ParseMode.CONVERSATION;
                  raw_content := Some (response_content response) |},
               self, events)
            else retry_loop remaining (attempt + 1) last_error self events
      end
  end
  end.

(** [parse_with_retry]. *)
Definition parse_with_retry (self : LLMResponseProcessor)
: ParseResult * LLMResponseProcessor * list Event :=
  retry_loop (Z.to_nat (max_retries self + 1)) 0 None self [].
End Retry.

(** [generate_and_parse] with a given client: a fresh processor, caching
  enabled. *)
Definition generate_and_parse (messages : list LLMMessage)
  (validation_model : option BaseModel) (llm_client : LLMClient)
  (max_retries : Z) : ParseResult * LLMResponseProcessor * list Event :=
let processor := {| max_retries := max_retries; cache_enabled := true;
                    _response_cache := ∅ |} in
parse_with_retry llm_client messages validation_model None processor.
End Processor.

(** The events of a run in which every invocation raises: one invocation per
    attempt, and between two attempts a sleep of 2 to the power of the
    attempt just made. *)
Fixpoint backoff_events (messages : list LLMMessage) (remaining : nat)
    (attempt : Z) : list Event :=
  match remaining with
  | O => []
  | S O => [Generate (attempt_messages messages None attempt)]
  | S r =>
      Generate (attempt_messages messages None attempt) ::
      Sleep (2 ^ attempt) :: backoff_events messages r (attempt + 1)
  end.

(** The events of a run in which no invocation raises and no answer can be
    parsed. *)
Fixpoint reprompt_events (messages : list LLMMessage) (remaining : nat)
    (attempt : Z) : list Event :=
  match remaining with
  | O => []
  | S r =>
      Generate (attempt_messages messages None attempt) ::
      reprompt_events messages r (attempt + 1)
  end.

(** The result of the conversation-mode fallback for a raw answer. *)
Definition conversation_fallback (raw : string) : ParseResult :=
  {| success := true;
     data := Some (DDict [("content", raw); ("mode", "conversation")]);
     error := None;
     mode := Some ParseMode.CONVERSATION;
     raw_content := Some raw |}.

(** An interpreter to run examples on: the limits of CPython 3.11 at its
    defaults (a recursion limit of 1000, of which some frames are taken when
    the decoder is called, and 4300 digits), the length of a string for its
    hash, and one wording for every decoding error. *)
Definition cpython : Interpreter :=
  {| hash := fun s => Z.of_nat (String.length s);
     json_depth := 990;
     json_depth_extracting := 989;
     int_max_str_digits := 4300;
     decode_error := fun _ => "Expecting value: line 1 column 1 (char 0)" |}.

(** A string between double quotes. *)
Definition quoted (s : string) : string :=
  String quote s +:+ String quote EmptyString.

(** No character of [s] is the opening brace, or any brace. *)
Fixpoint no_open_brace (s : string) : bool :=
  match s with
  | EmptyString => true
  | String c rest => negb (Ascii.eqb c "{") && no_open_brace rest
  end.

Fixpoint no_brace (s : string) : bool :=
  match s with
  | EmptyString => true
  | String c rest =>
      negb (Ascii.eqb c "{") && negb (Ascii.eqb c "}") && no_brace rest
  end.

(** Text with braces nested at most one level deep between its outer
    braces: runs without braces, separated by brace pairs around runs
    without braces. *)
Inductive flat_body : string -> Prop :=
| flat_run s : no_brace s = true -> flat_body s
| flat_group s inner rest :
    no_brace s = true -> no_brace inner = true -> flat_body rest ->
    flat_body (s +:+ "{" +:+ inner +:+ "}" +:+ rest).

(** Text that the search of pattern 3 passes over when [rest] follows it:
    characters other than an opening brace; an opening brace that, with what
    follows it, starts no brace group nested at most one level deep; and
    such a group on which [json.loads] raises [JSONDecodeError]. *)
Inductive passed_over (py : Interpreter) (rest : string) : string -> Prop :=
| passed_end : passed_over py rest ""
| passed_char c before :
    c <> "{"%char -> passed_over py rest before ->
    passed_over py rest (String c before)
| passed_stray before :
    (forall body after,
       flat_body body -> before +:+ rest <> body +:+ "}" +:+ after) ->
    passed_over py rest before ->
    passed_over py rest (String "{" before)
| passed_group body message before :
    flat_body body ->
    json_loads py (json_depth_extracting py) ("{" +:+ body +:+ "}")
      = JSONDecodeError message ->
    passed_over py rest before ->
    passed_over py rest (("{" +:+ body +:+ "}") +:+ before).

(** Braces balanced to any depth: the text never closes more than it opened
    and ends with [depth] braces open. *)
Fixpoint balanced (depth : nat) (s : string) : bool :=
  match s with
  | EmptyString => (depth =? 0)%nat
  | String c rest =>
      if Ascii.eqb c "{" then balanced (S depth) rest
      else if Ascii.eqb c "}" then
        match depth with
        | O => false
        | S d => balanced d rest
        end
      else balanced depth rest
  end.


(** ** workflow.py: the entry and approval routers, and the edges of the graph *)

(** [_route_from_start]. *)
Definition _route_from_start (state : gmap string Value) : Outcome string :=
  failed ← is_workflow_failed state;
  if (failed : bool) then getitem state "workflow_id";; Return "end" else
  complete ← is_workflow_complete state;
  if (complete : bool) then getitem state "workflow_id";; Return "end" else
  final ← should_generate_final_documents state;
  if (final : bool) then
    getitem state "workflow_id";; Return "generate_final_documents" else
  wait ← should_wait_for_approval state;
  if (wait : bool) then getitem state "workflow_id";; Return "human_approval" else
  requirements ← should_generate_requirements state;
  if (requirements : bool) then
    getitem state "workflow_id";; Return "generate_requirements" else
  design ← should_generate_design state;
  if (design : bool) then
    getitem state "workflow_id";; Return "generate_design" else
  tasks ← should_generate_tasks state;
  if (tasks : bool) then getitem state "workflow_id";; Return "generate_tasks" else
  status ← getitem state "status";
  if eq_status status WorkflowStatus.GENERATING_FINAL_DOCUMENTS then
    getitem state "workflow_id";; Return "generate_final_documents"
  else getitem state "workflow_id";; Return "end".

(** [_route_from_approval]. *)
Definition _route_from_approval (state : gmap string Value) : Outcome string :=
  failed ← is_workflow_failed state;
  cancelled ← (if (failed : bool) then Return true
               else status ← getitem state "status";
                    Return (eq_status status WorkflowStatus.CANCELLED));
  if (cancelled : bool) then Return "end" else
  final ← should_generate_final_documents state;
  if (final : bool) then Return "generate_final_documents" else
  wait ← should_wait_for_approval state;
  if (wait : bool) then getitem state "workflow_id";; Return "end" else
  status ← getitem state "status";
  if eq_status status WorkflowStatus.GENERATING_REQUIREMENTS then
    Return "generate_requirements" else
  status ← getitem state "status";
  if eq_status status WorkflowStatus.GENERATING_DESIGN then
    Return "generate_design" else
  status ← getitem state "status";
  if eq_status status WorkflowStatus.GENERATING_TASKS then
    Return "generate_tasks"
  else Return "end".

(** The keys of the dictionaries given to [add_conditional_edges] in
    [create_spec_workflow]: the labels each router may answer with. *)
Definition edges_from_start : list string :=
  ["generate_requirements"; "generate_design"; "generate_tasks";
   "human_approval"; "generate_final_documents"; "end"].
Definition edges_from_requirements : list string :=
  ["human_approval"; "generate_requirements"; "end"].
Definition edges_from_design : list string :=
  ["human_approval"; "generate_design"; "end"].
Definition edges_from_tasks : list string :=
  ["human_approval"; "generate_tasks"; "end"].
Definition edges_from_approval : list string :=
  ["generate_requirements"; "generate_design"; "generate_tasks";
   "generate_final_documents"; "end"].
Definition edges_from_final_documents : list string :=
  ["end"; "generate_final_documents"].

(** The routers with the edges declared for them. *)
Definition routers : list ((gmap string Value -> Outcome string) * list string) :=
  [(_route_from_start, edges_from_start);
   (_route_from_requirements, edges_from_requirements);
   (_route_from_design, edges_from_design);
   (_route_from_tasks, edges_from_tasks);
   (_route_from_approval, edges_from_approval);
   (_route_from_final_documents, edges_from_final_documents)].

(** ** api/workflow_routes.py: the approval route *)

(** What a route answers: a body, or an [HTTPException]. *)
Inductive HTTPResult (A : Type) :=
| HTTPOk (body : A)
| HTTPException (status_code : Z) (detail : string).
Arguments HTTPOk {A} body.
Arguments HTTPException {A} status_code detail.

(** The dictionary returned by [handle_approval], with whether the
    continuation of the workflow was handed to the background tasks. *)
Record ApprovalResponse := {
  response_workflow_id : string;
  response_action : string;
  response_status : Value;
  response_current_phase : Value;
  response_message : string;
  response_updated_at : Value;
  continue_scheduled : bool
}.

(** [action_mapping.get(request.action)]. *)
Definition action_mapping (action : string) : option WorkflowAction.t :=
  if String.eqb action "approve" then Some WorkflowAction.APPROVE
  else if String.eqb action "reject" then Some WorkflowAction.REJECT
  else if String.eqb action "revise" then Some WorkflowAction.REQUEST_REVISION
  else None.

(** [handle_approval]: the body of the route for a request
    [(workflow_id, action, feedback)]. *)
Definition handle_approval (workflow_id action : string)
    (feedback : option string) (w : WorkflowStateManager)
    : HTTPResult ApprovalResponse * WorkflowStateManager :=
  let failed (e : PyExc) :=
    HTTPException 500 ("Failed to process approval: " +:+ str_exc e) in
  match _active_workflows w !! workflow_id with
  | None => (HTTPException 404 ("Workflow " +:+ workflow_id +:+ " not found"), w)
  | Some workflow_state =>
  if decide (workflow_state = ∅) then
    (HTTPException 404 ("Workflow " +:+ workflow_id +:+ " not found"), w)
  else if negb (truthy (default VNone (workflow_state !! "pending_approval")))
  then (HTTPException 400 "No pending approval for this workflow", w)
  else
    match action_mapping action with
    | None => (HTTPException 400 ("Invalid action: " +:+ action), w)
    | Some workflow_action =>
        match handle_user_approval workflow_id workflow_action feedback w with
        | (Raise e, w') => (failed e, w')
        | (Return updated_state, w') =>
            let scheduled :=
              String.eqb action "approve" || String.eqb action "revise" in
            match getitem updated_state "status",
                  getitem updated_state "current_phase",
                  getitem updated_state "updated_at" with
            | Return status, Return current_phase, Return updated_at =>
                (HTTPOk {| response_workflow_id := workflow_id;
                           response_action := action;
                           response_status := status;
                           response_current_phase := current_phase;
                           response_message :=
                             "Workflow " +:+ action +:+ " processed successfully";
                           response_updated_at := updated_at;
                           continue_scheduled := scheduled |}, w')
            | Raise e, _, _ | _, Raise e, _ | _, _, Raise e => (failed e, w')
            end
        end
    end
  end.

(** ** llm_utils.py: the helpers beside the processor *)

(** [clear_cache]. *)
Definition clear_cache (self : LLMResponseProcessor) : LLMResponseProcessor :=
  set_cache self ∅.

(** [parse_llm_json]: a fresh processor with the default ceiling. *)
Definition parse_llm_json (py : Interpreter) (content : string)
    (validation_model : option BaseModel) (strict : bool)
    : Outcome ParseResult :=
  let processor := {| max_retries := 3; cache_enabled := true;
                      _response_cache := ∅ |} in
  (parse_json_response py processor content validation_model strict).1.

(** [create_conversation_fallback]: the keys [type], [content], [context],
    [requires_human_processing] and [suggested_action]. *)
Record ConversationFallback := {
  fallback_type : string;
  fallback_content : string;
  fallback_context : option string;
  requires_human_processing : bool;
  suggested_action : string
}.

Definition create_conversation_fallback (content : string)
    (context : option string) : ConversationFallback :=
  {| fallback_type := "conversation";
     fallback_content := content;
     fallback_context := context;
     requires_human_processing := true;
     suggested_action := "manual_review" |}.

(** [content.split('\n')]. *)
Fixpoint split_lines (s : string) : list string :=
  match s with
  | EmptyString => [EmptyString]
  | String c rest =>
      if Ascii.eqb c "010" then EmptyString :: split_lines rest
      else match split_lines rest with
           | line :: lines => String c line :: lines
           | [] => [String c EmptyString]
           end
  end.

(** [line.lstrip('#')]. *)
Fixpoint lstrip_hash (s : string) : string :=
  match s with
  | String c rest => if Ascii.eqb c "#" then lstrip_hash rest else s
  | EmptyString => EmptyString
  end.

(** The variables of the loop of [extract_markdown_sections]. *)
Record SectionScan := {
  sections : gmap string string;
  current_section : option string;
  current_content : list string
}.

(** [if current_section: sections[current_section] = ...]: [None] and the
    empty title are both false. *)
Definition save_section (scan : SectionScan) : gmap string string :=
  match current_section scan with
  | Some title =>
      if String.eqb title "" then sections scan
      else <[title := strip (join nl (current_content scan))]> (sections scan)
  | None => sections scan
  end.

(** One turn of the loop, on [line]. *)
Definition scan_line (scan : SectionScan) (line : string) : SectionScan :=
  if startswith "#" line then
    {| sections := save_section scan;
       current_section := Some (strip (lstrip_hash line));
       current_content := [] |}
  else
    {| sections := sections scan;
       current_section := current_section scan;
       current_content := (current_content scan ++ [line])%list |}.

(** [extract_markdown_sections]. *)
Definition extract_markdown_sections (content : string) : gmap string string :=
  let lines := split_lines content in
  save_section
    (fold_left scan_line lines
       {| sections := ∅; current_section := None; current_content := [] |}).

(** ** Histories of one record *)

(** The workflow a call of the manager or of the API routes is made on. *)
Definition op_target (op : Op) : option string :=
  match op with
  | OpCreate i _ _ _ _ _ | OpUpdate i _ | OpTransitionToPhase i _ _
  | OpSetPendingApproval i _ _ | OpHandleUserApproval i _ _
  | OpAddConversationMessage i _ _ _ | OpCleanup i | OpReset i => Some i
  | _ => None
  end.

(** Every call but [create_workflow_state] and a raw
    [update_workflow_state]: the transitions, the message log, cleanup, reset
    and the nodes. *)
Definition lifecycle_op (op : Op) : Prop :=
  match op with
  | OpCreate _ _ _ _ _ _ | OpUpdate _ _ => False
  | _ => True
  end.

(** The same without reset. *)
Definition progress_op (op : Op) : Prop :=
  match op with
  | OpCreate _ _ _ _ _ _ | OpUpdate _ _ | OpReset _ => False
  | _ => True
  end.

(** The keys that identify a workflow and configure its model. *)
Definition identity_keys : list string :=
  ["workflow_id"; "feature_name"; "initial_description"; "llm_provider";
   "model_name"; "research_enabled"; "research_results"; "created_at"].

Definition approval_flags : list string :=
  ["requirements_approved"; "design_approved"; "tasks_approved"].

(** The keys written by the transitions and the nodes, the approval flags
    and the conversation apart. *)
Definition transition_keys : list string :=
  ["current_phase"; "status"; "pending_approval"; "user_feedback";
   "last_user_action"; "retry_count"; "last_error"; "requirements_content";
   "design_content"; "tasks_content"; "generated_files";
   "written_file_paths"; "updated_at"].

(** Every record left by [m] stems from a record that was there, to which it
    is related by [R]. *)
Definition evolves {A} (R : gmap string Value -> gmap string Value -> Prop)
    (m : M A) : Prop :=
  forall w workflow_id state',
    _active_workflows (m w).2 !! workflow_id = Some state' ->
    exists state,
      _active_workflows w !! workflow_id = Some state /\ R state state'.

(** An update relates every record to what it makes of it. *)
Definition update_respects (R : gmap string Value -> gmap string Value -> Prop)
    (updates : list (string * Value)) : Prop :=
  forall state now, R state (updated state updates now).

(** The value of [key] is kept. *)
Definition same_at (key : string) (state state' : gmap string Value) : Prop :=
  state' !! key = state !! key.

(** An approval flag that is set stays set. *)
Definition stays_approved (key : string) (state state' : gmap string Value)
    : Prop :=
  state !! key = Some (VBool true) -> state' !! key = Some (VBool true).

(** The conversation only grows at its end. *)
Definition history_extended (state state' : gmap string Value) : Prop :=
  forall l, state !! "conversation_history" = Some (VMessages l) ->
    exists l', state' !! "conversation_history" = Some (VMessages (l ++ l')).

(** Whether a key has the form [f"{phase}_approved"]. *)
Fixpoint ends_with_approved (key : string) : bool :=
  String.eqb key "_approved" ||
  match key with
  | String _ rest => ends_with_approved rest
  | EmptyString => false
  end.

(** ** Further notions about the store and the nodes *)

(** The keys [handle_user_approval] may write for a pending phase. *)
Definition gate_keys (pending : Value) : list string :=
  ["last_user_action"; "user_feedback"; "pending_approval";
   fmt pending +:+ "_approved"; "status"; "current_phase"; "updated_at"].

(** Whether a key ends with [_content], as the content field written by
    [set_pending_approval] does. *)
Fixpoint ends_with_content (key : string) : bool :=
  String.eqb key "_content" ||
  match key with String _ rest => ends_with_content rest | EmptyString => false end.

(** A capability whose client answers every invocation with [text]. *)
Definition always_answers (get_llm_client : LLMClientFactory) (text : string)
    : Prop :=
  forall provider model_name,
    exists client,
      get_llm_client provider model_name = Return client /\
      forall messages, exists response,
        client messages = Return response /\ response_content response = text.

(** The message a generation node appends to the conversation. *)
Definition assistant_message (phase text : string) (model_name : Value)
    (now : string) : ChatEntry :=
  {| role := "assistant"; content := text; timestamp := now;
     metadata := [("phase", phase); ("model", fmt model_name)] |}.

(** The outcome of a generation node whose model answers [text]: the status
    update, the message added to the conversation [l] and the arming of the
    approval gate, one update each. *)
Definition succeeded_generation (w : WorkflowStateManager)
    (workflow_id : string) (state : gmap string Value)
    (generating awaiting : WorkflowStatus.t) (phase text : string)
    (model_name : Value) (l : list ChatEntry)
    : Outcome (gmap string Value) * WorkflowStateManager :=
  let state1 := updated state [("status", VStatus generating)]
                  (isoformat (clock w)) in
  let message := assistant_message phase text model_name
                   (isoformat (S (clock w))) in
  let state2 := updated state1
                  [("conversation_history", VMessages (l ++ [message]))]
                  (isoformat (S (S (clock w)))) in
  let state3 := updated state2
                  [("status", VStatus awaiting);
                   ("pending_approval", VStr phase);
                   (phase +:+ "_content", VStr text)]
                  (isoformat (S (S (S (clock w))))) in
  (Return state3,
   {| _active_workflows :=
        <[workflow_id := state3]>
          (<[workflow_id := state2]>
             (<[workflow_id := state1]> (_active_workflows w)));
      clock := S (S (S (S (clock w)))) |}).

(** The generation nodes as [create_spec_workflow] wires them: the phase,
    the node and the router of its conditional edges. *)
Definition generation_nodes
    : list (string *
            (LLMClientFactory -> gmap string Value -> M (gmap string Value)) *
            (gmap string Value -> Outcome string)) :=
  [("requirements", generate_requirements_node, _route_from_requirements);
   ("design", generate_design_node, _route_from_design);
   ("tasks", generate_tasks_node, _route_from_tasks)].

(** The manager after the graph has run [node] [attempts] times in a row on
    the record of [workflow_id], each run on the state the previous one
    returned: what a router does when it sends a record back to its node. *)
Fixpoint rerun_node (node : gmap string Value -> M (gmap string Value))
    (attempts : nat) (workflow_id : string) (w : WorkflowStateManager)
    : WorkflowStateManager :=
  match attempts with
  | O => w
  | S k =>
      let w' := rerun_node node k workflow_id w in
      (node (current_state w' workflow_id) w').2
  end.

(** The status [handle_user_approval] gives a record sent back for revision
    while [phase] is pending. *)
Definition revised_status (phase : string) : option WorkflowStatus.t :=
  if String.eqb phase "requirements" then
    Some WorkflowStatus.GENERATING_REQUIREMENTS
  else if String.eqb phase "design" then Some WorkflowStatus.GENERATING_DESIGN
  else if String.eqb phase "tasks" then Some WorkflowStatus.GENERATING_TASKS
  else None.

(** ** Further notions about the retry loop *)

(** The sleeps of a run, in order, and the number of its invocations. *)
Definition slept (events : list Event) : list Z :=
  omap (fun ev => match ev with Sleep s => Some s | Generate _ => None end)
       events.

Definition invocations (events : list Event) : nat :=
  length (List.filter is_generate events).

(** The waits of the exponential backoff below a ceiling: 1, 2, 4, ... *)
Definition backoff_waits (ceiling : Z) : list Z :=
  (fun attempt => 2 ^ attempt) <$> seqZ 0 ceiling.

(** What a run of the retry loop from [attempt], with [remaining] turns
    left and [events] behind it, has added: at most one invocation per turn,
    sleeps taken in order from the waits of the attempts from [attempt] up
    to the ceiling, and the ceiling itself untouched. *)
Definition paced (ceiling attempt : Z) (remaining : nat) (events : list Event)
    (run : ParseResult * LLMResponseProcessor * list Event) : Prop :=
  exists new,
    run.2 = (events ++ new)%list /\
    (invocations new <= remaining)%nat /\
    sublist (slept new) ((fun k => 2 ^ k) <$> seqZ attempt (ceiling - attempt)) /\
    max_retries run.1.2 = ceiling.

(** ** Further notions about extraction and decoding *)

(** The markers of pattern 4 that are not made of other markers. *)
Definition markdown_markers : list string := ["#"; "```"; "*"; "-"; "|"].

(** The loop of [JSONObject] in json/decoder.py over the members of an
    object, given the scanner of values: the inner loop of [scan_once]. *)
Definition object_members (scan : string -> Scan)
    : nat -> string -> list (string * Json) -> Scan :=
  fix members (n : nat) (s : string) (acc : list (string * Json)) : Scan :=
    match n with
    | O => Malformed
    | S n =>
        match scanstring s with
        | None => Malformed
        | Some (key, s) =>
            match skip_ws s with
            | String ":" s =>
                match scan (skip_ws s) with
                | Scanned v s =>
                    let acc := (acc ++ [(key, v)])%list in
                    match skip_ws s with
                    | String "}" s => Scanned (JObject acc) s
                    | String "," s =>
                        match skip_ws s with
                        | String c s =>
                            if Ascii.eqb c quote
                            then members n s acc else Malformed
                        | EmptyString => Malformed
                        end
                    | _ => Malformed
                    end
                | failure => failure
                end
            | _ => Malformed
            end
        end
    end.

(** The loop of [JSONArray] over the elements of an array, given the
    scanner of values: the other inner loop of [scan_once]. *)
Definition array_elements (scan : string -> Scan)
    : nat -> string -> list Json -> Scan :=
  fix elements (n : nat) (s : string) (acc : list Json) : Scan :=
    match n with
    | O => Malformed
    | S n =>
        match scan s with
        | Scanned v s =>
            let acc := (acc ++ [v])%list in
            match skip_ws s with
            | String "]" s => Scanned (JArray acc) s
            | String "," s => elements n (skip_ws s) acc
            | _ => Malformed
            end
        | failure => failure
        end
    end.

(** No header among [lines] has the title [title]. *)
Definition untitled (title : string) (lines : list string) : Prop :=
  Forall (fun line =>
            startswith "#" line = true -> strip (lstrip_hash line) <> title)
         lines.

(** [body] is what the lines after a header make of its section, when
    [content] holds the lines already read under it: the lines up to the
    next header or the end of the text, joined and stripped; and no header
    further down has the same title [title]. *)
Definition section_body (title body : string) (content lines : list string)
    : Prop :=
  exists block rest,
    lines = (block ++ rest)%list /\
    Forall (fun line => startswith "#" line = false) block /\
    (forall next, head rest = Some next -> startswith "#" next = true) /\
    untitled title rest /\
    body = strip (join nl (content ++ block)).

(** [body] is the section of the last header of [lines] with the title
    [title]. *)
Definition section_of (lines : list string) (title body : string) : Prop :=
  exists pre header after,
    lines = (pre ++ header :: after)%list /\
    startswith "#" header = true /\
    strip (lstrip_hash header) = title /\
    section_body title body [] after.

(** * Theorems *)
(** ** Running the state manager *)

Lemma merge_updates_lookup (updates : list (string * Value)) :
  forall (state : gmap string Value) (key : string),
    merge_updates state updates !! key =
    (fun v => default v (last_binding key updates)) <$> (state !! key).
Proof.
  induction updates as [|[k v] rest IH]; intros state key.
  - simpl. by destruct (state !! key).
  - unfold merge_updates in *. simpl fold_left. rewrite IH. simpl last_binding.
    destruct (String.eqb_spec k key) as [->|Hne].
    + case_decide as Hk.
      * destruct Hk as [x Hx]. rewrite lookup_insert_eq, Hx. simpl.
        by destruct (last_binding key rest).
      * apply eq_None_not_Some in Hk. by rewrite Hk.
    + case_decide as Hk.
      * rewrite lookup_insert_ne by done. destruct (state !! key); simpl; [|done].
        by destruct (last_binding key rest).
      * destruct (state !! key); simpl; [|done].
        by destruct (last_binding key rest).
Qed.

Lemma updated_lookup state updates now key :
  key <> "updated_at" ->
  updated state updates now !! key =
  (fun v => default v (last_binding key updates)) <$> (state !! key).
Proof.
  intros Hne. unfold updated.
  rewrite lookup_insert_ne by congruence. apply merge_updates_lookup.
Qed.

Lemma updated_nonempty state updates now : updated state updates now <> ∅.
Proof. unfold updated. apply insert_non_empty. Qed.

Lemma update_workflow_state_run workflow_id updates w :
  update_workflow_state workflow_id updates w =
  match _active_workflows w !! workflow_id with
  | None => (Raise (ValueError ("Workflow " ++ workflow_id ++ " not found")), w)
  | Some state =>
      let state' := updated state updates (isoformat (clock w)) in
      (Return state',
       {| _active_workflows := <[workflow_id := state']> (_active_workflows w);
          clock := S (clock w) |})
  end.
Proof.
  unfold update_workflow_state. unfold mbind, M_bind, bind, get_store.
  destruct (_active_workflows w !! workflow_id); reflexivity.
Qed.

Lemma bind_return {A B} (m : M A) (k : A -> M B) w a w' :
  m w = (Return a, w') -> (m ≫= k) w = k a w'.
Proof. intros H. unfold mbind, M_bind, bind. by rewrite H. Qed.

Lemma bind_raise {A B} (m : M A) (k : A -> M B) w e w' :
  m w = (Raise e, w') -> (m ≫= k) w = (Raise e, w').
Proof. intros H. unfold mbind, M_bind, bind. by rewrite H. Qed.

Lemma read_stored w workflow_id state :
  _active_workflows w !! workflow_id = Some state ->
  read (Stored workflow_id) w = (Return state, w).
Proof.
  intros H. unfold read, get_store, mbind, M_bind, bind, mret, M_ret, ret.
  by rewrite H.
Qed.

Lemma item_stored w workflow_id state key v :
  _active_workflows w !! workflow_id = Some state ->
  state !! key = Some v ->
  item (Stored workflow_id) key w = (Return v, w).
Proof.
  intros Hst Hk. unfold item.
  erewrite bind_return by (by apply read_stored).
  unfold lift, getitem. by rewrite Hk.
Qed.

Lemma update_and_rebind_run w workflow_id state updates :
  _active_workflows w !! workflow_id = Some state ->
  update_and_rebind (VStr workflow_id) updates w =
  (Return (Stored workflow_id),
   {| _active_workflows :=
        <[workflow_id := updated state updates (isoformat (clock w))]>
          (_active_workflows w);
      clock := S (clock w) |}).
Proof.
  intros Hst. unfold update_and_rebind.
  erewrite bind_return by (unfold lift; reflexivity). cbv beta iota.
  erewrite bind_return by (rewrite update_workflow_state_run, Hst; reflexivity).
  reflexivity.
Qed.

(** ** Invariants of the table *)

Section Preservation.
Context (P : gmap string Value -> Prop).

Lemma preserves_ret {A} (a : A) : preserves (table_inv P) (mret a).
Proof. by intros w Hw. Qed.

Lemma preserves_raise {A} e : preserves (table_inv P) (@raise A e).
Proof. by intros w Hw. Qed.

Lemma preserves_lift {A} (o : Outcome A) : preserves (table_inv P) (lift o).
Proof. by intros w Hw. Qed.

Lemma preserves_bind {A B} (m : M A) (k : A -> M B) :
preserves (table_inv P) m ->
(forall a, preserves (table_inv P) (k a)) ->
preserves (table_inv P) (m ≫= k).
Proof.
intros Hm Hk w Hw. unfold mbind, M_bind, bind.
specialize (Hm w Hw). destruct (m w) as [[a|e] w1]; simpl in *; [|done].
by apply Hk.
Qed.

Lemma preserves_get_store : preserves (table_inv P) get_store.
Proof. by intros w Hw. Qed.

Lemma preserves_utcnow : preserves (table_inv P) utcnow_isoformat.
Proof. by intros w Hw. Qed.

Lemma preserves_get_workflow_state i :
preserves (table_inv P) (get_workflow_state i).
Proof. by intros w Hw. Qed.

Lemma preserves_read s : preserves (table_inv P) (read s).
Proof. destruct s; by intros w Hw. Qed.

Lemma preserves_item s k : preserves (table_inv P) (item s k).
Proof.
apply preserves_bind; [apply preserves_read|]. intros; apply preserves_lift.
Qed.

Lemma preserves_put_record i state :
P state -> preserves (table_inv P) (put_record i state).
Proof.
intros HP w Hw j st. simpl.
destruct (decide (i = j)) as [->|Hne].
- rewrite lookup_insert_eq. by intros [= <-].
- rewrite lookup_insert_ne by done. apply Hw.
Qed.

Lemma preserves_cleanup i : preserves (table_inv P) (cleanup_workflow i).
Proof.
intros w Hw. unfold cleanup_workflow.
destruct (_active_workflows w !! i) eqn:E; simpl; [|done].
intros j st Hj. simpl in Hj. apply lookup_delete_Some in Hj as [_ Hj]. by eapply Hw.
Qed.

Lemma preserves_try_except {A} s (first : M StateVar)
  (rest : StateVar -> M A) handler :
preserves (table_inv P) first ->
(forall s', preserves (table_inv P) (rest s')) ->
(forall s' e, preserves (table_inv P) (handler s' e)) ->
preserves (table_inv P) (try_except s first rest handler).
Proof.
intros Hf Hr Hh w Hw. unfold try_except.
specialize (Hf w Hw). destruct (first w) as [[s'|e] w1]; simpl in Hf.
- specialize (Hr s' w1 Hf). destruct (rest s' w1) as [[a|e] w2]; simpl in *.
  + done.
  + by apply Hh.
- by apply Hh.
Qed.

Lemma preserves_update i updates :
update_keeps P updates ->
preserves (table_inv P) (update_workflow_state i updates).
Proof.
intros Hk w Hw. rewrite update_workflow_state_run.
destruct (_active_workflows w !! i) as [st|] eqn:E; simpl; [|done].
intros j st' Hj. simpl in Hj.
destruct (decide (i = j)) as [->|Hne].
- rewrite lookup_insert_eq in Hj. injection Hj as <-. apply Hk. by eapply Hw.
- rewrite lookup_insert_ne in Hj by done. by eapply Hw.
Qed.

Lemma table_inv_update_at i updates w state :
table_inv P w ->
_active_workflows w !! i = Some state ->
(forall now, P (updated state updates now)) ->
table_inv P (update_workflow_state i updates w).2.
Proof.
intros Hw Hst HP. rewrite update_workflow_state_run, Hst. simpl.
intros j st' Hj. simpl in Hj.
destruct (decide (i = j)) as [->|Hne].
- rewrite lookup_insert_eq in Hj. injection Hj as <-. apply HP.
- rewrite lookup_insert_ne in Hj by done. by eapply Hw.
Qed.
End Preservation.

Ltac preserve_step :=
  first
    [ apply preserves_ret | apply preserves_raise | apply preserves_lift
    | apply preserves_get_store | apply preserves_utcnow
    | apply preserves_get_workflow_state | apply preserves_read
    | apply preserves_item | apply preserves_cleanup
    | apply preserves_update; solve [auto]
    | apply preserves_put_record; solve [auto]
    | apply preserves_bind; [|intros ?]
    | apply preserves_try_except; [| intros ? | intros ? ?]
    | match goal with
      | |- preserves _ (match ?x with _ => _ end) => destruct x
      end ].

Ltac preserve := repeat preserve_step.

Section PreservationOps.
Context (P : gmap string Value -> Prop).
Hypothesis keeps : forall updates, update_keeps P updates.
Hypothesis initial : forall i f d p m r now, P (initial_state i f d p m r now).

Lemma preserves_create i f d p m r :
preserves (table_inv P) (create_workflow_state i f d p m r).
Proof. unfold create_workflow_state. preserve. Qed.

Lemma preserves_transition i p s :
preserves (table_inv P) (transition_to_phase i p s).
Proof. unfold transition_to_phase. preserve. Qed.

Lemma preserves_set_pending i p c :
preserves (table_inv P) (set_pending_approval i p c).
Proof. unfold set_pending_approval. preserve. Qed.

Lemma preserves_handle i a f :
preserves (table_inv P) (handle_user_approval i a f).
Proof. unfold handle_user_approval. preserve. Qed.

Lemma preserves_add_message i r c m :
preserves (table_inv P) (add_conversation_message i r c m).
Proof. unfold add_conversation_message. preserve. Qed.

Lemma preserves_reset i : preserves (table_inv P) (reset_workflow i).
Proof. unfold reset_workflow. preserve. Qed.

Lemma preserves_update_and_rebind v u :
preserves (table_inv P) (update_and_rebind v u).
Proof. unfold update_and_rebind. preserve. Qed.

Lemma preserves_except_generation s e :
preserves (table_inv P) (except_generation s e).
Proof.
unfold except_generation. preserve; apply preserves_update_and_rebind.
Qed.

Lemma preserves_invoke_and_arm g phase msgs s :
preserves (table_inv P) (invoke_and_arm g phase msgs s).
Proof.
unfold invoke_and_arm, with_key. preserve;
  first [apply preserves_add_message | apply preserves_set_pending].
Qed.

Lemma preserves_append_if s k l c :
preserves (table_inv P) (append_if s k l c).
Proof. unfold append_if. preserve. Qed.

Lemma preserves_generate_requirements g s :
preserves (table_inv P) (generate_requirements_node g s).
Proof.
unfold generate_requirements_node. preserve;
  first [apply preserves_update_and_rebind | apply preserves_invoke_and_arm
        | apply preserves_except_generation].
Qed.

Lemma preserves_generate_design g s :
preserves (table_inv P) (generate_design_node g s).
Proof.
unfold generate_design_node. preserve;
  first [apply preserves_update_and_rebind | apply preserves_invoke_and_arm
        | apply preserves_except_generation | apply preserves_append_if].
Qed.

Lemma preserves_generate_tasks g s :
preserves (table_inv P) (generate_tasks_node g s).
Proof.
unfold generate_tasks_node. preserve;
  first [apply preserves_update_and_rebind | apply preserves_invoke_and_arm
        | apply preserves_except_generation | apply preserves_append_if].
Qed.

Lemma preserves_generate_final_documents r s :
preserves (table_inv P) (generate_final_documents_node r s).
Proof.
unfold generate_final_documents_node. preserve;
  apply preserves_update_and_rebind.
Qed.

Lemma run_op_preserves op w : table_inv P w -> table_inv P (run_op op w).
Proof.
intros Hw. destruct op; simpl.
- by apply preserves_create.
- by apply preserves_update.
- by apply preserves_transition.
- by apply preserves_set_pending.
- by apply preserves_handle.
- by apply preserves_add_message.
- by apply preserves_cleanup.
- by apply preserves_reset.
- by apply preserves_generate_requirements.
- by apply preserves_generate_design.
- by apply preserves_generate_tasks.
- by apply preserves_generate_final_documents.
Qed.

Lemma reachable_table_inv allowed w : reachable allowed w -> table_inv P w.
Proof.
induction 1 as [|w op Hw IH Hop].
- intros i st. simpl. by rewrite lookup_empty.
- by apply run_op_preserves.
Qed.
End PreservationOps.

Lemma handle_user_approval_run workflow_id action feedback w :
  handle_user_approval workflow_id action feedback w =
  match _active_workflows w !! workflow_id with
  | None => (Raise (ValueError ("Workflow " ++ workflow_id ++ " not found")), w)
  | Some state =>
      if decide (state = ∅) then
        (Raise (ValueError ("Workflow " ++ workflow_id ++ " not found")), w)
      else match state !! "pending_approval" with
      | None => (Raise (KeyError "pending_approval"), w)
      | Some pending_phase =>
          if negb (truthy pending_phase) then
            (Raise (ValueError ("No pending approval for workflow " ++ workflow_id)), w)
          else
            update_workflow_state workflow_id
              (approval_updates action feedback pending_phase) w
      end
  end.
Proof.
  unfold handle_user_approval, get_workflow_state, getitem.
  unfold mbind, M_bind, bind, get_store, lift, mret, M_ret, ret. simpl.
  destruct (_active_workflows w !! workflow_id) as [st|]; [|done].
  destruct (decide (st = ∅)); [done|].
  destruct (st !! "pending_approval") as [pv|]; [|done].
  by destruct (negb (truthy pv)).
Qed.

Lemma reachable_run_ops allowed ops : forall w,
  reachable allowed w -> Forall allowed ops -> reachable allowed (run_ops ops w).
Proof.
  induction ops as [|op ops IH]; intros w Hw Hops; [done|].
  inversion Hops; subst. simpl. apply IH; [|done]. by constructor.
Qed.

Lemma reachable_mono (allowed allowed' : Op -> Prop) w :
  (forall op, allowed op -> allowed' op) ->
  reachable allowed w -> reachable allowed' w.
Proof. intros Himp. induction 1; constructor; auto. Qed.

Lemma current_state_lookup w workflow_id :
  bool_decide (is_Some (_active_workflows w !! workflow_id)) = true ->
  _active_workflows w !! workflow_id = Some (current_state w workflow_id).
Proof.
  intros H. apply bool_decide_eq_true in H as [st Hst].
  unfold current_state. by rewrite Hst.
Qed.

(** *** The consistency rule of [pending_approval] *)

Lemma status_map_Some phase status :
  status_map phase = Some status ->
  (phase = "requirements" /\ status = WorkflowStatus.AWAITING_REQUIREMENTS_APPROVAL) \/
  (phase = "design" /\ status = WorkflowStatus.AWAITING_DESIGN_APPROVAL) \/
  (phase = "tasks" /\ status = WorkflowStatus.AWAITING_TASKS_APPROVAL).
Proof.
  unfold status_map.
  destruct (String.eqb_spec phase "requirements") as [->|_]; [intros [= <-]; auto|].
  destruct (String.eqb_spec phase "design") as [->|_]; [intros [= <-]; auto|].
  destruct (String.eqb_spec phase "tasks") as [->|_]; [intros [= <-]; auto|].
  discriminate.
Qed.

Lemma armed_consistent state :
  armed state -> pending_approval_consistent state.
Proof.
  intros (pv & s & Hp & Hs & Hcase). unfold pending_approval_consistent, non_null.
  unfold should_wait_for_approval, getitem. rewrite Hp, Hs. simpl.
  destruct Hcase as [[-> Hna]|(p & -> & Hmap)].
  - split.
    + split.
      * intros (v & [= <-] & Hv). done.
      * destruct s; simpl in Hna; try discriminate; vm_compute; discriminate.
    + intros v [= <-] Hv. done.
  - split.
    + split; [intros _|intros _; eexists; split; [done|discriminate]].
      apply status_map_Some in Hmap as [[_ ->]|[[_ ->]|[_ ->]]]; reflexivity.
    + intros v [= <-] _. eauto.
Qed.

Lemma armed_initial i f d p m r now : armed (initial_state i f d p m r now).
Proof.
  exists VNone, WorkflowStatus.INITIALIZING. split; [reflexivity|].
  split; [reflexivity|]. by left.
Qed.

Lemma armed_updated state updates now pv s :
  armed state ->
  last_binding "pending_approval" updates = Some pv ->
  last_binding "status" updates = Some (VStatus s) ->
  (pv = VNone /\ is_awaiting s = false) \/
    (exists p, pv = VStr p /\ status_map p = Some s) ->
  armed (updated state updates now).
Proof.
  intros (pv0 & s0 & Hp & Hs & _) Hbp Hbs Hcase.
  exists pv, s. rewrite !updated_lookup by discriminate.
  rewrite Hp, Hs, Hbp, Hbs. done.
Qed.

Lemma armed_transition i p s :
  is_awaiting s = false -> preserves (table_inv armed) (transition_to_phase i p s).
Proof.
  intros Hs. unfold transition_to_phase. apply preserves_update.
  intros st now Hst. eapply armed_updated; [done|reflexivity|reflexivity|].
  left; done.
Qed.

Lemma armed_set_pending i p c :
  preserves (table_inv armed) (set_pending_approval i p c).
Proof.
  unfold set_pending_approval.
  destruct (status_map p) as [s|] eqn:Hmap; [|apply preserves_raise].
  apply preserves_update. intros st now Hst.
  eapply (armed_updated _ _ _ (VStr p) s); [done| | |right; eauto];
    apply status_map_Some in Hmap as [[-> ->]|[[-> ->]|[-> ->]]]; reflexivity.
Qed.

Lemma armed_reset i : preserves (table_inv armed) (reset_workflow i).
Proof.
  unfold reset_workflow.
  apply preserves_bind; [apply preserves_get_workflow_state|].
  intros [st0|]; [|apply preserves_raise].
  destruct (decide (st0 = ∅)); [apply preserves_raise|].
  apply preserves_update. intros st now Hst. eapply armed_updated; [done|reflexivity|reflexivity|].
  left; done.
Qed.

Lemma armed_handle i a f :
  gate_action a = true ->
  preserves (table_inv armed) (handle_user_approval i a f).
Proof.
  intros Ha w Hw. rewrite handle_user_approval_run.
  destruct (_active_workflows w !! i) as [st|] eqn:Hst; [|done].
  destruct (decide (st = ∅)); [done|].
  destruct (st !! "pending_approval") as [pv|] eqn:Hpv; [|done].
  destruct (negb (truthy pv)) eqn:Htruthy; [done|].
  eapply table_inv_update_at; [done|done|]. intros now.
  pose proof (Hw _ _ Hst) as Harmed.
  destruct (Harmed) as (pv' & s & Hp & Hs & Hcase).
  rewrite Hpv in Hp. injection Hp as <-.
  destruct Hcase as [[-> _]|(p & -> & Hmap)]; [discriminate|].
  apply status_map_Some in Hmap as [[-> ->]|[[-> ->]|[-> ->]]];
    destruct a; try discriminate Ha;
    (eapply armed_updated; [done|reflexivity|reflexivity|left; done]).
Qed.

Lemma gated_op_armed op w :
  gated_op op -> table_inv armed w -> table_inv armed (run_op op w).
Proof.
  intros Hop Hw. destruct op; simpl in Hop; try done; simpl.
  - apply preserves_create; [|done]. intros. apply armed_initial.
  - by apply armed_transition.
  - by apply armed_set_pending.
  - by apply armed_handle.
  - by apply armed_reset.
Qed.

Lemma reachable_gated_armed w : reachable gated_op w -> table_inv armed w.
Proof.
  induction 1 as [|w op Hw IH Hop].
  - intros i st. simpl. by rewrite lookup_empty.
  - by apply gated_op_armed.
Qed.

(** The gated calls are among the calls of the state manager. *)
Lemma reachable_gated_state_op w :
  reachable gated_op w -> reachable state_op w.
Proof.
  apply reachable_mono. intros op. by destruct op.
Qed.

(** ** The claims on the workflow engine *)

(** C1, as stated: the rule would hold at every record reachable through
    create, set_pending_approval, handle_user_approval, transition_to_phase
    and reset.  It fails after an approval call with the action [CANCEL],
    which clears [pending_approval] and leaves the status
    [awaiting_requirements_approval]. *)
Lemma C1_counterexample :
  ~ (forall w, reachable state_op w ->
       forall workflow_id state,
         _active_workflows w !! workflow_id = Some state ->
         pending_approval_consistent state).
Proof.
  intros H.
  pose (w := run_ops [OpSetPendingApproval "wf" "requirements" "# Requirements";
                      OpHandleUserApproval "wf" WorkflowAction.CANCEL None]
                     started).
  assert (Hr : reachable state_op w).
  { apply reachable_run_ops; [|repeat constructor].
    apply reachable_step; [constructor|exact I]. }
  assert (Hl : _active_workflows w !! "wf" = Some (current_state w "wf"))
    by (apply current_state_lookup; vm_compute; reflexivity).
  destruct (H w Hr _ _ Hl) as [[_ Hback] _].
  destruct Hback as (v & Hv & Hne); [vm_compute; reflexivity|].
  vm_compute in Hv. congruence.
Qed.

(** C1, amended: at every record reachable through create,
    set_pending_approval, reset, handle_user_approval with one of the three
    actions of the approval route (approve, request_revision, reject) and
    transition_to_phase towards a status that is not an awaiting-approval
    state, [pending_approval] is non-null exactly when the status is an
    awaiting-approval state, and it names the phase of that status. *)
Theorem C1_pending_approval_consistent_gated w :
  reachable gated_op w ->
  forall workflow_id state,
    _active_workflows w !! workflow_id = Some state ->
    pending_approval_consistent state.
Proof.
  intros Hr i st Hst. apply armed_consistent.
  by apply (reachable_gated_armed w Hr i).
Qed.

(** The rule at a record that awaits the approval of its requirements. *)
Lemma C1_witness :
  let w := run_ops [OpSetPendingApproval "wf" "requirements" "# Requirements"]
                   started in
  reachable gated_op w /\
  _active_workflows w !! "wf" = Some (current_state w "wf") /\
  pending_approval_consistent (current_state w "wf").
Proof.
  intros w.
  assert (Hr : reachable gated_op w).
  { apply reachable_run_ops; [|repeat constructor].
    apply reachable_step; [constructor|exact I]. }
  assert (Hl : _active_workflows w !! "wf" = Some (current_state w "wf"))
    by (apply current_state_lookup; vm_compute; reflexivity).
  split; [exact Hr|]. split; [exact Hl|].
  exact (C1_pending_approval_consistent_gated w Hr "wf" _ Hl).
Defined.

(** *** Keys of a record *)

Lemma has_record_keys_initial i f d p m r now :
  has_record_keys (initial_state i f d p m r now).
Proof. unfold has_record_keys, record_keys. repeat constructor; by eexists. Qed.

Lemma has_record_keys_updated updates : update_keeps has_record_keys updates.
Proof.
  intros st now Hst. unfold has_record_keys in *.
  eapply Forall_impl; [exact Hst|]. intros k [v Hv]. simpl.
  destruct (decide (k = "updated_at")) as [->|Hne].
  - unfold updated. rewrite lookup_insert_eq. by eexists.
  - rewrite updated_lookup, Hv by done. by eexists.
Qed.

Lemma reachable_has_record_keys allowed w key :
  reachable allowed w -> key ∈ record_keys ->
  forall workflow_id state,
    _active_workflows w !! workflow_id = Some state -> is_Some (state !! key).
Proof.
  intros Hr Hk i st Hst.
  pose proof (reachable_table_inv has_record_keys has_record_keys_updated
                has_record_keys_initial allowed w Hr i st Hst) as H.
  unfold has_record_keys in H. rewrite Forall_forall in H. by apply H.
Qed.

Ltac record_key := unfold record_keys; set_solver.

(** *** Keys that an update does not find *)

Lemma absent_updated key updates :
  key <> "updated_at" ->
  update_keeps (fun state => state !! key = None) updates.
Proof. intros Hne st now Hst. by rewrite updated_lookup, Hst. Qed.

(** C9: the update operation of the store merges the pre-existing keys only,
    a key that the record lacks stays absent; the record created at workflow
    start has no [written_file_paths]; hence, whatever is called afterwards
    and whatever final-document generation supplies, no record of the table
    ever holds [written_file_paths]. *)
Theorem C9_written_file_paths_never_persisted :
  (forall workflow_id updates w state key,
     _active_workflows w !! workflow_id = Some state ->
     state !! key = None -> key <> "updated_at" ->
     exists state',
       update_workflow_state workflow_id updates w =
         (Return state',
          {| _active_workflows := <[workflow_id := state']> (_active_workflows w);
             clock := S (clock w) |}) /\
       state' !! key = None) /\
  (forall i f d p m r now,
     initial_state i f d p m r now !! "written_file_paths" = None) /\
  (forall w, reachable any_op w ->
     forall workflow_id state,
       _active_workflows w !! workflow_id = Some state ->
       state !! "written_file_paths" = None).
Proof.
  split; [|split].
  - intros i u w st k Hst Hk Hne. rewrite update_workflow_state_run, Hst.
    eexists; split; [reflexivity|]. by rewrite updated_lookup, Hk.
  - reflexivity.
  - intros w Hr.
    refine (reachable_table_inv
              (fun st => st !! "written_file_paths" = None) _ _ any_op w Hr).
    + intros u. by apply absent_updated.
    + reflexivity.
Qed.

(** A rendering capability that succeeds with three documents and the paths
    they were written to. *)
Lemma C9_witness :
  let render : FinalDocuments := fun _ =>
    Return ([("requirements.md", "# Requirements"); ("design.md", "# Design");
             ("tasks.md", "# Tasks")],
            [("requirements.md", "specs/login/requirements.md");
             ("design.md", "specs/login/design.md");
             ("tasks.md", "specs/login/tasks.md")]) in
  let w1 := run_op (OpHandleUserApproval "wf" WorkflowAction.APPROVE None)
                   tasks_pending in
  let w := run_op (OpGenerateFinalDocuments render (current_state w1 "wf")) w1 in
  reachable any_op w /\
  current_state w "wf" !! "status" = Some (VStatus WorkflowStatus.COMPLETED) /\
  current_state w "wf" !! "written_file_paths" = None.
Proof.
  intros render w1 w.
  assert (Hr : reachable any_op w).
  { repeat first [apply reachable_step; [|exact I] | apply reachable_init
                 | apply reachable_run_ops; [|repeat constructor] ]. }
  split; [exact Hr|]. split; [vm_compute; reflexivity|].
  apply (proj2 (proj2 C9_written_file_paths_never_persisted) w Hr "wf").
  apply current_state_lookup. vm_compute; reflexivity.
Defined.

(** *** The approval gate *)

Lemma last_char_app s t : t <> "" -> last_char (s +:+ t) = last_char t.
Proof.
  intros Ht. induction s as [|c s IH]; [done|].
  change (String c s +:+ t) with (String c (s +:+ t)).
  destruct (s +:+ t) as [|c' rest] eqn:E.
  - destruct s as [|a s];
      [change (t = "") in E; congruence
      |change (String a (s +:+ t) = "") in E; discriminate].
  - rewrite <- IH. reflexivity.
Qed.

Lemma approved_field_eqb s key :
  last_char key <> Some "d"%char ->
  String.eqb (s +:+ "_approved") key = false.
Proof.
  intros Hk. apply String.eqb_neq. intros <-.
  apply Hk. by rewrite last_char_app.
Qed.

Lemma approval_updates_pending action feedback pending_phase :
  last_binding "pending_approval"
    (approval_updates action feedback pending_phase) = Some VNone.
Proof.
  unfold approval_updates.
  destruct action; try reflexivity;
    repeat (destruct (eq_str pending_phase _));
    cbn [last_binding app]; rewrite ?approved_field_eqb by discriminate;
    reflexivity.
Qed.

(** C8: when an approve call succeeds, approving again straight away raises
    the invalid-state error [No pending approval], and leaves the manager as
    the first call left it. *)
Theorem C8_second_approve_fails workflow_id feedback1 feedback2 w state1 w1 :
  handle_user_approval workflow_id WorkflowAction.APPROVE feedback1 w
    = (Return state1, w1) ->
  state1 !! "pending_approval" = Some VNone /\
  handle_user_approval workflow_id WorkflowAction.APPROVE feedback2 w1
    = (Raise (ValueError ("No pending approval for workflow " ++ workflow_id)),
       w1).
Proof.
  rewrite handle_user_approval_run.
  destruct (_active_workflows w !! workflow_id) as [st|] eqn:Hst; [|discriminate].
  destruct (decide (st = ∅)); [discriminate|].
  destruct (st !! "pending_approval") as [pv|] eqn:Hpv; [|discriminate].
  destruct (negb (truthy pv)); [discriminate|].
  rewrite update_workflow_state_run, Hst. cbv zeta.
  assert (Hnone : updated st (approval_updates WorkflowAction.APPROVE feedback1 pv)
                    (isoformat (clock w)) !! "pending_approval" = Some VNone).
  { rewrite updated_lookup, Hpv, approval_updates_pending by discriminate. done. }
  pose proof (updated_nonempty st
    (approval_updates WorkflowAction.APPROVE feedback1 pv)
    (isoformat (clock w))) as Hne.
  revert Hnone Hne. generalize (updated st
    (approval_updates WorkflowAction.APPROVE feedback1 pv)
    (isoformat (clock w))) as st'.
  intros st' Hnone Hne [= <- <-].
  split; [exact Hnone|].
  rewrite handle_user_approval_run. cbn [_active_workflows].
  rewrite lookup_insert_eq.
  destruct (decide (st' = ∅)) as [He|_]; [done|].
  by rewrite Hnone.
Qed.

(** Two approvals in a row of the requirements of a started workflow. *)
Lemma C8_witness :
  let w := run_ops [OpSetPendingApproval "wf" "requirements" "# Requirements"]
                   started in
  let r := handle_user_approval "wf" WorkflowAction.APPROVE None w in
  (exists state1, r = (Return state1, r.2)) /\
  handle_user_approval "wf" WorkflowAction.APPROVE None r.2
    = (Raise (ValueError "No pending approval for workflow wf"), r.2).
Proof.
  intros w r.
  assert (Hrun : exists st, r = (Return st, r.2)).
  { assert (Hb : match r.1 with Return _ => true | Raise _ => false end = true)
      by (vm_compute; reflexivity).
    destruct r as [[st|e] w1]; [by exists st|discriminate]. }
  split; [exact Hrun|].
  destruct Hrun as [st Hst].
  exact (proj2 (C8_second_approve_fails "wf" None None w st r.2 Hst)).
Defined.

(** C10: in a manager reached by any calls, on a workflow with a non-null
    pending approval, the approval gate called with an action other than
    approve, request_revision and reject returns normally: it clears
    [pending_approval], records the action and the feedback, and leaves
    [status] as it was, so a record awaiting approval keeps awaiting it with
    nothing pending. *)
Theorem C10_other_actions_consume_pending w workflow_id state pending
    action feedback :
  reachable any_op w ->
  _active_workflows w !! workflow_id = Some state ->
  state !! "pending_approval" = Some pending ->
  truthy pending = true ->
  gate_action action = false ->
  exists state',
    handle_user_approval workflow_id action feedback w =
      (Return state',
       {| _active_workflows := <[workflow_id := state']> (_active_workflows w);
          clock := S (clock w) |}) /\
    state' !! "pending_approval" = Some VNone /\
    state' !! "last_user_action" = Some (VAction action) /\
    state' !! "user_feedback" = Some (from_option VStr VNone feedback) /\
    state' !! "status" = state !! "status" /\
    should_wait_for_approval state' = should_wait_for_approval state.
Proof.
  intros Hr Hst Hp Ht Ha.
  destruct (reachable_has_record_keys any_op w "last_user_action" Hr
              ltac:(record_key) _ _ Hst) as [a0 Ha0].
  destruct (reachable_has_record_keys any_op w "user_feedback" Hr
              ltac:(record_key) _ _ Hst) as [f0 Hf0].
  rewrite handle_user_approval_run, Hst, Hp, Ht.
  destruct (decide (state = ∅)) as [->|_]; [by rewrite lookup_empty in Hp|].
  cbn [negb]. rewrite update_workflow_state_run, Hst. cbv zeta.
  eexists; split; [reflexivity|].
  assert (Hs : updated state (approval_updates action feedback pending)
                 (isoformat (clock w)) !! "status" = state !! "status").
  { rewrite updated_lookup by discriminate.
    destruct (state !! "status"); [|done].
    by destruct action; try discriminate Ha. }
  repeat split.
  - rewrite updated_lookup, Hp by discriminate.
    by destruct action; try discriminate Ha.
  - rewrite updated_lookup, Ha0 by discriminate.
    by destruct action; try discriminate Ha.
  - rewrite updated_lookup, Hf0 by discriminate.
    by destruct action; try discriminate Ha.
  - exact Hs.
  - unfold should_wait_for_approval, getitem. by rewrite Hs.
Qed.

(** A cancel action on a record that awaits the approval of its
    requirements. *)
Lemma C10_witness :
  let w := run_ops [OpSetPendingApproval "wf" "requirements" "# Requirements"]
                   started in
  current_state w "wf" !! "status"
    = Some (VStatus WorkflowStatus.AWAITING_REQUIREMENTS_APPROVAL) /\
  exists state',
    (handle_user_approval "wf" WorkflowAction.CANCEL (Some "stop") w).1
      = Return state' /\
    state' !! "pending_approval" = Some VNone /\
    state' !! "status"
      = Some (VStatus WorkflowStatus.AWAITING_REQUIREMENTS_APPROVAL).
Proof.
  intros w.
  assert (Hstatus : current_state w "wf" !! "status"
            = Some (VStatus WorkflowStatus.AWAITING_REQUIREMENTS_APPROVAL))
    by (vm_compute; reflexivity).
  split; [exact Hstatus|].
  assert (Hr : reachable any_op w).
  { apply reachable_run_ops; [|repeat constructor].
    apply reachable_step; [constructor|exact I]. }
  destruct (C10_other_actions_consume_pending w "wf" (current_state w "wf")
              (VStr "requirements") WorkflowAction.CANCEL (Some "stop") Hr)
    as (st' & Hrun & Hp & _ & _ & Hs & _).
  - apply current_state_lookup. vm_compute; reflexivity.
  - vm_compute; reflexivity.
  - reflexivity.
  - reflexivity.
  - exists st'. rewrite Hrun. split; [reflexivity|]. split; [exact Hp|].
    by rewrite Hs.
Defined.

(** *** Approval of the tasks and final-document generation *)

Lemma generate_final_documents_node_run render_and_write snapshot w
    workflow_id state :
  snapshot !! "workflow_id" = Some (VStr workflow_id) ->
  _active_workflows w !! workflow_id = Some state ->
  is_Some (state !! "workflow_id") ->
  generate_final_documents_node render_and_write snapshot w =
  let updates :=
    match render_and_write snapshot with
    | Return (documents, written_files) =>
        [("generated_files", VFiles documents);
         ("written_file_paths", VFiles written_files);
         ("status", VStatus WorkflowStatus.COMPLETED)]
    | Raise e =>
        [("status", VStatus WorkflowStatus.FAILED);
         ("last_error", VStr (str_exc e))]
    end in
  let state' := updated state updates (isoformat (clock w)) in
  (Return state',
   {| _active_workflows := <[workflow_id := state']> (_active_workflows w);
      clock := S (clock w) |}).
Proof.
  intros Hid Hst [v Hv]. unfold generate_final_documents_node.
  erewrite bind_return by (unfold lift, getitem; rewrite Hid; reflexivity).
  unfold try_except.
  destruct (render_and_write snapshot) as [[docs paths]|e] eqn:Hrender.
  - erewrite bind_return by (unfold lift; reflexivity). cbv beta iota.
    erewrite bind_return by (unfold lift, getitem; rewrite Hid; reflexivity).
    erewrite update_and_rebind_run by eassumption.
    set (state' := updated state _ _).
    set (w' := {| _active_workflows := _; clock := _ |}).
    assert (Hst' : _active_workflows w' !! workflow_id = Some state')
      by apply lookup_insert_eq.
    assert (Hv' : state' !! "workflow_id" = Some v)
      by (unfold state'; rewrite updated_lookup, Hv by discriminate; reflexivity).
    erewrite bind_return by (eapply item_stored; eassumption).
    by erewrite read_stored by eassumption.
  - erewrite bind_raise by (unfold lift; reflexivity).
    erewrite bind_return by (unfold item, read, lift, getitem;
                             erewrite bind_return by reflexivity;
                             rewrite Hid; reflexivity).
    erewrite bind_return by (unfold item, read, lift, getitem;
                             erewrite bind_return by reflexivity;
                             rewrite Hid; reflexivity).
    erewrite bind_return by (by apply update_and_rebind_run).
    erewrite read_stored; [reflexivity|].
    cbn [_active_workflows]. apply lookup_insert_eq.
Qed.

(** C2, as stated: approving the tasks would leave the current phase short
    of [completed] until final-document generation has produced the
    documents.  The approval itself already sets it. *)
Lemma C2_counterexample :
  ~ (forall w workflow_id state feedback state' w',
       reachable state_op w ->
       _active_workflows w !! workflow_id = Some state ->
       state !! "pending_approval" = Some (VStr "tasks") ->
       handle_user_approval workflow_id WorkflowAction.APPROVE feedback w
         = (Return state', w') ->
       state' !! "status"
         = Some (VStatus WorkflowStatus.GENERATING_FINAL_DOCUMENTS) /\
       state' !! "current_phase" <> Some (VPhase WorkflowPhase.COMPLETED)).
Proof.
  intros H.
  assert (Hr : reachable state_op tasks_pending).
  { apply reachable_run_ops; [|repeat constructor].
    apply reachable_step; [constructor|exact I]. }
  pose (r := handle_user_approval "wf" WorkflowAction.APPROVE None tasks_pending).
  assert (Hrun : exists st, r = (Return st, r.2)).
  { assert (Hb : match r.1 with Return _ => true | Raise _ => false end = true)
      by (vm_compute; reflexivity).
    destruct r as [[st|e] w1]; [by exists st|discriminate]. }
  destruct Hrun as [st Hst].
  destruct (H tasks_pending "wf" (current_state tasks_pending "wf") None st r.2 Hr)
    as [_ Hphase].
  - apply current_state_lookup. vm_compute; reflexivity.
  - vm_compute; reflexivity.
  - exact Hst.
  - apply Hphase.
    assert (Hst' : st = match r.1 with Return s => s | Raise _ => ∅ end)
      by (by rewrite Hst).
    rewrite Hst'. vm_compute. reflexivity.
Qed.

(** C2, amended: approving the tasks sets the status to
    [generating_final_documents] and, in the same update, the current phase
    to [completed] and [tasks_approved] to true.  Final-document generation
    leaves the current phase alone; what it marks completed is the status,
    and only when the documents were produced: when rendering or writing
    raises, the status becomes [failed]. *)
Theorem C2_tasks_approval_sets_phase_completed w workflow_id state feedback :
  reachable any_op w ->
  _active_workflows w !! workflow_id = Some state ->
  state !! "pending_approval" = Some (VStr "tasks") ->
  exists state' w',
    handle_user_approval workflow_id WorkflowAction.APPROVE feedback w
      = (Return state', w') /\
    _active_workflows w' !! workflow_id = Some state' /\
    state' !! "status"
      = Some (VStatus WorkflowStatus.GENERATING_FINAL_DOCUMENTS) /\
    state' !! "current_phase" = Some (VPhase WorkflowPhase.COMPLETED) /\
    state' !! "tasks_approved" = Some (VBool true) /\
    state' !! "pending_approval" = Some VNone /\
    forall render_and_write snapshot,
      snapshot !! "workflow_id" = Some (VStr workflow_id) ->
      exists state'' w'',
        generate_final_documents_node render_and_write snapshot w'
          = (Return state'', w'') /\
        _active_workflows w'' !! workflow_id = Some state'' /\
        state'' !! "current_phase" = Some (VPhase WorkflowPhase.COMPLETED) /\
        state'' !! "status" =
          Some (VStatus match render_and_write snapshot with
                        | Return _ => WorkflowStatus.COMPLETED
                        | Raise _ => WorkflowStatus.FAILED
                        end).
Proof.
  intros Hr Hst Hp.
  destruct (reachable_has_record_keys any_op w "status" Hr
              ltac:(record_key) _ _ Hst) as [s0 Hs0].
  destruct (reachable_has_record_keys any_op w "current_phase" Hr
              ltac:(record_key) _ _ Hst) as [p0 Hp0].
  destruct (reachable_has_record_keys any_op w "tasks_approved" Hr
              ltac:(record_key) _ _ Hst) as [a0 Ha0].
  destruct (reachable_has_record_keys any_op w "workflow_id" Hr
              ltac:(record_key) _ _ Hst) as [i0 Hi0].
  rewrite handle_user_approval_run, Hst, Hp.
  destruct (decide (state = ∅)) as [->|_]; [by rewrite lookup_empty in Hp|].
  cbn [truthy negb String.eqb Ascii.eqb Bool.eqb].
  rewrite update_workflow_state_run, Hst. cbv zeta.
  set (state' := updated state _ _).
  assert (Hstatus : state' !! "status"
            = Some (VStatus WorkflowStatus.GENERATING_FINAL_DOCUMENTS))
    by (unfold state'; rewrite updated_lookup, Hs0 by discriminate; reflexivity).
  assert (Hphase : state' !! "current_phase"
            = Some (VPhase WorkflowPhase.COMPLETED))
    by (unfold state'; rewrite updated_lookup, Hp0 by discriminate; reflexivity).
  exists state'; eexists. split; [reflexivity|].
  cbn [_active_workflows]. rewrite lookup_insert_eq.
  split; [done|]. split; [done|]. split; [done|].
  split; [unfold state'; rewrite updated_lookup, Ha0 by discriminate; reflexivity|].
  split; [unfold state'; rewrite updated_lookup, Hp by discriminate; reflexivity|].
  intros render snapshot Hid.
  erewrite generate_final_documents_node_run;
    [|exact Hid|cbn [_active_workflows]; apply lookup_insert_eq
     |unfold state'; rewrite updated_lookup, Hi0 by discriminate; by eexists].
  cbv zeta. eexists; eexists. split; [reflexivity|].
  cbn [_active_workflows]. rewrite lookup_insert_eq. split; [done|].
  rewrite !updated_lookup, Hphase, Hstatus by discriminate.
  by destruct (render snapshot) as [[docs paths]|e].
Qed.

(** The approval of the tasks of a workflow whose earlier phases are
    approved. *)
Lemma C2_witness :
  exists state' w',
    handle_user_approval "wf" WorkflowAction.APPROVE None tasks_pending
      = (Return state', w') /\
    state' !! "current_phase" = Some (VPhase WorkflowPhase.COMPLETED).
Proof.
  assert (Hr : reachable any_op tasks_pending).
  { apply reachable_run_ops; [|repeat constructor].
    apply reachable_step; [constructor|exact I]. }
  destruct (C2_tasks_approval_sets_phase_completed tasks_pending "wf"
              (current_state tasks_pending "wf") None Hr)
    as (st' & w' & Hrun & _ & _ & Hphase & _).
  - apply current_state_lookup. vm_compute; reflexivity.
  - vm_compute; reflexivity.
  - exists st', w'. split; [exact Hrun|exact Hphase].
Defined.

(** *** The generation nodes when the model fails *)

Lemma build_context_returns state l :
  state !! "conversation_history" = Some (VMessages l) ->
  exists c, _build_context_from_conversation state = Return c.
Proof.
  intros H. unfold _build_context_from_conversation, getitem. rewrite H.
  cbn [mbind Outcome_bind]. destruct (negb (truthy (VMessages l))); [by eexists|].
  destruct (List.filter _ _); by eexists.
Qed.

Lemma key_of key state :
  has_record_keys state -> key ∈ record_keys -> is_Some (state !! key).
Proof. unfold has_record_keys. rewrite Forall_forall. auto. Qed.

Lemma invoke_and_arm_failure get_llm_client e phase messages w workflow_id state :
  always_fails get_llm_client e ->
  _active_workflows w !! workflow_id = Some state ->
  has_record_keys state ->
  invoke_and_arm get_llm_client phase messages (Stored workflow_id) w
    = (Raise e, w).
Proof.
  intros Hfail Hst Hkeys. unfold invoke_and_arm.
  destruct (key_of "llm_provider" state Hkeys ltac:(record_key))
    as [provider Hprov].
  destruct (key_of "model_name" state Hkeys ltac:(record_key))
    as [model Hmodel].
  destruct (Hfail provider model) as (client & Hclient & Hraise).
  erewrite bind_return by (eapply item_stored; eassumption).
  erewrite bind_return by (eapply item_stored; eassumption).
  erewrite bind_return by (unfold lift; rewrite Hclient; reflexivity).
  erewrite bind_raise; [reflexivity|].
  unfold lift. by rewrite Hraise.
Qed.

Lemma except_generation_run e w workflow_id state n :
  _active_workflows w !! workflow_id = Some state ->
  state !! "workflow_id" = Some (VStr workflow_id) ->
  state !! "retry_count" = Some (VInt n) ->
  except_generation (Stored workflow_id) e w =
  let state' := updated state (failure_updates e n) (isoformat (clock w)) in
  (Return state',
   {| _active_workflows := <[workflow_id := state']> (_active_workflows w);
      clock := S (clock w) |}).
Proof.
  intros Hst Hid Hn. unfold except_generation.
  erewrite bind_return by (eapply item_stored; eassumption).
  erewrite bind_return by (eapply item_stored; eassumption).
  erewrite bind_return by (eapply item_stored; eassumption).
  erewrite bind_return by (unfold lift; reflexivity).
  erewrite bind_return by (by apply update_and_rebind_run).
  cbv zeta. erewrite read_stored; [reflexivity|].
  cbn [_active_workflows]. apply lookup_insert_eq.
Qed.

Lemma well_formed_updated workflow_id state updates now :
  well_formed workflow_id state ->
  last_binding "workflow_id" updates = None ->
  last_binding "conversation_history" updates = None ->
  last_binding "retry_count" updates = None ->
  well_formed workflow_id (updated state updates now).
Proof.
  intros (Hkeys & Hid & [l Hl] & [n Hn]) Hbi Hbl Hbn.
  split; [by apply has_record_keys_updated|].
  rewrite !updated_lookup by discriminate.
  rewrite Hid, Hl, Hn, Hbi, Hbl, Hbn. eauto.
Qed.

Lemma generate_requirements_node_failure get_llm_client e snapshot w
    workflow_id state n :
  always_fails get_llm_client e ->
  snapshot !! "workflow_id" = Some (VStr workflow_id) ->
  _active_workflows w !! workflow_id = Some state ->
  well_formed workflow_id state ->
  state !! "retry_count" = Some (VInt n) ->
  generate_requirements_node get_llm_client snapshot w =
  failed_generation w workflow_id state
    WorkflowStatus.GENERATING_REQUIREMENTS e n.
Proof.
  intros Hfail Hsnap Hst Hwf Hn. unfold generate_requirements_node.
  erewrite bind_return by (unfold lift, getitem; rewrite Hsnap; reflexivity).
  unfold try_except.
  erewrite bind_return by (unfold lift, getitem; rewrite Hsnap; reflexivity).
  erewrite update_and_rebind_run by eassumption.
  set (state1 := updated state _ _).
  set (w1 := {| _active_workflows := _; clock := _ |}).
  assert (Hst1 : _active_workflows w1 !! workflow_id = Some state1)
    by apply lookup_insert_eq.
  assert (Hwf1 : well_formed workflow_id state1)
    by (by apply well_formed_updated).
  destruct Hwf1 as (Hkeys1 & Hid1 & [l Hl] & _).
  assert (Hn1 : state1 !! "retry_count" = Some (VInt n))
    by (unfold state1; rewrite updated_lookup, Hn by discriminate; reflexivity).
  destruct (key_of "feature_name" state1 Hkeys1 ltac:(record_key))
    as [fn Hfn].
  destruct (key_of "initial_description" state1 Hkeys1
              ltac:(record_key)) as [descr Hdescr].
  destruct (build_context_returns state1 l Hl) as [c Hc].
  erewrite bind_return by (eapply item_stored; eassumption).
  erewrite bind_return by (eapply item_stored; eassumption).
  erewrite bind_return by (eapply read_stored; eassumption).
  erewrite bind_return by (unfold lift; rewrite Hc; reflexivity).
  erewrite invoke_and_arm_failure by eassumption.
  erewrite except_generation_run by eassumption.
  reflexivity.
Qed.

Lemma append_if_returns w workflow_id state key label parts :
  _active_workflows w !! workflow_id = Some state ->
  is_Some (state !! key) ->
  exists parts',
    append_if (Stored workflow_id) key label parts w = (Return parts', w).
Proof.
  intros Hst [v Hv]. unfold append_if.
  erewrite bind_return by (eapply item_stored; eassumption). cbv beta.
  destruct (truthy v).
  - erewrite bind_return by (eapply item_stored; eassumption). by eexists.
  - by eexists.
Qed.

Lemma generate_design_node_failure get_llm_client e snapshot w
    workflow_id state n :
  always_fails get_llm_client e ->
  snapshot !! "workflow_id" = Some (VStr workflow_id) ->
  _active_workflows w !! workflow_id = Some state ->
  well_formed workflow_id state ->
  state !! "retry_count" = Some (VInt n) ->
  generate_design_node get_llm_client snapshot w =
  failed_generation w workflow_id state WorkflowStatus.GENERATING_DESIGN e n.
Proof.
  intros Hfail Hsnap Hst Hwf Hn. unfold generate_design_node.
  erewrite bind_return by (unfold lift, getitem; rewrite Hsnap; reflexivity).
  unfold try_except.
  erewrite bind_return by (unfold lift, getitem; rewrite Hsnap; reflexivity).
  erewrite update_and_rebind_run by eassumption.
  set (state1 := updated state _ _).
  set (w1 := {| _active_workflows := _; clock := _ |}).
  assert (Hst1 : _active_workflows w1 !! workflow_id = Some state1)
    by apply lookup_insert_eq.
  assert (Hwf1 : well_formed workflow_id state1)
    by (by apply well_formed_updated).
  destruct Hwf1 as (Hkeys1 & Hid1 & [l Hl] & _).
  assert (Hn1 : state1 !! "retry_count" = Some (VInt n))
    by (unfold state1; rewrite updated_lookup, Hn by discriminate; reflexivity).
  destruct (key_of "feature_name" state1 Hkeys1 ltac:(record_key))
    as [fn Hfn].
  destruct (key_of "initial_description" state1 Hkeys1 ltac:(record_key))
    as [descr Hdescr].
  destruct (build_context_returns state1 l Hl) as [c Hc].
  erewrite bind_return by (eapply item_stored; eassumption).
  erewrite bind_return by (eapply item_stored; eassumption).
  cbv zeta.
  edestruct (append_if_returns w1 workflow_id state1 "requirements_content")
    as [parts1 Hparts1];
    [exact Hst1|apply (key_of _ _ Hkeys1); record_key|].
  erewrite bind_return by exact Hparts1.
  edestruct (append_if_returns w1 workflow_id state1 "user_feedback")
    as [parts2 Hparts2];
    [exact Hst1|apply (key_of _ _ Hkeys1); record_key|].
  erewrite bind_return by exact Hparts2.
  erewrite bind_return by (eapply read_stored; eassumption).
  erewrite bind_return by (unfold lift; rewrite Hc; reflexivity).
  erewrite invoke_and_arm_failure by eassumption.
  erewrite except_generation_run by eassumption.
  reflexivity.
Qed.

Lemma generate_tasks_node_failure get_llm_client e snapshot w
    workflow_id state n :
  always_fails get_llm_client e ->
  snapshot !! "workflow_id" = Some (VStr workflow_id) ->
  _active_workflows w !! workflow_id = Some state ->
  well_formed workflow_id state ->
  state !! "retry_count" = Some (VInt n) ->
  generate_tasks_node get_llm_client snapshot w =
  failed_generation w workflow_id state WorkflowStatus.GENERATING_TASKS e n.
Proof.
  intros Hfail Hsnap Hst Hwf Hn. unfold generate_tasks_node.
  erewrite bind_return by (unfold lift, getitem; rewrite Hsnap; reflexivity).
  unfold try_except.
  erewrite bind_return by (unfold lift, getitem; rewrite Hsnap; reflexivity).
  erewrite update_and_rebind_run by eassumption.
  set (state1 := updated state _ _).
  set (w1 := {| _active_workflows := _; clock := _ |}).
  assert (Hst1 : _active_workflows w1 !! workflow_id = Some state1)
    by apply lookup_insert_eq.
  assert (Hwf1 : well_formed workflow_id state1)
    by (by apply well_formed_updated).
  destruct Hwf1 as (Hkeys1 & Hid1 & [l Hl] & _).
  assert (Hn1 : state1 !! "retry_count" = Some (VInt n))
    by (unfold state1; rewrite updated_lookup, Hn by discriminate; reflexivity).
  destruct (key_of "feature_name" state1 Hkeys1 ltac:(record_key))
    as [fn Hfn].
  destruct (key_of "initial_description" state1 Hkeys1 ltac:(record_key))
    as [descr Hdescr].
  destruct (build_context_returns state1 l Hl) as [c Hc].
  erewrite bind_return by (eapply item_stored; eassumption).
  erewrite bind_return by (eapply item_stored; eassumption).
  cbv zeta.
  edestruct (append_if_returns w1 workflow_id state1 "requirements_content")
    as [parts1 Hparts1];
    [exact Hst1|apply (key_of _ _ Hkeys1); record_key|].
  erewrite bind_return by exact Hparts1.
  edestruct (append_if_returns w1 workflow_id state1 "design_content")
    as [parts2 Hparts2];
    [exact Hst1|apply (key_of _ _ Hkeys1); record_key|].
  erewrite bind_return by exact Hparts2.
  edestruct (append_if_returns w1 workflow_id state1 "user_feedback")
    as [parts3 Hparts3];
    [exact Hst1|apply (key_of _ _ Hkeys1); record_key|].
  erewrite bind_return by exact Hparts3.
  erewrite bind_return by (eapply read_stored; eassumption).
  erewrite bind_return by (unfold lift; rewrite Hc; reflexivity).
  erewrite invoke_and_arm_failure by eassumption.
  erewrite except_generation_run by eassumption.
  reflexivity.
Qed.

(** What a failed generation leaves, and where the graph goes from there. *)
Lemma failed_generation_spec w workflow_id state generating e n awaiting again :
  well_formed workflow_id state ->
  state !! "retry_count" = Some (VInt n) ->
  exists state' w',
    failed_generation w workflow_id state generating e n = (Return state', w') /\
    _active_workflows w' !! workflow_id = Some state' /\
    state' !! "retry_count" = Some (VInt (n + 1)) /\
    state' !! "last_error" = Some (VStr (str_exc e)) /\
    state' !! "status" = Some (VStatus WorkflowStatus.FAILED) /\
    route_from_generation awaiting again state'
      = Return (if n + 1 <? 3 then again else "end").
Proof.
  intros (Hkeys & Hid & _ & _) Hn. unfold failed_generation. cbv zeta.
  destruct (key_of "status" state Hkeys ltac:(record_key)) as [s0 Hs0].
  destruct (key_of "last_error" state Hkeys ltac:(record_key)) as [e0 He0].
  set (state' := updated (updated state _ _) _ _).
  assert (Hretry : state' !! "retry_count" = Some (VInt (n + 1)))
    by (unfold state'; rewrite !updated_lookup, Hn by discriminate; reflexivity).
  assert (Hstatus : state' !! "status" = Some (VStatus WorkflowStatus.FAILED))
    by (unfold state'; rewrite !updated_lookup, Hs0 by discriminate; reflexivity).
  assert (Hwid : state' !! "workflow_id" = Some (VStr workflow_id))
    by (unfold state'; rewrite !updated_lookup, Hid by discriminate; reflexivity).
  exists state'; eexists. split; [reflexivity|].
  cbn [_active_workflows]. rewrite lookup_insert_eq.
  split; [done|]. split; [done|].
  split; [unfold state'; rewrite !updated_lookup, He0 by discriminate; reflexivity|].
  split; [done|].
  unfold route_from_generation, is_workflow_failed, getitem.
  rewrite Hstatus, Hretry, Hwid. cbn.
  by destruct (n + 1 <? 3).
Qed.

Lemma started_reachable allowed :
  (forall i f d p m r, allowed (OpCreate i f d p m r)) ->
  reachable allowed started.
Proof. intros H. apply reachable_step; [constructor|apply H]. Qed.

Lemma started_well_formed : well_formed "wf" (current_state started "wf").
Proof.
  split; [|split; [vm_compute; reflexivity
                  |split; eexists; vm_compute; reflexivity]].
  refine (reachable_table_inv has_record_keys has_record_keys_updated
            has_record_keys_initial any_op started _ "wf" _ _).
  - by apply started_reachable.
  - apply current_state_lookup. vm_compute; reflexivity.
Qed.

(** C4, as stated: after a failed attempt the record would still carry the
    generating-state of its phase.  The node sets the status to [failed]
    on the first failure. *)
Lemma C4_counterexample :
  ~ (forall get_llm_client e snapshot w workflow_id state n,
       always_fails get_llm_client e ->
       snapshot !! "workflow_id" = Some (VStr workflow_id) ->
       _active_workflows w !! workflow_id = Some state ->
       well_formed workflow_id state ->
       state !! "retry_count" = Some (VInt n) ->
       exists state' w',
         generate_requirements_node get_llm_client snapshot w
           = (Return state', w') /\
         state' !! "retry_count" = Some (VInt (n + 1)) /\
         state' !! "last_error" = Some (VStr (str_exc e)) /\
         state' !! "status"
           = Some (VStatus WorkflowStatus.GENERATING_REQUIREMENTS)).
Proof.
  intros H.
  assert (Hl : _active_workflows started !! "wf"
               = Some (current_state started "wf"))
    by (apply current_state_lookup; vm_compute; reflexivity).
  pose proof started_well_formed as Hwf.
  assert (Hn : current_state started "wf" !! "retry_count" = Some (VInt 0))
    by (vm_compute; reflexivity).
  assert (Hfail : always_fails (failing_client "provider down")
                    (Exception "provider down")).
  { intros p m. eexists; split; [reflexivity|done]. }
  assert (Hsnap : current_state started "wf" !! "workflow_id"
                  = Some (VStr "wf")) by (vm_compute; reflexivity).
  destruct (H _ _ _ _ _ _ _ Hfail Hsnap Hl Hwf Hn)
    as (st' & w' & Hrun & _ & _ & Hstatus).
  rewrite (generate_requirements_node_failure _ _ _ _ _ _ _ Hfail Hsnap Hl
             Hwf Hn) in Hrun.
  destruct (failed_generation_spec started "wf" (current_state started "wf")
              WorkflowStatus.GENERATING_REQUIREMENTS (Exception "provider down")
              0 WorkflowStatus.AWAITING_REQUIREMENTS_APPROVAL
              "generate_requirements" Hwf Hn)
    as (st2 & w2 & Hrun2 & _ & _ & _ & Hfailed & _).
  rewrite Hrun2 in Hrun. injection Hrun as -> _. congruence.
Qed.

(** C4, amended: when the model invocation fails during a generation
    attempt, each of the three generation nodes returns normally, with
    [retry_count] increased by exactly 1 and the message of the error in
    [last_error], and sets the status to [failed] at once; the routing
    function of the node sends a failed record back to the same node while
    [retry_count] is below 3 and ends the run otherwise. *)
Theorem C4_generation_failure_sets_failed get_llm_client e snapshot w
    workflow_id state n :
  always_fails get_llm_client e ->
  snapshot !! "workflow_id" = Some (VStr workflow_id) ->
  _active_workflows w !! workflow_id = Some state ->
  well_formed workflow_id state ->
  state !! "retry_count" = Some (VInt n) ->
  Forall (fun '(node, route, again) =>
            exists state' w',
              node get_llm_client snapshot w = (Return state', w') /\
              _active_workflows w' !! workflow_id = Some state' /\
              state' !! "retry_count" = Some (VInt (n + 1)) /\
              state' !! "last_error" = Some (VStr (str_exc e)) /\
              state' !! "status" = Some (VStatus WorkflowStatus.FAILED) /\
              route state' = Return (if n + 1 <? 3 then again else "end"))
    [(generate_requirements_node, _route_from_requirements,
      "generate_requirements");
     (generate_design_node, _route_from_design, "generate_design");
     (generate_tasks_node, _route_from_tasks, "generate_tasks")].
Proof.
  intros Hfail Hsnap Hst Hwf Hn. repeat constructor.
  - rewrite (generate_requirements_node_failure _ _ _ _ _ _ _ Hfail Hsnap Hst Hwf Hn).
    by apply failed_generation_spec.
  - rewrite (generate_design_node_failure _ _ _ _ _ _ _ Hfail Hsnap Hst Hwf Hn).
    by apply failed_generation_spec.
  - rewrite (generate_tasks_node_failure _ _ _ _ _ _ _ Hfail Hsnap Hst Hwf Hn).
    by apply failed_generation_spec.
Qed.

(** A first failure on a started workflow: the status is [failed] and the
    graph retries. *)
Lemma C4_witness :
  exists state' w',
    generate_requirements_node (failing_client "provider down")
      (current_state started "wf") started = (Return state', w') /\
    state' !! "retry_count" = Some (VInt 1) /\
    state' !! "last_error" = Some (VStr "provider down") /\
    state' !! "status" = Some (VStatus WorkflowStatus.FAILED) /\
    _route_from_requirements state' = Return "generate_requirements".
Proof.
  assert (Hl : _active_workflows started !! "wf"
               = Some (current_state started "wf"))
    by (apply current_state_lookup; vm_compute; reflexivity).
  assert (Hn : current_state started "wf" !! "retry_count" = Some (VInt 0))
    by (vm_compute; reflexivity).
  assert (Hfail : always_fails (failing_client "provider down")
                    (Exception "provider down")).
  { intros p m. eexists; split; [reflexivity|done]. }
  assert (Hsnap : current_state started "wf" !! "workflow_id"
                  = Some (VStr "wf")) by (vm_compute; reflexivity).
  pose proof (C4_generation_failure_sets_failed _ _ _ _ _ _ _ Hfail Hsnap Hl
                started_well_formed Hn) as H.
  apply Forall_cons in H as [(st' & w' & Hrun & _ & Hr & He & Hs & Hroute) _].
  exists st', w'. repeat split; assumption.
Defined.

(** *** Retry state on entering an awaiting-approval state *)

(** C3, as stated: a record that a successful generation has just put in an
    awaiting-approval state would have [retry_count] 0 and no [last_error].
    After one failed attempt followed by a successful one the record awaits
    approval with [retry_count] 1 and the error of the failed attempt. *)
Lemma C3_counterexample :
  ~ (forall w get_llm_client snapshot state' w',
       reachable generation_op w ->
       generate_requirements_node get_llm_client snapshot w
         = (Return state', w') ->
       should_wait_for_approval state' = Return true ->
       state' !! "retry_count" = Some (VInt 0) /\
       state' !! "last_error" = Some VNone).
Proof.
  intros H.
  pose (w := run_op (OpGenerateRequirements (failing_client "provider down")
                       (current_state started "wf")) started).
  assert (Hr : reachable generation_op w).
  { apply reachable_step; [|exact I]. by apply started_reachable. }
  pose (r := generate_requirements_node (answering_client "# Requirements")
               (current_state w "wf") w).
  assert (Hrun : exists st, r = (Return st, r.2) /\
                   st = match r.1 with Return s => s | Raise _ => ∅ end).
  { assert (Hb : match r.1 with Return _ => true | Raise _ => false end = true)
      by (vm_compute; reflexivity).
    destruct r as [[st|e] w1]; [by exists st|discriminate]. }
  destruct Hrun as (st & Hst & Hval).
  destruct (H w _ _ st r.2 Hr Hst) as [Hretry _].
  - rewrite Hval. vm_compute. reflexivity.
  - rewrite Hval in Hretry. vm_compute in Hretry. discriminate.
Qed.

(** C3, amended: entering an awaiting-approval state, which is what
    [set_pending_approval] does, leaves [retry_count] and [last_error] as
    they were; it is [transition_to_phase] that resets [retry_count] to 0 and
    clears [last_error], whatever state it moves the record to. *)
Theorem C3_set_pending_approval_keeps_retry_state :
  (forall w workflow_id phase content state' w',
     set_pending_approval workflow_id phase content w = (Return state', w') ->
     exists state status,
       _active_workflows w !! workflow_id = Some state /\
       status_map phase = Some status /\ is_awaiting status = true /\
       state' !! "status" = (fun _ => VStatus status) <$> state !! "status" /\
       state' !! "retry_count" = state !! "retry_count" /\
       state' !! "last_error" = state !! "last_error") /\
  (forall w workflow_id phase status state' w',
     transition_to_phase workflow_id phase status w = (Return state', w') ->
     exists state,
       _active_workflows w !! workflow_id = Some state /\
       state' !! "retry_count" = (fun _ => VInt 0) <$> state !! "retry_count" /\
       state' !! "last_error" = (fun _ => VNone) <$> state !! "last_error").
Proof.
  split.
  - intros w i phase c st' w'. unfold set_pending_approval.
    destruct (status_map phase) as [s|] eqn:Hmap; [|discriminate].
    rewrite update_workflow_state_run.
    destruct (_active_workflows w !! i) as [st|]; [|discriminate].
    cbv zeta. intros [= <- <-]. exists st, s.
    split; [done|]. split; [done|].
    apply status_map_Some in Hmap as [[-> ->]|[[-> ->]|[-> ->]]];
      (split; [done|]); rewrite !updated_lookup by discriminate;
      repeat split; by destruct (st !! _).
  - intros w i phase s st' w'. unfold transition_to_phase.
    rewrite update_workflow_state_run.
    destruct (_active_workflows w !! i) as [st|]; [|discriminate].
    cbv zeta. intros [= <- <-]. exists st.
    split; [done|]. rewrite !updated_lookup by discriminate.
    split; by destruct (st !! _).
Qed.

(** Arming the approval of the requirements after one failed attempt. *)
Lemma C3_witness :
  let w := run_op (OpGenerateRequirements (failing_client "provider down")
                     (current_state started "wf")) started in
  let r := set_pending_approval "wf" "requirements" "# Requirements" w in
  exists state',
    r = (Return state', r.2) /\
    state' !! "retry_count" = Some (VInt 1) /\
    state' !! "last_error" = Some (VStr "provider down").
Proof.
  intros w r.
  assert (Hrun : exists st, r = (Return st, r.2)).
  { assert (Hb : match r.1 with Return _ => true | Raise _ => false end = true)
      by (vm_compute; reflexivity).
    destruct r as [[st|e] w1]; [by exists st|discriminate]. }
  destruct Hrun as [st Hst]. exists st. split; [exact Hst|].
  destruct (proj1 C3_set_pending_approval_keeps_retry_state w "wf"
              "requirements" "# Requirements" st r.2 Hst)
    as (st0 & s & Hl & _ & _ & _ & Hretry & Herr).
  assert (Hl' : _active_workflows w !! "wf" = Some (current_state w "wf"))
    by (apply current_state_lookup; vm_compute; reflexivity).
  rewrite Hl' in Hl. injection Hl as <-.
  rewrite Hretry, Herr. split; vm_compute; reflexivity.
Defined.

(** ** The claims on the retry loop *)

Section RetryLoop.
Context (py : Interpreter) (messages : list LLMMessage)
      (validation_model : option BaseModel) (llm_client : LLMClient).

Lemma retry_loop_all_raise e :
(forall i msgs, llm_client i msgs = Raise e) ->
forall remaining attempt last_error self events,
  attempt + Z.of_nat remaining = max_retries self + 1 ->
  (0 < remaining)%nat ->
  retry_loop py llm_client messages validation_model None
    remaining attempt last_error self events =
  (all_failed self (Some (str_exc e)), self,
   (events ++ backoff_events messages remaining attempt)%list).
Proof.
intros Hraise. induction remaining as [|r IH];
  intros attempt last_error self events Hsum Hpos; [lia|].
cbn [retry_loop]. rewrite Hraise.
destruct r as [|r].
- replace (attempt =? max_retries self) with true
    by (symmetry; apply Z.eqb_eq; lia).
  reflexivity.
- replace (attempt =? max_retries self) with false
    by (symmetry; apply Z.eqb_neq; lia).
  rewrite IH by lia.
  change (backoff_events messages (S (S r)) attempt) with
    (Generate (attempt_messages messages None attempt) ::
     Sleep (2 ^ attempt) :: backoff_events messages (S r) (attempt + 1)).
  by rewrite <- !app_assoc.
Qed.

Lemma parse_json_response_no_json self content strict payload detected :
_response_cache self = ∅ ->
_extract_json_from_response py content = Return (payload, detected) ->
detected <> ParseMode.JSON ->
exists r,
  parse_json_response py self content validation_model strict
    = (Return r, self) /\
  success r = false /\
  mode r = Some detected.
Proof.
intros Hcache Hextract Hmode. unfold parse_json_response.
rewrite Hcache, lookup_empty, Hextract.
destruct (cache_enabled self);
  rewrite bool_decide_eq_false_2 by done; simpl; by eexists.
Qed.

Lemma retry_loop_no_json :
(forall i msgs, exists response payload detected,
    llm_client i msgs = Return response /\
    _extract_json_from_response py (response_content response)
      = Return (payload, detected) /\
    detected <> ParseMode.JSON) ->
forall remaining attempt last_error self events,
  _response_cache self = ∅ ->
  attempt + Z.of_nat remaining = max_retries self + 1 ->
  (0 < remaining)%nat ->
  exists response,
    llm_client (length (List.filter is_generate events) + remaining - 1)%nat
      (attempt_messages messages None (max_retries self))
      = Return response /\
    retry_loop py llm_client messages validation_model None
      remaining attempt last_error self events =
    (conversation_fallback (response_content response), self,
     (events ++ reprompt_events messages remaining attempt)%list).
Proof.
intros Hllm. induction remaining as [|r IH];
  intros attempt last_error self events Hcache Hsum Hpos; [lia|].
cbn [retry_loop].
destruct (Hllm (length (List.filter is_generate events))
            (attempt_messages messages None attempt))
  as (response & payload & detected & Hresp & Hextract & Hmode).
rewrite Hresp.
destruct (parse_json_response_no_json self (response_content response)
            true payload detected Hcache Hextract Hmode)
  as (pr & Hparse & Hfail & Hm).
rewrite Hparse, Hfail.
destruct r as [|r].
- replace (attempt =? max_retries self) with true
    by (symmetry; apply Z.eqb_eq; lia).
  assert (attempt = max_retries self) as -> by lia.
  exists response. split.
  + rewrite <- Hresp. f_equal. lia.
  + rewrite Hm.
    destruct detected; [done|reflexivity|reflexivity].
- replace (attempt =? max_retries self) with false
    by (symmetry; apply Z.eqb_neq; lia).
  cbn [andb].
  destruct (IH (attempt + 1) (error pr) self
              (events ++ [Generate (attempt_messages messages None attempt)])%list
              Hcache ltac:(lia) ltac:(lia))
    as (last & Hlast & Hloop).
  exists last. split.
  + rewrite <- Hlast. f_equal.
    rewrite List.filter_app, length_app. simpl. lia.
  + rewrite Hloop. cbn [reprompt_events]. by rewrite <- app_assoc.
Qed.
End RetryLoop.

(** C6: when every model invocation raises, generate-and-parse with ceiling
    3 invokes generation exactly four times, sleeps 1, 2 and 4 seconds
    between consecutive attempts (2 to the power of the attempt), and
    returns an overall failure. *)
Theorem C6_raising_model_backoff py messages validation_model llm_client e :
  (forall i msgs, llm_client i msgs = Raise e) ->
  let retry :=
    (messages ++ [{| msg_role := "user";
                     msg_content := default_retry_instruction |}])%list in
  generate_and_parse py messages validation_model llm_client 3 =
  ({| success := false; data := None;
      error := Some ("Failed after 4 attempts. Last error: " +:+ str_exc e);
      mode := Some ParseMode.JSON;
      raw_content := None |},
   {| max_retries := 3; cache_enabled := true; _response_cache := ∅ |},
   [Generate messages; Sleep (2 ^ 0);
    Generate retry; Sleep (2 ^ 1);
    Generate retry; Sleep (2 ^ 2);
    Generate retry]).
Proof.
  intros Hraise retry. unfold generate_and_parse, parse_with_retry.
  rewrite (retry_loop_all_raise py messages validation_model llm_client e
             Hraise) by (cbn; lia).
  reflexivity.
Qed.

(** A provider that is rate limited on every call. *)
Lemma C6_witness :
  let llm_client : LLMClient := fun _ _ => Raise (Exception "rate limited") in
  let messages := [{| msg_role := "user"; msg_content := "Describe login" |}] in
  let '(result, _, events) :=
    generate_and_parse cpython messages None llm_client 3 in
  success result = false /\
  length (List.filter is_generate events) = 4%nat /\
  List.filter (fun ev => negb (is_generate ev)) events
    = [Sleep 1; Sleep 2; Sleep 4].
Proof.
  intros llm_client messages.
  rewrite (C6_raising_model_backoff cpython messages None llm_client
             (Exception "rate limited"));
    [|reflexivity].
  repeat split.
Defined.

(** C5: when every model invocation returns text that extraction classifies
    as markdown or conversation, generate-and-parse, once its ceiling of
    retries is exhausted, returns an overall success tagged conversation
    mode that carries the raw text of the last answer; it has invoked the
    model once per attempt and never slept. *)
Theorem C5_unparseable_answers_fall_back py messages validation_model
    llm_client ceiling :
  0 <= ceiling ->
  (forall i msgs, exists response payload,
      llm_client i msgs = Return response /\
      (_extract_json_from_response py (response_content response)
         = Return (payload, ParseMode.MARKDOWN) \/
       _extract_json_from_response py (response_content response)
         = Return (payload, ParseMode.CONVERSATION))) ->
  exists response,
    llm_client (Z.to_nat ceiling) (attempt_messages messages None ceiling)
      = Return response /\
    generate_and_parse py messages validation_model llm_client ceiling =
    ({| success := true;
        data := Some (DDict [("content", response_content response);
                             ("mode", "conversation")]);
        error := None;
        mode := Some ParseMode.CONVERSATION;
        raw_content := Some (response_content response) |},
     {| max_retries := ceiling; cache_enabled := true; _response_cache := ∅ |},
     reprompt_events messages (Z.to_nat (ceiling + 1)) 0).
Proof.
  intros Hceiling Hllm. unfold generate_and_parse, parse_with_retry.
  cbn [max_retries].
  set (self := {| max_retries := ceiling; cache_enabled := true;
                  _response_cache := ∅ |}).
  assert (Hllm' : forall i msgs, exists response payload detected,
             llm_client i msgs = Return response /\
             _extract_json_from_response py (response_content response)
               = Return (payload, detected) /\
             detected <> ParseMode.JSON).
  { intros i msgs. destruct (Hllm i msgs) as (r & p & Hr & Hmode).
    exists r, p.
    destruct Hmode as [Hmode | Hmode]; eexists;
      (split; [exact Hr|split; [exact Hmode|discriminate]]). }
  destruct (retry_loop_no_json py messages validation_model llm_client Hllm'
              (Z.to_nat (ceiling + 1)) 0 None self [] eq_refl)
    as (response & Hlast & Hloop).
  - cbn [max_retries self]. rewrite Z2Nat.id by lia. reflexivity.
  - lia.
  - exists response. cbn [max_retries self] in Hlast. split.
    + rewrite <- Hlast. f_equal. simpl. lia.
    + exact Hloop.
Qed.

(** A model that always answers with a markdown heading. *)
Lemma C5_witness :
  let llm_client : LLMClient := fun _ _ =>
    Return {| response_content := "# Requirements"; response_model := "m" |} in
  let messages := [{| msg_role := "user"; msg_content := "Describe login" |}] in
  let '(result, _, events) :=
    generate_and_parse cpython messages None llm_client 3 in
  result = conversation_fallback "# Requirements" /\ length events = 4%nat.
Proof.
  intros llm_client messages.
  destruct (C5_unparseable_answers_fall_back cpython messages None
              llm_client 3)
    as (response & Hlast & Hrun).
  - lia.
  - intros i msgs. eexists _, _. split; [reflexivity|]. left.
    vm_compute. reflexivity.
  - rewrite Hrun. injection Hlast as <-. split; reflexivity.
Defined.

(** ** The claim on extraction *)

Lemma str_app_assoc (s t u : string) : (s +:+ t) +:+ u = s +:+ (t +:+ u).
Proof.
  induction s as [|c s IH]; [reflexivity|].
  change (String c ((s +:+ t) +:+ u) = String c (s +:+ (t +:+ u))).
  by rewrite IH.
Qed.

Lemma str_app_nil_r (s : string) : s +:+ "" = s.
Proof.
  induction s as [|c s IH]; [reflexivity|].
  change (String c (s +:+ "") = String c s). by rewrite IH.
Qed.

Lemma str_app_length (s t : string) :
  String.length (s +:+ t) = (String.length s + String.length t)%nat.
Proof.
  induction s as [|c s IH]; [reflexivity|].
  change (S (String.length (s +:+ t))
          = S (String.length s + String.length t)). by rewrite IH.
Qed.

Lemma match_braces_no_brace inner s t :
  no_brace s = true ->
  match_braces inner (s +:+ t) = (fun m => s +:+ m) <$> match_braces inner t.
Proof.
  induction s as [|c s IH]; intros Hs.
  - change (match_braces inner t = (fun m => m) <$> match_braces inner t).
    by destruct (match_braces inner t).
  - simpl in Hs. apply andb_true_iff in Hs as [Hc Hs].
    apply andb_true_iff in Hc as [Ho Hc].
    apply negb_true_iff in Ho, Hc.
    change (String c s +:+ t) with (String c (s +:+ t)).
    cbn [match_braces]. rewrite Ho, Hc, IH by done.
    by destruct (match_braces inner t).
Qed.

Lemma match_braces_flat body after :
  flat_body body ->
  match_braces false (body +:+ "}" +:+ after) = Some (body +:+ "}").
Proof.
  induction 1 as [s Hs|s inner rest Hs Hinner Hrest IH].
  - rewrite match_braces_no_brace by done. reflexivity.
  - rewrite !str_app_assoc.
    rewrite match_braces_no_brace by done.
    change ("{" +:+ inner +:+ "}" +:+ rest +:+ "}" +:+ after)
      with (String "{" (inner +:+ "}" +:+ rest +:+ "}" +:+ after)).
    cbn [match_braces Ascii.eqb Bool.eqb].
    rewrite match_braces_no_brace by done.
    change ("}" +:+ rest +:+ "}" +:+ after)
      with (String "}" (rest +:+ "}" +:+ after)).
    cbn [match_braces Ascii.eqb Bool.eqb]. rewrite IH.
    reflexivity.
Qed.

Lemma match_json_pattern_flat body after :
  flat_body body ->
  match_json_pattern (("{" +:+ body +:+ "}") +:+ after)
    = Some ("{" +:+ body +:+ "}").
Proof.
  intros Hbody.
  change (("{" +:+ body +:+ "}") +:+ after)
    with (String "{" ((body +:+ "}") +:+ after)).
  rewrite str_app_assoc. cbn [match_json_pattern].
  by rewrite match_braces_flat.
Qed.

(** What the pattern matches is a group nested at most one level deep. *)
Lemma flat_body_cons c body :
  Ascii.eqb c "{" = false -> Ascii.eqb c "}" = false ->
  flat_body body -> flat_body (String c body).
Proof.
  intros Ho Hc Hbody. destruct Hbody as [s Hs|s inner rest Hs Hinner Hrest].
  - apply flat_run. simpl. by rewrite Ho, Hc, Hs.
  - change (String c (s +:+ "{" +:+ inner +:+ "}" +:+ rest))
      with (String c s +:+ "{" +:+ inner +:+ "}" +:+ rest).
    apply flat_group; [|done|done]. simpl. by rewrite Ho, Hc, Hs.
Qed.

Lemma match_braces_sound t :
  (forall m, match_braces false t = Some m ->
     exists body after,
       flat_body body /\ m = body +:+ "}" /\ t = body +:+ "}" +:+ after) /\
  (forall m, match_braces true t = Some m ->
     exists inner body after,
       no_brace inner = true /\ flat_body body /\
       m = inner +:+ "}" +:+ body +:+ "}" /\
       t = inner +:+ "}" +:+ body +:+ "}" +:+ after).
Proof.
  induction t as [|c t [IHf IHt]]; [split; intros m H; discriminate H|].
  split; intros m H; cbn [match_braces] in H.
  - destruct (Ascii.eqb c "{") eqn:Ho.
    + apply Ascii.eqb_eq in Ho as ->.
      destruct (match_braces true t) as [m1|] eqn:E; [|discriminate H].
      injection H as <-.
      destruct (IHt m1 eq_refl)
        as (inner & body & after & Hinner & Hbody & -> & ->).
      exists ("" +:+ "{" +:+ inner +:+ "}" +:+ body), after.
      split; [by apply flat_group|].
      split; by rewrite ?str_app_assoc.
    + destruct (Ascii.eqb c "}") eqn:Hc.
      * apply Ascii.eqb_eq in Hc as ->. injection H as <-.
        exists "", t. split; [by apply flat_run|]. by split.
      * destruct (match_braces false t) as [m1|] eqn:E; [|discriminate H].
        injection H as <-.
        destruct (IHf m1 eq_refl) as (body & after & Hbody & -> & ->).
        exists (String c body), after.
        split; [by apply flat_body_cons|]. by split.
  - destruct (Ascii.eqb c "{") eqn:Ho; [discriminate H|].
    destruct (Ascii.eqb c "}") eqn:Hc.
    + apply Ascii.eqb_eq in Hc as ->.
      destruct (match_braces false t) as [m1|] eqn:E; [|discriminate H].
      injection H as <-.
      destruct (IHf m1 eq_refl) as (body & after & Hbody & -> & ->).
      exists "", body, after. by repeat split.
    + destruct (match_braces true t) as [m1|] eqn:E; [|discriminate H].
      injection H as <-.
      destruct (IHt m1 eq_refl)
        as (inner & body & after & Hinner & Hbody & -> & ->).
      exists (String c inner), body, after.
      repeat split; [|done]. simpl. by rewrite Ho, Hc, Hinner.
Qed.

(** An opening brace that starts no group nested at most one level deep is
    no match of the pattern, and conversely. *)
Lemma match_json_pattern_stray t :
  (forall body after, flat_body body -> t <> body +:+ "}" +:+ after) <->
  match_json_pattern (String "{" t) = None.
Proof.
  cbn [match_json_pattern]. split.
  - intros Hstray. destruct (match_braces false t) as [m|] eqn:E; [|done].
    destruct (proj1 (match_braces_sound t) m E)
      as (body & after & Hbody & _ & Ht).
    by destruct (Hstray body after Hbody).
  - intros Hnone body after Hbody ->.
    by rewrite match_braces_flat in Hnone.
Qed.

Lemma match_json_pattern_other c t :
  c <> "{"%char -> match_json_pattern (String c t) = None.
Proof.
  intros Hc. unfold match_json_pattern.
  destruct c as [[] [] [] [] [] [] [] []]; try reflexivity. done.
Qed.

(** The search goes on after a match. *)
Lemma findall_json_pattern_skip t rest :
  findall_json_pattern (String.length t) (t +:+ rest)
    = findall_json_pattern 0 rest.
Proof.
  induction t as [|c t IH]; [by destruct rest|].
  change (String c t +:+ rest) with (String c (t +:+ rest)).
  exact IH.
Qed.

Lemma findall_json_pattern_flat body rest :
  flat_body body ->
  findall_json_pattern 0 (("{" +:+ body +:+ "}") +:+ rest)
    = ("{" +:+ body +:+ "}") :: findall_json_pattern 0 rest.
Proof.
  intros Hbody.
  pose proof (match_json_pattern_flat body rest Hbody) as Hmatch.
  change (("{" +:+ body +:+ "}") +:+ rest)
    with (String "{" ((body +:+ "}") +:+ rest)) in *.
  cbn [findall_json_pattern]. rewrite Hmatch. f_equal.
  change (String.length ("{" +:+ body +:+ "}") - 1)%nat
    with (S (String.length (body +:+ "}")) - 1)%nat.
  replace (S (String.length (body +:+ "}")) - 1)%nat
    with (String.length (body +:+ "}")) by lia.
  apply findall_json_pattern_skip.
Qed.

(** The loop over the matches leaves what the search passes over. *)
Lemma first_decodable_passed_over py before rest :
  passed_over py rest before ->
  first_decodable py (findall_json_pattern 0 (before +:+ rest))
    = first_decodable py (findall_json_pattern 0 rest).
Proof.
  induction 1 as [|c before Hc _ IH|before Hstray _ IH
                  |body message before Hbody Hloads _ IH].
  - reflexivity.
  - change (String c before +:+ rest) with (String c (before +:+ rest)).
    cbn [findall_json_pattern].
    by rewrite match_json_pattern_other.
  - change (String "{" before +:+ rest) with (String "{" (before +:+ rest)).
    cbn [findall_json_pattern].
    by rewrite (proj1 (match_json_pattern_stray (before +:+ rest)) Hstray).
  - rewrite str_app_assoc, findall_json_pattern_flat by done.
    cbn [first_decodable]. by rewrite Hloads.
Qed.

(** Conversely, a payload found by the loop over the matches is a group
    nested at most one level deep that decodes, after text that the search
    passes over. *)
Lemma first_decodable_found py payload n : forall s,
  (String.length s <= n)%nat ->
  first_decodable py (findall_json_pattern 0 s) = Return (Some payload) ->
  exists before body after document,
    s = before +:+ ("{" +:+ body +:+ "}") +:+ after /\
    payload = "{" +:+ body +:+ "}" /\
    flat_body body /\
    passed_over py (("{" +:+ body +:+ "}") +:+ after) before /\
    json_loads py (json_depth_extracting py) payload = Loaded document.
Proof.
  induction n as [|n IH]; intros s Hlen; (destruct s as [|c t]; [discriminate|]);
    [cbn in Hlen; lia|].
  cbn [String.length] in Hlen.
  destruct (match_json_pattern (String c t)) as [m|] eqn:Hmatch.
  - assert (Hgroup : exists body after,
              flat_body body /\ c = "{"%char /\ m = "{" +:+ body +:+ "}" /\
              t = body +:+ "}" +:+ after).
    { destruct (Ascii.eqb_spec c "{") as [->|Hc];
        [|by rewrite (match_json_pattern_other c t Hc) in Hmatch].
      revert Hmatch. cbn [match_json_pattern].
      destruct (match_braces false t) as [m'|] eqn:Hbraces; [|discriminate].
      intros [= <-].
      destruct (proj1 (match_braces_sound t) m' Hbraces)
        as (body & after & Hbody & -> & Ht).
      by exists body, after. }
    destruct Hgroup as (body & after & Hbody & -> & -> & ->).
    change (String "{" (body +:+ "}" +:+ after))
      with ("{" +:+ body +:+ "}" +:+ after).
    rewrite <- (str_app_assoc body "}" after).
    change ("{" +:+ (body +:+ "}") +:+ after)
      with (("{" +:+ body +:+ "}") +:+ after).
    rewrite findall_json_pattern_flat by done. cbn [first_decodable].
    destruct (json_loads py _ ("{" +:+ body +:+ "}"))
      as [document|message|e] eqn:Hloads; [| |discriminate].
    + intros [= <-]. exists "", body, after, document.
      split; [reflexivity|]. split; [reflexivity|]. split; [exact Hbody|].
      split; [apply passed_end|exact Hloads].
    + intros Hrest.
      destruct (IH after) as (before & body' & after' & document & -> & ->
                              & Hbody' & Hpassed & Hloads'); [|exact Hrest|].
      { rewrite !str_app_length in Hlen. lia. }
      exists (("{" +:+ body +:+ "}") +:+ before), body', after', document.
      split; [symmetry; apply str_app_assoc|]. split; [reflexivity|].
      split; [exact Hbody'|]. split; [|exact Hloads'].
      by eapply passed_group.
  - cbn [findall_json_pattern]. rewrite Hmatch. intros Hrest.
    destruct (IH t) as (before & body & after & document & -> & ->
                        & Hbody & Hpassed & Hloads); [lia|exact Hrest|].
    exists (String c before), body, after, document.
    split; [reflexivity|]. split; [reflexivity|]. split; [exact Hbody|].
    split; [|exact Hloads].
    destruct (Ascii.eqb_spec c "{") as [->|Hc]; [|by apply passed_char].
    apply passed_stray; [|exact Hpassed].
    by apply match_json_pattern_stray.
Qed.

Lemma pattern_payload_passed_over py content payload :
  search_json_block (strip content) = None ->
  startswith "{" (strip content) && endswith "}" (strip content) = false ->
  _extract_json_from_response py content
    = Return (Some payload, ParseMode.JSON) ->
  exists before body after document,
    strip content = before +:+ ("{" +:+ body +:+ "}") +:+ after /\
    payload = "{" +:+ body +:+ "}" /\
    flat_body body /\
    passed_over py (("{" +:+ body +:+ "}") +:+ after) before /\
    json_loads py (json_depth_extracting py) payload = Loaded document.
Proof.
  intros Hblock Hwhole. unfold _extract_json_from_response.
  rewrite Hblock, Hwhole.
  destruct (first_decodable py _) as [[m|]|e] eqn:Hfound;
    cbn [mbind Outcome_bind].
  - intros [= <-]. by eapply first_decodable_found.
  - destruct (existsb _ _); discriminate.
  - discriminate.
Qed.

(** C7, as stated: a balanced-brace object that parses, found anywhere in a
    text with no fenced block and not itself a brace-delimited object, would
    be the payload whatever its nesting.  With a third level of braces the
    pattern cannot match at the outer brace, and the payload is an inner
    object. *)
Lemma C7_counterexample :
  ~ (forall py content before object after document,
       strip content = before +:+ object +:+ after ->
       startswith "{" object = true -> endswith "}" object = true ->
       balanced 0 object = true ->
       json_loads py (json_depth_extracting py) object = Loaded document ->
       search_json_block (strip content) = None ->
       startswith "{" (strip content) && endswith "}" (strip content) = false ->
       _extract_json_from_response py content
         = Return (Some object, ParseMode.JSON)).
Proof.
  intros H.
  pose (object := "{" +:+ quoted "a" +:+ ":{" +:+ quoted "b" +:+ ":{"
                  +:+ quoted "c" +:+ ":1}}}").
  specialize (H cpython ("see " +:+ object +:+ " ok") "see " object " ok"
                (JObject [("a", JObject [("b", JObject [("c", JNumber "1")])])])).
  assert (Hinner : _extract_json_from_response cpython
                     ("see " +:+ object +:+ " ok")
            = Return (Some ("{" +:+ quoted "b" +:+ ":{" +:+ quoted "c"
                            +:+ ":1}}"),
                      ParseMode.JSON)) by (vm_compute; reflexivity).
  rewrite Hinner in H.
  assert (Hne : Return (Some ("{" +:+ quoted "b" +:+ ":{" +:+ quoted "c"
                              +:+ ":1}}"),
                        ParseMode.JSON)
                <> Return (Some object, ParseMode.JSON) :> Outcome _)
    by (vm_compute; discriminate).
  apply Hne, H.
  - vm_compute. reflexivity.
  - reflexivity.
  - vm_compute. reflexivity.
  - vm_compute. reflexivity.
  - vm_compute. reflexivity.
  - vm_compute. reflexivity.
  - vm_compute. reflexivity.
Qed.

(** C7, amended: when the stripped text has no fenced block and is not
    itself brace-delimited, and it holds an object whose braces nest at most
    one level deep and which parses as structured data, and every opening
    brace that the search meets before that object either starts no brace
    group nested at most one level deep or starts one that the decoder
    rejects, extraction returns mode json with that object as payload. *)
Theorem C7_flat_object_extracted py content before body after document :
  strip content = before +:+ ("{" +:+ body +:+ "}") +:+ after ->
  passed_over py (("{" +:+ body +:+ "}") +:+ after) before ->
  flat_body body ->
  json_loads py (json_depth_extracting py) ("{" +:+ body +:+ "}")
    = Loaded document ->
  search_json_block (strip content) = None ->
  startswith "{" (strip content) && endswith "}" (strip content) = false ->
  _extract_json_from_response py content
    = Return (Some ("{" +:+ body +:+ "}"), ParseMode.JSON).
Proof.
  intros Hstrip Hbefore Hbody Hloads Hblock Hwhole.
  unfold _extract_json_from_response. rewrite Hblock, Hwhole, Hstrip.
  rewrite (first_decodable_passed_over _ _ _ Hbefore).
  rewrite findall_json_pattern_flat by done.
  cbn [first_decodable]. rewrite Hloads. reflexivity.
Qed.

(** An object after a brace group that does not decode and a brace that is
    never closed. *)
Lemma C7_witness :
  let object := "{" +:+ quoted "a" +:+ ":1}" in
  _extract_json_from_response cpython
    ("x {bad} y { z " +:+ object +:+ " w")
    = Return (Some object, ParseMode.JSON).
Proof.
  intros object.
  apply (C7_flat_object_extracted cpython _ "x {bad} y { z "
           (quoted "a" +:+ ":1") " w" (JObject [("a", JNumber "1")])).
  - vm_compute. reflexivity.
  - do 2 (apply passed_char; [discriminate|]).
    apply (passed_group cpython _ "bad" (decode_error cpython "{bad}")
             " y { z ");
      [by apply flat_run|vm_compute; reflexivity|].
    do 3 (apply passed_char; [discriminate|]).
    apply passed_stray;
      [apply match_json_pattern_stray; vm_compute; reflexivity|].
    do 3 (apply passed_char; [discriminate|]).
    apply passed_end.
  - by apply flat_run.
  - vm_compute. reflexivity.
  - vm_compute. reflexivity.
  - vm_compute. reflexivity.
Defined.

(** * Further properties *)
(** ** The store *)

Lemma create_workflow_state_run i f d p m r w :
  create_workflow_state i f d p m r w =
  let state := initial_state i f d p m r (isoformat (clock w)) in
  (Return state,
   {| _active_workflows := <[i := state]> (_active_workflows w);
      clock := S (clock w) |}).
Proof. reflexivity. Qed.

Lemma reset_workflow_run i w :
  reset_workflow i w =
  match _active_workflows w !! i with
  | None => (Raise (ValueError ("Workflow " ++ i ++ " not found")), w)
  | Some state =>
      if decide (state = ∅) then
        (Raise (ValueError ("Workflow " ++ i ++ " not found")), w)
      else update_workflow_state i reset_updates w
  end.
Proof.
  unfold reset_workflow, get_workflow_state.
  unfold mbind, M_bind, bind, get_store, mret, M_ret, ret. simpl.
  destruct (_active_workflows w !! i) as [st|]; [|done].
  by destruct (decide (st = ∅)).
Qed.

Lemma add_conversation_message_run i role0 content0 meta w :
  add_conversation_message i role0 content0 meta w =
  match _active_workflows w !! i with
  | None => (Raise (ValueError ("Workflow " ++ i ++ " not found")), w)
  | Some state =>
      if decide (state = ∅) then
        (Raise (ValueError ("Workflow " ++ i ++ " not found")), w)
      else
        let now := isoformat (clock w) in
        let w1 := {| _active_workflows := _active_workflows w;
                     clock := S (clock w) |} in
        match state !! "conversation_history" with
        | None => (Raise (KeyError "conversation_history"), w1)
        | Some (VMessages l) =>
            update_workflow_state i
              [("conversation_history",
                VMessages (l ++ [{| role := role0; content := content0;
                                    timestamp := now; metadata := meta |}]))]
              w1
        | Some v =>
            (Raise (Exception ("object has no attribute 'copy': " ++ fmt v)), w1)
        end
  end.
Proof.
  unfold add_conversation_message, get_workflow_state.
  unfold mbind, M_bind, bind, get_store, mret, M_ret, ret, lift, getitem,
    utcnow_isoformat. simpl.
  destruct (_active_workflows w !! i) as [st|]; [|done].
  destruct (decide (st = ∅)); [done|].
  destruct (st !! "conversation_history") as [[]|]; reflexivity.
Qed.

(** X1: a call of [update_workflow_state], [transition_to_phase],
    [set_pending_approval], [handle_user_approval] or the reset that raises
    has changed nothing: the manager is as it was before the call. *)
Theorem X1_raising_call_changes_nothing w e w' :
  (forall i u, update_workflow_state i u w = (Raise e, w') -> w' = w) /\
  (forall i p s, transition_to_phase i p s w = (Raise e, w') -> w' = w) /\
  (forall i p c, set_pending_approval i p c w = (Raise e, w') -> w' = w) /\
  (forall i a f, handle_user_approval i a f w = (Raise e, w') -> w' = w) /\
  (forall i, reset_workflow i w = (Raise e, w') -> w' = w).
Proof.
  assert (Hup : forall i u, update_workflow_state i u w = (Raise e, w') -> w' = w).
  { intros i u. rewrite update_workflow_state_run.
    destruct (_active_workflows w !! i); [discriminate|]. by intros [= _ <-]. }
  repeat split.
  - exact Hup.
  - intros i p s. apply Hup.
  - intros i p c. unfold set_pending_approval.
    destruct (status_map p); [apply Hup|]. by intros [= _ <-].
  - intros i a f. rewrite handle_user_approval_run.
    destruct (_active_workflows w !! i) as [st|]; [|by intros [= _ <-]].
    destruct (decide (st = ∅)); [by intros [= _ <-]|].
    destruct (st !! "pending_approval") as [pv|]; [|by intros [= _ <-]].
    destruct (negb (truthy pv)); [by intros [= _ <-]|]. apply Hup.
  - intros i. rewrite reset_workflow_run.
    destruct (_active_workflows w !! i) as [st|]; [|by intros [= _ <-]].
    destruct (decide (st = ∅)); [by intros [= _ <-]|]. apply Hup.
Qed.

(** An approval asked for a workflow that was never created. *)
Lemma X1_witness :
  handle_user_approval "ghost" WorkflowAction.APPROVE None started
    = (Raise (ValueError "Workflow ghost not found"), started).
Proof.
  assert (Hrun : exists e w',
    handle_user_approval "ghost" WorkflowAction.APPROVE None started
      = (Raise e, w') /\ e = ValueError "Workflow ghost not found").
  { rewrite handle_user_approval_run.
    assert (Hl : _active_workflows started !! "ghost" = None)
      by (vm_compute; reflexivity).
    rewrite Hl. by eexists; eexists. }
  destruct Hrun as (e & w' & Hrun & ->).
  rewrite Hrun. f_equal.
  exact (proj1 (proj2 (proj2 (proj2 (X1_raising_call_changes_nothing
           started _ w')))) "ghost" WorkflowAction.APPROVE None Hrun).
Defined.

(** X2: a call of the manager made on one workflow leaves the record of
    every other workflow as it was, whether the call returns or raises. *)
Theorem X2_other_workflows_untouched op w target other :
  op_target op = Some target ->
  other <> target ->
  _active_workflows (run_op op w) !! other = _active_workflows w !! other.
Proof.
  intros Ht Hne.
  assert (Hup : forall u w0,
    _active_workflows (update_workflow_state target u w0).2 !! other
      = _active_workflows w0 !! other).
  { intros u w0. rewrite update_workflow_state_run.
    destruct (_active_workflows w0 !! target); [|done].
    simpl. by rewrite lookup_insert_ne. }
  destruct op; simpl in Ht; try discriminate; injection Ht as ->; simpl.
  - by rewrite lookup_insert_ne.
  - apply Hup.
  - apply Hup.
  - unfold set_pending_approval. destruct (status_map phase); [apply Hup|done].
  - rewrite handle_user_approval_run.
    destruct (_active_workflows w !! target) as [st|]; [|done].
    destruct (decide (st = ∅)); [done|].
    destruct (st !! "pending_approval") as [pv|]; [|done].
    destruct (negb (truthy pv)); [done|]. apply Hup.
  - rewrite add_conversation_message_run.
    destruct (_active_workflows w !! target) as [st|]; [|done].
    destruct (decide (st = ∅)); [done|]. cbv zeta.
    destruct (st !! "conversation_history") as [[]|]; try done.
    by rewrite Hup.
  - unfold cleanup_workflow.
    destruct (_active_workflows w !! target); [|done].
    simpl. by rewrite lookup_delete_ne.
  - rewrite reset_workflow_run.
    destruct (_active_workflows w !! target) as [st|]; [|done].
    destruct (decide (st = ∅)); [done|]. apply Hup.
Qed.

(** A second workflow is created and approved; the first one is as it was. *)
Lemma X2_witness :
  let w := run_op (OpCreate "other" "Search" "Full text search" "openai"
                     "gpt-4-turbo-preview" false) started in
  _active_workflows
    (run_op (OpSetPendingApproval "other" "requirements" "# R") w) !! "wf"
  = _active_workflows w !! "wf".
Proof.
  intros w.
  apply (X2_other_workflows_untouched _ w "other" "wf"); [reflexivity|discriminate].
Defined.

(** X3: creating a workflow stores the initial record under its id, in place
    of any record that was there; [get_workflow_state] then returns it;
    [cleanup_workflow] removes it and answers true, after which
    [get_workflow_state] answers [None] and a second cleanup answers false
    and changes nothing. *)
Theorem X3_create_get_cleanup i f d p m r w :
  let state := initial_state i f d p m r (isoformat (clock w)) in
  let w1 := (create_workflow_state i f d p m r w).2 in
  let w2 := (cleanup_workflow i w1).2 in
  (create_workflow_state i f d p m r w).1 = Return state /\
  get_workflow_state i w1 = (Return (Some state), w1) /\
  (cleanup_workflow i w1).1 = Return true /\
  get_workflow_state i w2 = (Return None, w2) /\
  cleanup_workflow i w2 = (Return false, w2).
Proof.
  intros state w1 w2.
  assert (H1 : _active_workflows w1 !! i = Some state)
    by (unfold w1; rewrite create_workflow_state_run; apply lookup_insert_eq).
  assert (H2 : _active_workflows w2 !! i = None).
  { unfold w2, cleanup_workflow. rewrite H1. simpl. apply lookup_delete_eq. }
  split; [reflexivity|].
  split; [unfold get_workflow_state, mbind, M_bind, bind, get_store, mret,
            M_ret, ret; by rewrite H1|].
  split; [unfold cleanup_workflow; by rewrite H1|].
  split; [unfold get_workflow_state, mbind, M_bind, bind, get_store, mret,
            M_ret, ret; by rewrite H2|].
  unfold cleanup_workflow at 1. by rewrite H2.
Qed.

(** X4: on a workflow that exists, [update_workflow_state] returns and stores
    a record with the same keys plus [updated_at]; [updated_at] holds the
    time of the call, every other key that was present and is supplied holds
    the value supplied last for it, and every other key is as it was. *)
Theorem X4_update_merges_existing_keys i updates w state :
  _active_workflows w !! i = Some state ->
  exists state',
    update_workflow_state i updates w =
      (Return state',
       {| _active_workflows := <[i := state']> (_active_workflows w);
          clock := S (clock w) |}) /\
    dom state' = dom state ∪ {["updated_at"]} /\
    state' !! "updated_at" = Some (VStr (isoformat (clock w))) /\
    forall key, key <> "updated_at" ->
      state' !! key =
      match state !! key with
      | Some v => Some (default v (last_binding key updates))
      | None => None
      end.
Proof.
  intros Hst. rewrite update_workflow_state_run, Hst. cbv zeta.
  eexists; split; [reflexivity|].
  assert (Hk : forall key, key <> "updated_at" ->
    updated state updates (isoformat (clock w)) !! key =
    match state !! key with
    | Some v => Some (default v (last_binding key updates))
    | None => None
    end).
  { intros key Hne. rewrite updated_lookup by done. by destruct (state !! key). }
  split; [|split; [apply lookup_insert_eq|exact Hk]].
  apply set_eq. intros key. rewrite elem_of_union, elem_of_singleton, !elem_of_dom.
  destruct (decide (key = "updated_at")) as [->|Hne].
  - unfold updated. rewrite lookup_insert_eq. split; [by right|by eexists].
  - rewrite Hk by done. destruct (state !! key); split; try done;
      first [by left | intros [[? ?]|?]; done].
Qed.

(** A phase change and an unknown key on a started workflow. *)
Lemma X4_witness :
  exists state',
    (update_workflow_state "wf"
       [("status", VStatus WorkflowStatus.GENERATING_DESIGN);
        ("colour", VStr "red")] started).1 = Return state' /\
    state' !! "status" = Some (VStatus WorkflowStatus.GENERATING_DESIGN) /\
    state' !! "colour" = None.
Proof.
  destruct (X4_update_merges_existing_keys "wf"
              [("status", VStatus WorkflowStatus.GENERATING_DESIGN);
               ("colour", VStr "red")] started (current_state started "wf"))
    as (st' & Hrun & _ & _ & Hk).
  - apply current_state_lookup. vm_compute; reflexivity.
  - exists st'. rewrite Hrun. split; [reflexivity|].
    rewrite !Hk by discriminate. split; vm_compute; reflexivity.
Defined.

(** ** What the life of a record keeps *)

Lemma last_binding_unbound key updates :
  key ∉ updates.*1 -> last_binding key updates = None.
Proof.
  induction updates as [|[k v] rest IH]; [done|].
  rewrite fmap_cons, not_elem_of_cons. simpl. intros [Hne Hrest].
  rewrite IH by done. destruct (String.eqb_spec k key); congruence.
Qed.

Lemma ends_with_approved_app s : ends_with_approved (s +:+ "_approved") = true.
Proof.
  induction s as [|c s IH]; [reflexivity|].
  change (String c s +:+ "_approved") with (String c (s +:+ "_approved")).
  cbn [ends_with_approved]. rewrite IH. apply orb_true_r.
Qed.

Lemma approved_field_other s key :
  ends_with_approved key = false ->
  String.eqb (s +:+ "_approved") key = false.
Proof.
  intros Hk. apply String.eqb_neq. intros <-.
  by rewrite ends_with_approved_app in Hk.
Qed.

Lemma approval_updates_unbound action feedback pending key :
  ends_with_approved key = false ->
  key ∉ transition_keys ->
  last_binding key (approval_updates action feedback pending) = None.
Proof.
  intros Happ Hkey.
  assert (Hne : forall k, k ∈ transition_keys -> String.eqb k key = false).
  { intros k Hk. apply String.eqb_neq. by intros ->. }
  unfold approval_updates.
  destruct action; repeat (destruct (eq_str pending _));
    cbn [last_binding app];
    rewrite ?approved_field_other by done;
    rewrite ?Hne by (unfold transition_keys; rewrite !elem_of_cons; tauto);
    reflexivity.
Qed.

Section Evolution.
Context (R : gmap string Value -> gmap string Value -> Prop).
Hypothesis R_refl : forall state, R state state.
Hypothesis R_trans : forall a b c, R a b -> R b c -> R a c.

Lemma evolves_idle {A} (m : M A) :
  (forall w, _active_workflows (m w).2 = _active_workflows w) ->
  evolves R m.
Proof. intros Hm w i st'. rewrite Hm. eauto. Qed.

Lemma evolves_ret {A} (a : A) : evolves R (ret a).
Proof. by apply evolves_idle. Qed.

Lemma evolves_raise {A} e : evolves R (@raise A e).
Proof. by apply evolves_idle. Qed.

Lemma evolves_lift {A} (o : Outcome A) : evolves R (lift o).
Proof. by apply evolves_idle. Qed.

Lemma evolves_get_store : evolves R get_store.
Proof. by apply evolves_idle. Qed.

Lemma evolves_utcnow : evolves R utcnow_isoformat.
Proof. by apply evolves_idle. Qed.

Lemma evolves_get_workflow_state i : evolves R (get_workflow_state i).
Proof. by apply evolves_idle. Qed.

Lemma evolves_read s : evolves R (read s).
Proof. destruct s; by apply evolves_idle. Qed.

Lemma evolves_bind {A B} (m : M A) (k : A -> M B) :
  evolves R m -> (forall a, evolves R (k a)) -> evolves R (m ≫= k).
Proof.
  intros Hm Hk w i st'. unfold mbind, M_bind, bind.
  specialize (Hm w i). destruct (m w) as [[a|e] w1]; simpl in *;
    [|apply Hm].
  intros Hst'. destruct (Hk a w1 i st' Hst') as (st1 & Hst1 & HR1).
  destruct (Hm st1 Hst1) as (st & Hst & HR). eauto.
Qed.

Lemma evolves_item s k : evolves R (item s k).
Proof.
  apply evolves_bind; [apply evolves_read|]. intros; apply evolves_lift.
Qed.

Lemma evolves_try_except {A} s (first : M StateVar)
    (rest : StateVar -> M A) handler :
  evolves R first ->
  (forall s', evolves R (rest s')) ->
  (forall s' e, evolves R (handler s' e)) ->
  evolves R (try_except s first rest handler).
Proof.
  intros Hf Hr Hh w i st'. unfold try_except.
  specialize (Hf w i). destruct (first w) as [[s'|e] w1]; simpl in Hf.
  - specialize (Hr s' w1 i).
    destruct (rest s' w1) as [[a|e] w2]; simpl in *.
    + intros Hst'. destruct (Hr st' Hst') as (st1 & Hst1 & HR1).
      destruct (Hf st1 Hst1) as (st & Hst & HR). eauto.
    + intros Hst'. destruct (Hh s' e w2 i st' Hst') as (st2 & Hst2 & HR2).
      destruct (Hr st2 Hst2) as (st1 & Hst1 & HR1).
      destruct (Hf st1 Hst1) as (st & Hst & HR). eauto.
  - intros Hst'. destruct (Hh s e w1 i st' Hst') as (st1 & Hst1 & HR1).
    destruct (Hf st1 Hst1) as (st & Hst & HR). eauto.
Qed.

Lemma evolves_cleanup i : evolves R (cleanup_workflow i).
Proof.
  intros w j st'. unfold cleanup_workflow.
  destruct (_active_workflows w !! i); simpl; [|eauto].
  intros Hj. apply lookup_delete_Some in Hj as [_ Hj]. eauto.
Qed.

Lemma evolves_update i updates :
  update_respects R updates -> evolves R (update_workflow_state i updates).
Proof.
  intros Hu w j st'. rewrite update_workflow_state_run.
  destruct (_active_workflows w !! i) as [st|] eqn:Hst; simpl; [|eauto].
  destruct (decide (i = j)) as [->|Hne].
  - rewrite lookup_insert_eq. intros [= <-]. eauto.
  - rewrite lookup_insert_ne by done. eauto.
Qed.

(** The relation looks at one key only, which the transitions and the
    nodes never write; what the approval gate, the message log and the
    reset make of it is given. *)
Context (key : string).
Hypothesis R_frame : forall state state', same_at key state state' -> R state state'.
Hypothesis key_free : key ∉ transition_keys.
Hypothesis R_approval :
  forall action feedback pending,
    update_respects R (approval_updates action feedback pending).
Hypothesis R_message :
  forall l message,
    forall state now,
      state !! "conversation_history" = Some (VMessages l) ->
      R state (updated state
                 [("conversation_history", VMessages (l ++ [message]))] now).

Lemma respects_unbound updates :
  updates.*1 ⊆ transition_keys -> update_respects R updates.
Proof.
  intros Hsub st now. apply R_frame. unfold same_at.
  assert (key <> "updated_at").
  { intros ->. apply key_free. unfold transition_keys.
    rewrite !elem_of_cons. tauto. }
  rewrite updated_lookup by done.
  rewrite last_binding_unbound by (intros Hin; apply key_free; by apply Hsub).
  by destruct (st !! key).
Qed.

Ltac subkeys :=
  unfold transition_keys; intros ?k; rewrite ?fmap_cons, ?fmap_nil; simpl;
  rewrite !elem_of_cons, ?elem_of_nil; intuition (subst; auto).

Ltac unbound := solve [apply respects_unbound; subkeys].

Lemma evolves_update_and_rebind v u :
  u.*1 ⊆ transition_keys -> evolves R (update_and_rebind v u).
Proof.
  intros Hu. unfold update_and_rebind.
  apply evolves_bind; [apply evolves_lift|].
  intros [k|]; [|apply evolves_raise].
  apply evolves_bind; [|intros; apply evolves_ret].
  apply evolves_update. by apply respects_unbound.
Qed.

Lemma evolves_transition i p s : evolves R (transition_to_phase i p s).
Proof. unfold transition_to_phase. apply evolves_update. unbound. Qed.

Lemma evolves_set_pending i p c : evolves R (set_pending_approval i p c).
Proof.
  unfold set_pending_approval.
  destruct (status_map p) as [s|] eqn:Hmap; [|apply evolves_raise].
  apply evolves_update.
  apply status_map_Some in Hmap as [[-> ->]|[[-> ->]|[-> ->]]]; unbound.
Qed.

Lemma evolves_handle i a f : evolves R (handle_user_approval i a f).
Proof.
  intros w j st'. rewrite handle_user_approval_run.
  destruct (_active_workflows w !! i) as [st|] eqn:Hst; [|eauto].
  destruct (decide (st = ∅)); [eauto|].
  destruct (st !! "pending_approval") as [pv|]; [|eauto].
  destruct (negb (truthy pv)); [eauto|].
  by apply evolves_update.
Qed.

Lemma evolves_add_message i r c m : evolves R (add_conversation_message i r c m).
Proof.
  intros w j st'. rewrite add_conversation_message_run.
  destruct (_active_workflows w !! i) as [st|] eqn:Hst; [|eauto].
  destruct (decide (st = ∅)); [eauto|]. cbv zeta.
  destruct (st !! "conversation_history") as [[]|] eqn:Hh; try (simpl; eauto).
  rewrite update_workflow_state_run. cbn [_active_workflows]. rewrite Hst.
  cbv zeta. cbn [snd _active_workflows].
  destruct (decide (i = j)) as [->|Hne].
  - rewrite lookup_insert_eq. intros [= <-]. eexists; split; [done|].
    by apply R_message.
  - rewrite lookup_insert_ne by done. eauto.
Qed.

Ltac evolve_step :=
  lazymatch goal with
  | |- evolves _ (mbind _ _) => apply evolves_bind; [|intros ?]
  | |- evolves _ (ret _) => apply evolves_ret
  | |- evolves _ (mret _) => apply evolves_ret
  | |- evolves _ (raise _) => apply evolves_raise
  | |- evolves _ (lift _) => apply evolves_lift
  | |- evolves _ (item _ _) => apply evolves_item
  | |- evolves _ (read _) => apply evolves_read
  | |- evolves _ (update_and_rebind _ _) =>
      apply evolves_update_and_rebind; solve [subkeys]
  | |- evolves _ (with_key _ _) => unfold with_key
  | |- evolves _ (add_conversation_message _ _ _ _) =>
      apply evolves_add_message
  | |- evolves _ (set_pending_approval _ _ _) => apply evolves_set_pending
  | |- evolves _ (try_except _ _ _ _) =>
      apply evolves_try_except; [| intros ? | intros ? ?]
  | |- evolves _ (match ?x with _ => _ end) => destruct x
  end.

Ltac evolve := repeat evolve_step.

Lemma evolves_except_generation s e : evolves R (except_generation s e).
Proof. unfold except_generation. evolve. Qed.

Lemma evolves_invoke_and_arm g phase msgs s :
  evolves R (invoke_and_arm g phase msgs s).
Proof. unfold invoke_and_arm. evolve. Qed.

Lemma evolves_append_if s k l c : evolves R (append_if s k l c).
Proof. unfold append_if. evolve. Qed.

Lemma evolves_generate_requirements g s :
  evolves R (generate_requirements_node g s).
Proof.
  unfold generate_requirements_node. evolve;
    first [apply evolves_invoke_and_arm | apply evolves_except_generation].
Qed.

Lemma evolves_generate_design g s : evolves R (generate_design_node g s).
Proof.
  unfold generate_design_node. evolve;
    first [ apply evolves_invoke_and_arm | apply evolves_except_generation
          | apply evolves_append_if ].
Qed.

Lemma evolves_generate_tasks g s : evolves R (generate_tasks_node g s).
Proof.
  unfold generate_tasks_node. evolve;
    first [ apply evolves_invoke_and_arm | apply evolves_except_generation
          | apply evolves_append_if ].
Qed.

Lemma evolves_generate_final_documents r s :
  evolves R (generate_final_documents_node r s).
Proof. unfold generate_final_documents_node. evolve. Qed.

Lemma evolves_reset i :
  update_respects R reset_updates -> evolves R (reset_workflow i).
Proof.
  intros Hreset. unfold reset_workflow.
  apply evolves_bind; [apply evolves_get_workflow_state|].
  intros [st0|]; [|apply evolves_raise].
  destruct (decide (st0 = ∅)); [apply evolves_raise|].
  by apply evolves_update.
Qed.

Lemma progress_op_evolves op w i state' :
  progress_op op ->
  _active_workflows (run_op op w) !! i = Some state' ->
  exists state, _active_workflows w !! i = Some state /\ R state state'.
Proof.
  intros Hop. destruct op; simpl in Hop; try done; simpl.
  - apply evolves_transition.
  - apply evolves_set_pending.
  - apply evolves_handle.
  - apply evolves_add_message.
  - apply evolves_cleanup.
  - apply evolves_generate_requirements.
  - apply evolves_generate_design.
  - apply evolves_generate_tasks.
  - apply evolves_generate_final_documents.
Qed.

Lemma lifecycle_op_evolves op w i state' :
  update_respects R reset_updates ->
  lifecycle_op op ->
  _active_workflows (run_op op w) !! i = Some state' ->
  exists state, _active_workflows w !! i = Some state /\ R state state'.
Proof.
  intros Hreset Hop. destruct op; simpl in Hop; try done;
    try (by apply progress_op_evolves).
  simpl. by apply evolves_reset.
Qed.

Lemma lifecycle_ops_evolve ops :
  update_respects R reset_updates ->
  Forall lifecycle_op ops ->
  forall w i state',
    _active_workflows (run_ops ops w) !! i = Some state' ->
    exists state, _active_workflows w !! i = Some state /\ R state state'.
Proof.
  intros Hreset. induction ops as [|op ops IH]; intros Hops w i st' Hst'.
  - simpl in Hst'. eauto.
  - inversion Hops; subst. simpl in Hst'.
    destruct (IH ltac:(done) _ _ _ Hst') as (st1 & Hst1 & HR1).
    destruct (lifecycle_op_evolves op w i st1 Hreset ltac:(done) Hst1)
      as (st & Hst & HR). eauto.
Qed.

Lemma progress_ops_evolve ops :
  Forall progress_op ops ->
  forall w i state',
    _active_workflows (run_ops ops w) !! i = Some state' ->
    exists state, _active_workflows w !! i = Some state /\ R state state'.
Proof.
  induction ops as [|op ops IH]; intros Hops w i st' Hst'.
  - simpl in Hst'. eauto.
  - inversion Hops; subst. simpl in Hst'.
    destruct (IH ltac:(done) _ _ _ Hst') as (st1 & Hst1 & HR1).
    destruct (progress_op_evolves op w i st1 ltac:(done) Hst1)
      as (st & Hst & HR). eauto.
Qed.
End Evolution.

Lemma current_state_stored w workflow_id state :
  _active_workflows w !! workflow_id = Some state ->
  state = current_state w workflow_id.
Proof. intros H. unfold current_state. by rewrite H. Qed.

Lemma same_at_frame_approval key action feedback pending :
  ends_with_approved key = false ->
  key ∉ transition_keys ->
  update_respects (same_at key) (approval_updates action feedback pending).
Proof.
  intros Happ Hkey st now. unfold same_at.
  assert (key <> "updated_at").
  { intros ->. apply Hkey. unfold transition_keys. rewrite !elem_of_cons. tauto. }
  rewrite updated_lookup, approval_updates_unbound by done.
  by destruct (st !! key).
Qed.

Lemma same_at_frame_single key k v :
  key <> k -> key <> "updated_at" -> update_respects (same_at key) [(k, v)].
Proof.
  intros Hne Hup st now. unfold same_at. rewrite updated_lookup by done.
  simpl. destruct (String.eqb_spec k key); [congruence|].
  by destruct (st !! key).
Qed.

Lemma same_at_frame_unbound key updates :
  key ∉ updates.*1 -> key <> "updated_at" ->
  update_respects (same_at key) updates.
Proof.
  intros Hk Hup st now. unfold same_at.
  rewrite updated_lookup, last_binding_unbound by done.
  by destruct (st !! key).
Qed.

Ltac closed_keys :=
  unfold transition_keys; rewrite ?fmap_cons, ?fmap_nil; simpl;
  rewrite !elem_of_cons, ?elem_of_nil; intuition discriminate.

Lemma same_at_kept key ops :
  key ∉ transition_keys ->
  ends_with_approved key = false ->
  key <> "conversation_history" ->
  key ∉ reset_updates.*1 ->
  Forall lifecycle_op ops ->
  forall w i state',
    _active_workflows (run_ops ops w) !! i = Some state' ->
    exists state, _active_workflows w !! i = Some state /\ same_at key state state'.
Proof.
  intros Hfree Happ Hhist Hreset.
  assert (Hup : key <> "updated_at").
  { intros ->. apply Hfree. unfold transition_keys. rewrite !elem_of_cons. tauto. }
  apply (lifecycle_ops_evolve (same_at key)) with (key := key).
  - reflexivity.
  - unfold same_at; congruence.
  - auto.
  - exact Hfree.
  - intros. by apply same_at_frame_approval.
  - intros. by apply same_at_frame_single.
  - by apply same_at_frame_unbound.
Qed.

Lemma identity_key_kept key ops :
  key ∈ identity_keys ->
  Forall lifecycle_op ops ->
  forall w i state',
    _active_workflows (run_ops ops w) !! i = Some state' ->
    exists state, _active_workflows w !! i = Some state /\ same_at key state state'.
Proof.
  intros Hkey. unfold identity_keys in Hkey.
  repeat (apply elem_of_cons in Hkey as [->|Hkey];
    [apply same_at_kept;
       [closed_keys|reflexivity|discriminate|unfold reset_updates; closed_keys]|]).
  by apply elem_of_nil in Hkey.
Qed.

(** X5: through any calls other than a new creation and a raw update
    (transitions, approvals, messages, reset, cleanup, generation and
    final-document nodes) every record that remains has kept its
    [workflow_id], [feature_name], [initial_description], [llm_provider],
    [model_name], research settings and [created_at]. *)
Theorem X5_identity_is_immutable ops w i state' :
  Forall lifecycle_op ops ->
  _active_workflows (run_ops ops w) !! i = Some state' ->
  exists state,
    _active_workflows w !! i = Some state /\
    forall key, key ∈ identity_keys -> state' !! key = state !! key.
Proof.
  intros Hops Hst'.
  destruct (identity_key_kept "workflow_id" ops ltac:(unfold identity_keys; rewrite !elem_of_cons; tauto)
              Hops w i state' Hst') as (st & Hst & _).
  exists st. split; [done|]. intros key Hkey.
  destruct (identity_key_kept key ops Hkey Hops w i state' Hst')
    as (st0 & Hst0 & Hsame).
  rewrite Hst in Hst0. by injection Hst0 as <-.
Qed.

(** After a failed generation: a successful one, an approval and a reset. *)
Lemma X5_witness :
  let w1 := run_op (OpGenerateRequirements (failing_client "provider down")
                      (current_state started "wf")) started in
  let w2 := run_ops [OpGenerateRequirements (answering_client "# Requirements")
                       (current_state w1 "wf");
                     OpHandleUserApproval "wf" WorkflowAction.APPROVE None;
                     OpReset "wf"] w1 in
  current_state w2 "wf" !! "feature_name" = Some (VStr "Login") /\
  current_state w2 "wf" !! "created_at" = current_state w1 "wf" !! "created_at".
Proof.
  intros w1 w2.
  destruct (X5_identity_is_immutable
              [OpGenerateRequirements (answering_client "# Requirements")
                 (current_state w1 "wf");
               OpHandleUserApproval "wf" WorkflowAction.APPROVE None;
               OpReset "wf"] w1 "wf" (current_state w2 "wf"))
    as (st & Hst & Hkeys).
  - repeat constructor.
  - apply (current_state_lookup w2 "wf"). vm_compute; reflexivity.
  - apply current_state_stored in Hst. subst st.
    split.
    + rewrite Hkeys by (unfold identity_keys; rewrite !elem_of_cons; tauto).
      vm_compute; reflexivity.
    + apply Hkeys. unfold identity_keys; rewrite !elem_of_cons; tauto.
Defined.

Lemma approval_updates_flag key action feedback pending :
  key ∈ approval_flags ->
  last_binding key (approval_updates action feedback pending) = None \/
  last_binding key (approval_updates action feedback pending)
    = Some (VBool true).
Proof.
  intros Hkey. unfold approval_flags in Hkey.
  repeat (apply elem_of_cons in Hkey as [->|Hkey];
    [unfold approval_updates;
     destruct action; repeat (destruct (eq_str pending _));
       cbn [last_binding app String.eqb Ascii.eqb Bool.eqb];
       try (destruct (String.eqb (fmt pending +:+ "_approved") _));
       auto|]).
  by apply elem_of_nil in Hkey.
Qed.

Lemma stays_approved_kept key ops :
  key ∈ approval_flags ->
  Forall progress_op ops ->
  forall w i state',
    _active_workflows (run_ops ops w) !! i = Some state' ->
    exists state,
      _active_workflows w !! i = Some state /\ stays_approved key state state'.
Proof.
  intros Hkey.
  assert (Hframe : forall st st', same_at key st st' -> stays_approved key st st')
    by (unfold same_at, stays_approved; congruence).
  assert (Hup : key <> "updated_at" /\ key <> "conversation_history" /\
                key ∉ transition_keys).
  { unfold approval_flags in Hkey.
    repeat (apply elem_of_cons in Hkey as [->|Hkey];
            [repeat split; try discriminate; closed_keys|]).
    by apply elem_of_nil in Hkey. }
  destruct Hup as (Hup & Hhist & Hfree).
  apply (progress_ops_evolve (stays_approved key)) with (key := key).
  - unfold stays_approved; auto.
  - unfold stays_approved; auto.
  - exact Hframe.
  - exact Hfree.
  - intros a f pv st now Htrue. rewrite updated_lookup, Htrue by done. simpl.
    by destruct (approval_updates_flag key a f pv Hkey) as [-> | ->].
  - intros l msg st now _. apply Hframe. by apply same_at_frame_single.
Qed.

(** X6: through transitions, approvals, messages, cleanup and the nodes
    (every call but a creation, a raw update and the reset), an approval
    flag of a record that is true stays true. *)
Theorem X6_approval_flags_never_regress ops w i state' key :
  Forall progress_op ops ->
  key ∈ approval_flags ->
  _active_workflows (run_ops ops w) !! i = Some state' ->
  exists state,
    _active_workflows w !! i = Some state /\
    (state !! key = Some (VBool true) -> state' !! key = Some (VBool true)).
Proof.
  intros Hops Hkey Hst'.
  exact (stays_approved_kept key ops Hkey Hops w i state' Hst').
Qed.

(** The requirements are approved; the design is generated, sent back for
    revision and rejected. *)
Lemma X6_witness :
  let w1 := run_ops [OpSetPendingApproval "wf" "requirements" "# R";
                     OpHandleUserApproval "wf" WorkflowAction.APPROVE None]
                    started in
  let w2 := run_ops [OpSetPendingApproval "wf" "design" "# D";
                     OpHandleUserApproval "wf" WorkflowAction.REQUEST_REVISION
                       (Some "shorter");
                     OpSetPendingApproval "wf" "design" "# D2";
                     OpHandleUserApproval "wf" WorkflowAction.REJECT None] w1 in
  current_state w1 "wf" !! "requirements_approved" = Some (VBool true) /\
  current_state w2 "wf" !! "requirements_approved" = Some (VBool true).
Proof.
  intros w1 w2.
  assert (H1 : current_state w1 "wf" !! "requirements_approved"
               = Some (VBool true)) by (vm_compute; reflexivity).
  split; [exact H1|].
  destruct (X6_approval_flags_never_regress
              [OpSetPendingApproval "wf" "design" "# D";
               OpHandleUserApproval "wf" WorkflowAction.REQUEST_REVISION
                 (Some "shorter");
               OpSetPendingApproval "wf" "design" "# D2";
               OpHandleUserApproval "wf" WorkflowAction.REJECT None]
              w1 "wf" (current_state w2 "wf") "requirements_approved")
    as (st & Hst & Hkeep).
  - repeat constructor.
  - unfold approval_flags; rewrite !elem_of_cons; tauto.
  - apply (current_state_lookup w2 "wf"). vm_compute; reflexivity.
  - apply current_state_stored in Hst. subst st. exact (Hkeep H1).
Defined.

(** X7: through any calls other than a new creation and a raw update, the
    conversation history of a record only grows at its end: the earlier
    messages stay, in order; the reset does not clear it. *)
Theorem X7_conversation_is_append_only ops w i state' :
  Forall lifecycle_op ops ->
  _active_workflows (run_ops ops w) !! i = Some state' ->
  exists state,
    _active_workflows w !! i = Some state /\
    forall l, state !! "conversation_history" = Some (VMessages l) ->
      exists l', state' !! "conversation_history" = Some (VMessages (l ++ l')).
Proof.
  intros Hops Hst'.
  assert (Hframe : forall st st',
             same_at "conversation_history" st st' -> history_extended st st').
  { unfold same_at, history_extended. intros st st' Heq l Hl.
    exists []. by rewrite app_nil_r, Heq. }
  apply (lifecycle_ops_evolve history_extended)
    with (key := "conversation_history") (ops := ops); try done.
  - intros st. apply Hframe. reflexivity.
  - intros a b c Hab Hbc l Hl. destruct (Hab l Hl) as [l1 Hl1].
    destruct (Hbc _ Hl1) as [l2 Hl2]. exists (l1 ++ l2)%list.
    by rewrite List.app_assoc.
  - closed_keys.
  - intros a f pv st now. apply Hframe.
    apply same_at_frame_approval; [reflexivity|closed_keys].
  - intros l msg st now Hl l0 Hl0. rewrite Hl in Hl0. injection Hl0 as <-.
    exists [msg]. rewrite updated_lookup, Hl by discriminate. reflexivity.
  - intros st now. apply Hframe.
    apply same_at_frame_unbound; [unfold reset_updates; closed_keys|done].
Qed.

(** A user message, a generated answer and a reset. *)
Lemma X7_witness :
  let w1 := run_op (OpAddConversationMessage "wf" "user" "Use OAuth" []) started in
  let w2 := run_ops [OpGenerateRequirements (answering_client "# Requirements")
                       (current_state w1 "wf");
                     OpReset "wf"] w1 in
  exists l',
    current_state w2 "wf" !! "conversation_history"
    = Some (VMessages
              ([{| role := "user"; content := "Use OAuth"; timestamp := "T+1";
                   metadata := [] |}] ++ l')).
Proof.
  intros w1 w2.
  destruct (X7_conversation_is_append_only
              [OpGenerateRequirements (answering_client "# Requirements")
                 (current_state w1 "wf");
               OpReset "wf"] w1 "wf" (current_state w2 "wf"))
    as (st & Hst & Hgrow).
  - repeat constructor.
  - apply (current_state_lookup w2 "wf"). vm_compute; reflexivity.
  - apply current_state_stored in Hst. subst st.
    apply Hgrow. vm_compute; reflexivity.
Defined.

(** ** The approval gate and the reset *)

Lemma approval_updates_keys action feedback pending key :
  key ∈ (approval_updates action feedback pending).*1 -> key ∈ gate_keys pending.
Proof.
  unfold approval_updates, gate_keys.
  destruct action; repeat (destruct (eq_str pending _));
    rewrite ?fmap_app, ?fmap_cons, ?fmap_nil; simpl;
    rewrite ?elem_of_app, !elem_of_cons, ?elem_of_nil; tauto.
Qed.

Lemma last_binding_bound key updates v :
  last_binding key updates = Some v -> key ∈ updates.*1.
Proof.
  intros H. destruct (decide (key ∈ updates.*1)) as [|Hout]; [done|].
  by rewrite last_binding_unbound in H.
Qed.

Lemma updated_record_lookup w workflow_id state updates state' key :
  _active_workflows w !! workflow_id = Some state ->
  _active_workflows (update_workflow_state workflow_id updates w).2
    !! workflow_id = Some state' ->
  key <> "updated_at" ->
  state' !! key = (fun v => default v (last_binding key updates)) <$> state !! key.
Proof.
  intros Hst. rewrite update_workflow_state_run, Hst. cbv zeta.
  cbn [snd _active_workflows]. rewrite lookup_insert_eq. intros [= <-] Hup.
  by apply updated_lookup.
Qed.

(** X8: whatever the action, and whether it returns or raises, a call of
    [handle_user_approval] changes nothing in the record but
    [last_user_action], [user_feedback], [pending_approval], [status],
    [current_phase], [updated_at] and the approval flag of the pending
    phase: the documents, the conversation, [retry_count] and [last_error]
    are as they were. *)
Theorem X8_approval_touches_gate_keys_only workflow_id action feedback w
    state state' key :
  _active_workflows w !! workflow_id = Some state ->
  _active_workflows
    (run_op (OpHandleUserApproval workflow_id action feedback) w)
    !! workflow_id = Some state' ->
  key ∉ gate_keys (default VNone (state !! "pending_approval")) ->
  state' !! key = state !! key.
Proof.
  intros Hst Hst' Hkey. cbn [run_op] in Hst'.
  rewrite handle_user_approval_run, Hst in Hst'.
  assert (Hsame : _active_workflows w !! workflow_id = Some state' ->
                  state' !! key = state !! key)
    by (rewrite Hst; by intros [= <-]).
  destruct (decide (state = ∅)); [by apply Hsame|].
  destruct (state !! "pending_approval") as [pending|] eqn:Hp;
    [|by apply Hsame].
  destruct (negb (truthy pending)); [by apply Hsame|].
  assert (Hup : key <> "updated_at").
  { intros ->. apply Hkey. unfold gate_keys. rewrite !elem_of_cons. tauto. }
  rewrite (updated_record_lookup _ _ _ _ _ key Hst Hst' Hup).
  rewrite last_binding_unbound
    by (intros Hin; apply Hkey; by apply approval_updates_keys in Hin).
  by destruct (state !! key).
Qed.

(** A revision of the tasks with feedback, after a failed attempt left its
    trace in [retry_count]. *)
Lemma X8_witness :
  let w := run_op (OpUpdate "wf" [("retry_count", VInt 2)]) tasks_pending in
  let w' := run_op (OpHandleUserApproval "wf" WorkflowAction.REQUEST_REVISION
                      (Some "split the tasks")) w in
  current_state w' "wf" !! "status"
    = Some (VStatus WorkflowStatus.GENERATING_TASKS) /\
  current_state w' "wf" !! "tasks_content" = Some (VStr "# Tasks") /\
  current_state w' "wf" !! "retry_count" = Some (VInt 2).
Proof.
  intros w w'. subst w'.
  set (w' := run_op _ w).
  assert (Hst : _active_workflows w !! "wf" = Some (current_state w "wf"))
    by (apply current_state_lookup; vm_compute; reflexivity).
  assert (Hst' : _active_workflows w' !! "wf" = Some (current_state w' "wf"))
    by (apply current_state_lookup; vm_compute; reflexivity).
  assert (Hp : current_state w "wf" !! "pending_approval" = Some (VStr "tasks"))
    by (vm_compute; reflexivity).
  split; [vm_compute; reflexivity|].
  split.
  - subst w'.
    rewrite (X8_approval_touches_gate_keys_only _ _ _ _ _ _ "tasks_content"
               Hst Hst').
    + vm_compute; reflexivity.
    + rewrite Hp. unfold gate_keys. simpl.
      rewrite !elem_of_cons, elem_of_nil. intuition discriminate.
  - subst w'.
    rewrite (X8_approval_touches_gate_keys_only _ _ _ _ _ _ "retry_count"
               Hst Hst').
    + vm_compute; reflexivity.
    + rewrite Hp. unfold gate_keys. simpl.
      rewrite !elem_of_cons, elem_of_nil. intuition discriminate.
Defined.

Lemma reset_updates_keys key :
  key ∈ reset_updates.*1 ->
  key ∈ ["status"; "current_phase"; "requirements_content"; "design_content";
         "tasks_content"; "requirements_approved"; "design_approved";
         "tasks_approved"; "pending_approval"; "user_feedback";
         "last_user_action"; "retry_count"; "last_error"; "generated_files"].
Proof. intros H. exact H. Qed.

Lemma initial_state_lookup i f d p m r now key :
  key ∈ reset_updates.*1 ->
  initial_state i f d p m r now !! key = last_binding key reset_updates.
Proof.
  intros Hkey. apply reset_updates_keys in Hkey.
  repeat (apply elem_of_cons in Hkey as [->|Hkey]; [vm_compute; reflexivity|]).
  by apply elem_of_nil in Hkey.
Qed.

(** X9: a reset leaves, under every key it writes, the value a newly
    created record has there, whatever that record was created with; every
    other key but [updated_at] keeps its value, the conversation and the
    creation time included. *)
Theorem X9_reset_restores_created_values workflow_id w state state' :
  _active_workflows w !! workflow_id = Some state ->
  _active_workflows (run_op (OpReset workflow_id) w) !! workflow_id
    = Some state' ->
  (forall key, key ∈ reset_updates.*1 -> is_Some (state !! key) ->
     forall i f d p m r now,
       state' !! key = initial_state i f d p m r now !! key) /\
  (forall key, key ∉ reset_updates.*1 -> key <> "updated_at" ->
     state' !! key = state !! key).
Proof.
  intros Hst Hst'. cbn [run_op] in Hst'.
  rewrite reset_workflow_run, Hst in Hst'.
  destruct (decide (state = ∅)) as [->|Hne].
  - cbn [snd] in Hst'. rewrite Hst in Hst'. injection Hst' as <-. split.
    + intros key _ [v Hv]. by rewrite lookup_empty in Hv.
    + reflexivity.
  - split.
    + intros key Hkey [v Hv] i f d p m r now.
      assert (Hup : key <> "updated_at").
      { intros ->. apply reset_updates_keys in Hkey. revert Hkey.
        rewrite !elem_of_cons, elem_of_nil. intuition discriminate. }
      rewrite (updated_record_lookup _ _ _ _ _ key Hst Hst' Hup), Hv.
      rewrite initial_state_lookup by exact Hkey.
      destruct (last_binding key reset_updates) as [x|] eqn:Hb; [reflexivity|].
      exfalso. apply reset_updates_keys in Hkey.
      repeat (apply elem_of_cons in Hkey as [->|Hkey];
              [vm_compute in Hb; discriminate|]).
      by apply elem_of_nil in Hkey.
    + intros key Hkey Hup.
      rewrite (updated_record_lookup _ _ _ _ _ key Hst Hst' Hup).
      rewrite last_binding_unbound by exact Hkey.
      by destruct (state !! key).
Qed.

(** A reset while the approval of the tasks is pending. *)
Lemma X9_witness :
  let w' := run_op (OpReset "wf") tasks_pending in
  current_state w' "wf" !! "requirements_approved"
    = current_state started "wf" !! "requirements_approved" /\
  current_state w' "wf" !! "created_at"
    = current_state tasks_pending "wf" !! "created_at".
Proof.
  cbv zeta.
  assert (Hst : _active_workflows tasks_pending !! "wf"
                = Some (current_state tasks_pending "wf"))
    by (apply current_state_lookup; vm_compute; reflexivity).
  assert (Hst' : _active_workflows (run_op (OpReset "wf") tasks_pending) !! "wf"
                 = Some (current_state (run_op (OpReset "wf") tasks_pending) "wf"))
    by (apply current_state_lookup; vm_compute; reflexivity).
  destruct (X9_reset_restores_created_values _ _ _ _ Hst Hst')
    as [Hfresh Hkeep].
  split.
  - rewrite (Hfresh "requirements_approved") with
      (i := "wf") (f := "Login") (d := "Users sign in with a password")
      (p := "openai") (m := "gpt-4-turbo-preview") (r := true)
      (now := isoformat 0).
    + vm_compute; reflexivity.
    + unfold reset_updates. rewrite ?fmap_cons. simpl.
      rewrite !elem_of_cons. tauto.
    + exists (VBool true). vm_compute; reflexivity.
  - apply Hkeep; [|discriminate].
    unfold reset_updates. rewrite ?fmap_cons, ?fmap_nil. simpl.
    rewrite !elem_of_cons, elem_of_nil. intuition discriminate.
Defined.

Lemma revised_status_Some phase generating :
  revised_status phase = Some generating ->
  (phase = "requirements" /\ generating = WorkflowStatus.GENERATING_REQUIREMENTS) \/
  (phase = "design" /\ generating = WorkflowStatus.GENERATING_DESIGN) \/
  (phase = "tasks" /\ generating = WorkflowStatus.GENERATING_TASKS).
Proof.
  unfold revised_status.
  destruct (String.eqb_spec phase "requirements") as [->|_]; [intros [= <-]; auto|].
  destruct (String.eqb_spec phase "design") as [->|_]; [intros [= <-]; auto|].
  destruct (String.eqb_spec phase "tasks") as [->|_]; [intros [= <-]; auto|].
  discriminate.
Qed.

Lemma handle_user_approval_pending workflow_id action feedback w state pending :
  _active_workflows w !! workflow_id = Some state ->
  state !! "pending_approval" = Some pending ->
  truthy pending = true ->
  handle_user_approval workflow_id action feedback w =
  let state' := updated state (approval_updates action feedback pending)
                  (isoformat (clock w)) in
  (Return state',
   {| _active_workflows := <[workflow_id := state']> (_active_workflows w);
      clock := S (clock w) |}).
Proof.
  intros Hst Hp Htruthy. rewrite handle_user_approval_run, Hst.
  destruct (decide (state = ∅)) as [->|_]; [by rewrite lookup_empty in Hp|].
  by rewrite Hp, Htruthy, update_workflow_state_run, Hst.
Qed.

(** X25: on a record whose pending phase is requirements, design or tasks, a
    request for revision returns the record to the generating status of that
    same phase, with [current_phase] and the approval flag of the phase as
    they were and the feedback stored; a rejection sets the status to
    cancelled, after which the approval router ends the run.  Both clear
    [pending_approval]. *)
Theorem X25_revision_and_rejection workflow_id feedback w state phase
    generating :
  _active_workflows w !! workflow_id = Some state ->
  has_record_keys state ->
  state !! "pending_approval" = Some (VStr phase) ->
  revised_status phase = Some generating ->
  (exists state' w',
     handle_user_approval workflow_id WorkflowAction.REQUEST_REVISION
       feedback w = (Return state', w') /\
     state' !! "status" = Some (VStatus generating) /\
     state' !! "current_phase" = state !! "current_phase" /\
     state' !! (phase +:+ "_approved") = state !! (phase +:+ "_approved") /\
     state' !! "user_feedback" = Some (from_option VStr VNone feedback) /\
     state' !! "pending_approval" = Some VNone) /\
  (exists state' w',
     handle_user_approval workflow_id WorkflowAction.REJECT feedback w
       = (Return state', w') /\
     state' !! "status" = Some (VStatus WorkflowStatus.CANCELLED) /\
     state' !! "pending_approval" = Some VNone /\
     _route_from_approval state' = Return "end").
Proof.
  intros Hst Hkeys Hp Hphase.
  destruct (key_of "status" state Hkeys ltac:(record_key)) as [s0 Hs0].
  destruct (key_of "user_feedback" state Hkeys ltac:(record_key)) as [f0 Hf0].
  assert (Htruthy : truthy (VStr phase) = true)
    by (apply revised_status_Some in Hphase as [[-> _]|[[-> _]|[-> _]]];
        reflexivity).
  split.
  - rewrite (handle_user_approval_pending _ _ _ _ _ _ Hst Hp Htruthy).
    cbv zeta. eexists _, _. split; [reflexivity|].
    assert (Hflag : phase +:+ "_approved" <> "updated_at")
      by (apply revised_status_Some in Hphase as [[-> _]|[[-> _]|[-> _]]];
          discriminate).
    rewrite !updated_lookup, Hs0, Hf0, Hp by (exact Hflag || discriminate).
    apply revised_status_Some in Hphase as [[-> ->]|[[-> ->]|[-> ->]]];
      (repeat split;
       first [reflexivity
             | by destruct (state !! "current_phase")
             | destruct (state !! (_ +:+ "_approved")); reflexivity]).
  - rewrite (handle_user_approval_pending _ _ _ _ _ _ Hst Hp Htruthy).
    cbv zeta. eexists _, _. split; [reflexivity|].
    assert (Hstatus : updated state
                        (approval_updates WorkflowAction.REJECT feedback
                           (VStr phase)) (isoformat (clock w)) !! "status"
                      = Some (VStatus WorkflowStatus.CANCELLED))
      by (rewrite updated_lookup, Hs0 by discriminate; reflexivity).
    split; [exact Hstatus|].
    split; [rewrite updated_lookup, Hp by discriminate; reflexivity|].
    unfold _route_from_approval, is_workflow_failed, getitem.
    rewrite Hstatus. reflexivity.
Qed.

(** The design of a workflow is sent back with a remark. *)
Lemma X25_witness :
  let w := run_ops [OpSetPendingApproval "wf" "requirements" "# R";
                    OpHandleUserApproval "wf" WorkflowAction.APPROVE None;
                    OpSetPendingApproval "wf" "design" "# D"] started in
  exists state',
    (handle_user_approval "wf" WorkflowAction.REQUEST_REVISION
       (Some "add a cache") w).1 = Return state' /\
    state' !! "status" = Some (VStatus WorkflowStatus.GENERATING_DESIGN) /\
    state' !! "user_feedback" = Some (VStr "add a cache").
Proof.
  intros w.
  assert (Hreach : reachable any_op w).
  { apply reachable_run_ops; [|repeat constructor].
    apply reachable_step; [constructor|exact I]. }
  assert (Hst : _active_workflows w !! "wf" = Some (current_state w "wf"))
    by (apply current_state_lookup; vm_compute; reflexivity).
  destruct (X25_revision_and_rejection "wf" (Some "add a cache") w
              (current_state w "wf") "design"
              WorkflowStatus.GENERATING_DESIGN Hst)
    as [(state' & w' & Hrun & Hstatus & _ & _ & Hfeedback & _) _].
  - exact (reachable_table_inv has_record_keys has_record_keys_updated
             has_record_keys_initial any_op w Hreach "wf" _ Hst).
  - vm_compute; reflexivity.
  - reflexivity.
  - exists state'. rewrite Hrun. by repeat split.
Defined.

(** ** The generation nodes when the model answers *)

Lemma set_pending_approval_run workflow_id phase text awaiting w :
  status_map phase = Some awaiting ->
  set_pending_approval workflow_id phase text w =
  update_workflow_state workflow_id
    [("status", VStatus awaiting); ("pending_approval", VStr phase);
     (phase +:+ "_content", VStr text)] w.
Proof. intros H. unfold set_pending_approval. by rewrite H. Qed.

Lemma ends_with_content_app s : ends_with_content (s +:+ "_content") = true.
Proof.
  induction s as [|c s IH]; [reflexivity|].
  change (String c s +:+ "_content") with (String c (s +:+ "_content")).
  cbn [ends_with_content]. rewrite IH. apply orb_true_r.
Qed.

Lemma nonempty_record (state : gmap string Value) key v :
  state !! key = Some v -> state <> ∅.
Proof. intros H ->. by rewrite lookup_empty in H. Qed.

Lemma invoke_and_arm_success get_llm_client text phase awaiting messages w
    workflow_id state l model :
  always_answers get_llm_client text ->
  status_map phase = Some awaiting ->
  _active_workflows w !! workflow_id = Some state ->
  has_record_keys state ->
  state !! "workflow_id" = Some (VStr workflow_id) ->
  state !! "conversation_history" = Some (VMessages l) ->
  state !! "model_name" = Some model ->
  invoke_and_arm get_llm_client phase messages (Stored workflow_id) w =
  let message := assistant_message phase text model (isoformat (clock w)) in
  let state2 := updated state
                  [("conversation_history", VMessages (l ++ [message]))]
                  (isoformat (S (clock w))) in
  let state3 := updated state2
                  [("status", VStatus awaiting);
                   ("pending_approval", VStr phase);
                   (phase +:+ "_content", VStr text)]
                  (isoformat (S (S (clock w)))) in
  (Return state3,
   {| _active_workflows :=
        <[workflow_id := state3]>
          (<[workflow_id := state2]> (_active_workflows w));
      clock := S (S (S (clock w))) |}).
Proof.
  intros Hanswers Hmap Hst Hkeys Hid Hl Hmodel. unfold invoke_and_arm.
  destruct (key_of "llm_provider" state Hkeys ltac:(record_key))
    as [provider Hprov].
  destruct (Hanswers provider model) as (client & Hclient & Hreturns).
  destruct (Hreturns messages) as (response & Hresponse & Htext).
  erewrite bind_return by (eapply item_stored; eassumption).
  erewrite bind_return by (eapply item_stored; eassumption).
  erewrite bind_return by (unfold lift; rewrite Hclient; reflexivity).
  erewrite bind_return by (unfold lift; rewrite Hresponse; reflexivity).
  cbv zeta. rewrite Htext.
  erewrite bind_return by (eapply item_stored; eassumption).
  erewrite bind_return by (eapply item_stored; eassumption).
  unfold with_key.
  erewrite bind_return; cycle 1.
  { erewrite bind_return by (unfold lift; reflexivity). cbv beta iota.
    rewrite add_conversation_message_run, Hst.
    destruct (decide (state = ∅)) as [Hempty|_];
      [by apply (nonempty_record _ _ _ Hid) in Hempty|].
    cbv zeta. rewrite Hl, update_workflow_state_run.
    cbn [_active_workflows clock]. rewrite Hst. reflexivity. }
  set (state2 := updated state _ _).
  set (w2 := {| _active_workflows := _; clock := _ |}).
  assert (Hst2 : _active_workflows w2 !! workflow_id = Some state2)
    by apply lookup_insert_eq.
  assert (Hid2 : state2 !! "workflow_id" = Some (VStr workflow_id))
    by (unfold state2; rewrite updated_lookup, Hid by discriminate; reflexivity).
  erewrite bind_return by (eapply item_stored; eassumption).
  erewrite bind_return; cycle 1.
  { erewrite bind_return by (unfold lift; reflexivity). cbv beta iota.
    erewrite bind_return; cycle 1.
    { rewrite (set_pending_approval_run _ _ _ _ _ Hmap).
      rewrite update_workflow_state_run, Hst2. reflexivity. }
    reflexivity. }
  set (state3 := updated state2 _ _).
  set (w3 := {| _active_workflows := _; clock := _ |}).
  assert (Hst3 : _active_workflows w3 !! workflow_id = Some state3)
    by apply lookup_insert_eq.
  assert (Hid3 : state3 !! "workflow_id" = Some (VStr workflow_id)).
  { unfold state3. rewrite updated_lookup, Hid2 by discriminate.
    rewrite last_binding_unbound; [reflexivity|].
    rewrite !fmap_cons, fmap_nil. simpl.
    rewrite !elem_of_cons, elem_of_nil.
    intros [H|[H|[H|[]]]]; try discriminate H.
    assert (E : ends_with_content "workflow_id" = true)
      by (rewrite H; apply ends_with_content_app).
    discriminate E. }
  erewrite bind_return by (eapply item_stored; eassumption).
  erewrite read_stored by eassumption.
  reflexivity.
Qed.

(** The head of a generation node: the status update. *)
Ltac enter_generation_node Hsnap :=
  erewrite bind_return by (unfold lift, getitem; rewrite Hsnap; reflexivity);
  unfold try_except;
  erewrite bind_return by (unfold lift, getitem; rewrite Hsnap; reflexivity);
  erewrite update_and_rebind_run by eassumption.

Lemma generate_requirements_node_success get_llm_client text snapshot w
    workflow_id state l model :
  always_answers get_llm_client text ->
  snapshot !! "workflow_id" = Some (VStr workflow_id) ->
  _active_workflows w !! workflow_id = Some state ->
  well_formed workflow_id state ->
  state !! "conversation_history" = Some (VMessages l) ->
  state !! "model_name" = Some model ->
  generate_requirements_node get_llm_client snapshot w =
  succeeded_generation w workflow_id state
    WorkflowStatus.GENERATING_REQUIREMENTS
    WorkflowStatus.AWAITING_REQUIREMENTS_APPROVAL "requirements" text model l.
Proof.
  intros Hanswers Hsnap Hst Hwf Hl Hmodel. unfold generate_requirements_node.
  enter_generation_node Hsnap.
  set (state1 := updated state _ _).
  set (w1 := {| _active_workflows := _; clock := _ |}).
  assert (Hst1 : _active_workflows w1 !! workflow_id = Some state1)
    by apply lookup_insert_eq.
  assert (Hwf1 : well_formed workflow_id state1)
    by (by apply well_formed_updated).
  destruct Hwf1 as (Hkeys1 & Hid1 & _ & _).
  assert (Hl1 : state1 !! "conversation_history" = Some (VMessages l))
    by (unfold state1; rewrite updated_lookup, Hl by discriminate; reflexivity).
  assert (Hmodel1 : state1 !! "model_name" = Some model)
    by (unfold state1; rewrite updated_lookup, Hmodel by discriminate;
        reflexivity).
  destruct (key_of "feature_name" state1 Hkeys1 ltac:(record_key))
    as [fn Hfn].
  destruct (key_of "initial_description" state1 Hkeys1
              ltac:(record_key)) as [descr Hdescr].
  destruct (build_context_returns state1 l Hl1) as [c Hc].
  erewrite bind_return by (eapply item_stored; eassumption).
  erewrite bind_return by (eapply item_stored; eassumption).
  erewrite bind_return by (eapply read_stored; eassumption).
  erewrite bind_return by (unfold lift; rewrite Hc; reflexivity).
  cbv zeta.
  erewrite (invoke_and_arm_success get_llm_client text "requirements")
    by (try eassumption; reflexivity).
  reflexivity.
Qed.

Lemma generate_design_node_success get_llm_client text snapshot w
    workflow_id state l model :
  always_answers get_llm_client text ->
  snapshot !! "workflow_id" = Some (VStr workflow_id) ->
  _active_workflows w !! workflow_id = Some state ->
  well_formed workflow_id state ->
  state !! "conversation_history" = Some (VMessages l) ->
  state !! "model_name" = Some model ->
  generate_design_node get_llm_client snapshot w =
  succeeded_generation w workflow_id state
    WorkflowStatus.GENERATING_DESIGN
    WorkflowStatus.AWAITING_DESIGN_APPROVAL "design" text model l.
Proof.
  intros Hanswers Hsnap Hst Hwf Hl Hmodel. unfold generate_design_node.
  enter_generation_node Hsnap.
  set (state1 := updated state _ _).
  set (w1 := {| _active_workflows := _; clock := _ |}).
  assert (Hst1 : _active_workflows w1 !! workflow_id = Some state1)
    by apply lookup_insert_eq.
  assert (Hwf1 : well_formed workflow_id state1)
    by (by apply well_formed_updated).
  destruct Hwf1 as (Hkeys1 & Hid1 & _ & _).
  assert (Hl1 : state1 !! "conversation_history" = Some (VMessages l))
    by (unfold state1; rewrite updated_lookup, Hl by discriminate; reflexivity).
  assert (Hmodel1 : state1 !! "model_name" = Some model)
    by (unfold state1; rewrite updated_lookup, Hmodel by discriminate;
        reflexivity).
  destruct (key_of "feature_name" state1 Hkeys1 ltac:(record_key))
    as [fn Hfn].
  destruct (key_of "initial_description" state1 Hkeys1
              ltac:(record_key)) as [descr Hdescr].
  destruct (build_context_returns state1 l Hl1) as [c Hc].
  erewrite bind_return by (eapply item_stored; eassumption).
  erewrite bind_return by (eapply item_stored; eassumption).
  cbv zeta.
  edestruct (append_if_returns w1 workflow_id state1 "requirements_content")
    as [parts1 Hparts1];
    [exact Hst1|apply (key_of _ _ Hkeys1); record_key|].
  erewrite bind_return by exact Hparts1.
  edestruct (append_if_returns w1 workflow_id state1 "user_feedback")
    as [parts2 Hparts2];
    [exact Hst1|apply (key_of _ _ Hkeys1); record_key|].
  erewrite bind_return by exact Hparts2.
  erewrite bind_return by (eapply read_stored; eassumption).
  erewrite bind_return by (unfold lift; rewrite Hc; reflexivity).
  cbv zeta.
  erewrite (invoke_and_arm_success get_llm_client text "design")
    by (try eassumption; reflexivity).
  reflexivity.
Qed.

Lemma generate_tasks_node_success get_llm_client text snapshot w
    workflow_id state l model :
  always_answers get_llm_client text ->
  snapshot !! "workflow_id" = Some (VStr workflow_id) ->
  _active_workflows w !! workflow_id = Some state ->
  well_formed workflow_id state ->
  state !! "conversation_history" = Some (VMessages l) ->
  state !! "model_name" = Some model ->
  generate_tasks_node get_llm_client snapshot w =
  succeeded_generation w workflow_id state
    WorkflowStatus.GENERATING_TASKS
    WorkflowStatus.AWAITING_TASKS_APPROVAL "tasks" text model l.
Proof.
  intros Hanswers Hsnap Hst Hwf Hl Hmodel. unfold generate_tasks_node.
  enter_generation_node Hsnap.
  set (state1 := updated state _ _).
  set (w1 := {| _active_workflows := _; clock := _ |}).
  assert (Hst1 : _active_workflows w1 !! workflow_id = Some state1)
    by apply lookup_insert_eq.
  assert (Hwf1 : well_formed workflow_id state1)
    by (by apply well_formed_updated).
  destruct Hwf1 as (Hkeys1 & Hid1 & _ & _).
  assert (Hl1 : state1 !! "conversation_history" = Some (VMessages l))
    by (unfold state1; rewrite updated_lookup, Hl by discriminate; reflexivity).
  assert (Hmodel1 : state1 !! "model_name" = Some model)
    by (unfold state1; rewrite updated_lookup, Hmodel by discriminate;
        reflexivity).
  destruct (key_of "feature_name" state1 Hkeys1 ltac:(record_key))
    as [fn Hfn].
  destruct (key_of "initial_description" state1 Hkeys1
              ltac:(record_key)) as [descr Hdescr].
  destruct (build_context_returns state1 l Hl1) as [c Hc].
  erewrite bind_return by (eapply item_stored; eassumption).
  erewrite bind_return by (eapply item_stored; eassumption).
  cbv zeta.
  edestruct (append_if_returns w1 workflow_id state1 "requirements_content")
    as [parts1 Hparts1];
    [exact Hst1|apply (key_of _ _ Hkeys1); record_key|].
  erewrite bind_return by exact Hparts1.
  edestruct (append_if_returns w1 workflow_id state1 "design_content")
    as [parts2 Hparts2];
    [exact Hst1|apply (key_of _ _ Hkeys1); record_key|].
  erewrite bind_return by exact Hparts2.
  edestruct (append_if_returns w1 workflow_id state1 "user_feedback")
    as [parts3 Hparts3];
    [exact Hst1|apply (key_of _ _ Hkeys1); record_key|].
  erewrite bind_return by exact Hparts3.
  erewrite bind_return by (eapply read_stored; eassumption).
  erewrite bind_return by (unfold lift; rewrite Hc; reflexivity).
  cbv zeta.
  erewrite (invoke_and_arm_success get_llm_client text "tasks")
    by (try eassumption; reflexivity).
  reflexivity.
Qed.

Lemma succeeded_generation_record w workflow_id state generating awaiting
    phase text model l again :
  status_map phase = Some awaiting ->
  phase +:+ "_content" ∈ record_keys ->
  well_formed workflow_id state ->
  state !! "conversation_history" = Some (VMessages l) ->
  awaiting <> WorkflowStatus.FAILED ->
  exists state' w',
    succeeded_generation w workflow_id state generating awaiting phase text
      model l = (Return state', w') /\
    _active_workflows w' !! workflow_id = Some state' /\
    state' !! "status" = Some (VStatus awaiting) /\
    state' !! "pending_approval" = Some (VStr phase) /\
    state' !! (phase +:+ "_content") = Some (VStr text) /\
    state' !! "conversation_history" =
      Some (VMessages (l ++ [assistant_message phase text model
                               (isoformat (S (clock w)))])) /\
    state' !! "retry_count" = state !! "retry_count" /\
    state' !! "last_error" = state !! "last_error" /\
    route_from_generation awaiting again state' = Return "human_approval".
Proof.
  intros Hmap Hfield (Hkeys & Hid & _ & _) Hl Hnot.
  destruct (key_of "status" state Hkeys ltac:(record_key)) as [s0 Hs0].
  destruct (key_of "pending_approval" state Hkeys ltac:(record_key))
    as [p0 Hp0].
  destruct (key_of _ state Hkeys Hfield) as [c0 Hc0].
  assert (Hends : forall key, ends_with_content key = false ->
                    String.eqb (phase +:+ "_content") key = false).
  { intros key Hkey. apply String.eqb_neq. intros <-.
    by rewrite ends_with_content_app in Hkey. }
  assert (Hfield' : phase +:+ "_content" <> "updated_at" /\
                    String.eqb "conversation_history" (phase +:+ "_content")
                      = false /\
                    String.eqb "status" (phase +:+ "_content") = false /\
                    String.eqb "pending_approval" (phase +:+ "_content")
                      = false).
  { revert Hmap. unfold status_map.
    destruct (String.eqb_spec phase "requirements") as [->|_];
      [repeat split; first [discriminate | reflexivity]|].
    destruct (String.eqb_spec phase "design") as [->|_];
      [repeat split; first [discriminate | reflexivity]|].
    destruct (String.eqb_spec phase "tasks") as [->|_];
      [repeat split; first [discriminate | reflexivity]|].
    discriminate. }
  destruct Hfield' as (Hup & Hf1 & Hf2 & Hf3).
  eexists _, _. split; [reflexivity|].
  split; [cbn [_active_workflows]; apply lookup_insert_eq|].
  assert (Hstatus : forall st now,
            is_Some (st !! "status") ->
            updated st [("status", VStatus awaiting);
                        ("pending_approval", VStr phase);
                        (phase +:+ "_content", VStr text)] now !! "status"
            = Some (VStatus awaiting)).
  { intros st now [v Hv]. rewrite updated_lookup, Hv by discriminate.
    cbn [last_binding]. rewrite Hends by reflexivity. reflexivity. }
  repeat split.
  - apply Hstatus. rewrite !updated_lookup, Hs0 by discriminate. by eexists.
  - rewrite !updated_lookup, Hp0 by discriminate.
    cbn [last_binding]. rewrite !Hends by reflexivity. reflexivity.
  - rewrite !updated_lookup, Hc0 by exact Hup.
    cbn [last_binding]. rewrite String.eqb_refl, Hf1, Hf2. reflexivity.
  - rewrite !updated_lookup, Hl by discriminate.
    cbn [last_binding]. rewrite !Hends by reflexivity. reflexivity.
  - rewrite !updated_lookup by discriminate.
    cbn [last_binding]. rewrite !Hends by reflexivity.
    by destruct (state !! "retry_count").
  - rewrite !updated_lookup by discriminate.
    cbn [last_binding]. rewrite !Hends by reflexivity.
    by destruct (state !! "last_error").
  - unfold route_from_generation, is_workflow_failed, getitem.
    rewrite Hstatus by (rewrite !updated_lookup, Hs0 by discriminate; by eexists).
    cbn [mbind Outcome_bind eq_status].
    rewrite (bool_decide_eq_false_2 _ Hnot).
    by rewrite bool_decide_eq_true_2.
Qed.

(** X10: when the model answers, each generation node returns and leaves the
    record awaiting the approval of its phase: [pending_approval] names the
    phase, the answer is stored as the content of the phase and appended to
    the conversation as an assistant message, [retry_count] and [last_error]
    are as they were, the manager holds the returned record, and the router
    of the node sends it to the approval gate. *)
Theorem X10_generation_success_arms_gate phase node route get_llm_client text
    snapshot w workflow_id state l model :
  (phase, node, route) ∈ generation_nodes ->
  always_answers get_llm_client text ->
  snapshot !! "workflow_id" = Some (VStr workflow_id) ->
  _active_workflows w !! workflow_id = Some state ->
  well_formed workflow_id state ->
  state !! "conversation_history" = Some (VMessages l) ->
  state !! "model_name" = Some model ->
  exists state' w' awaiting,
    node get_llm_client snapshot w = (Return state', w') /\
    _active_workflows w' !! workflow_id = Some state' /\
    status_map phase = Some awaiting /\
    state' !! "status" = Some (VStatus awaiting) /\
    state' !! "pending_approval" = Some (VStr phase) /\
    state' !! (phase +:+ "_content") = Some (VStr text) /\
    state' !! "conversation_history" =
      Some (VMessages (l ++ [assistant_message phase text model
                               (isoformat (S (clock w)))])) /\
    state' !! "retry_count" = state !! "retry_count" /\
    state' !! "last_error" = state !! "last_error" /\
    route state' = Return "human_approval".
Proof.
  intros Hnode Hanswers Hsnap Hst Hwf Hl Hmodel.
  unfold generation_nodes in Hnode.
  apply elem_of_cons in Hnode as [[= -> -> ->]|Hnode];
    [|apply elem_of_cons in Hnode as [[= -> -> ->]|Hnode];
      [|apply elem_of_cons in Hnode as [[= -> -> ->]|Hnode];
        [|by apply elem_of_nil in Hnode]]].
  - rewrite (generate_requirements_node_success get_llm_client text snapshot w
               workflow_id state l model Hanswers Hsnap Hst Hwf Hl Hmodel).
    edestruct (succeeded_generation_record w workflow_id state
                 WorkflowStatus.GENERATING_REQUIREMENTS
                 WorkflowStatus.AWAITING_REQUIREMENTS_APPROVAL "requirements"
                 text model l "generate_requirements")
      as (state' & w' & Hrun & Hrest);
      [reflexivity|record_key|exact Hwf|exact Hl|discriminate|].
    exists state', w', WorkflowStatus.AWAITING_REQUIREMENTS_APPROVAL.
    split; [exact Hrun|]. destruct Hrest as (? & ? & ? & ? & ? & ? & ? & ?).
    repeat split; assumption.
  - rewrite (generate_design_node_success get_llm_client text snapshot w
               workflow_id state l model Hanswers Hsnap Hst Hwf Hl Hmodel).
    edestruct (succeeded_generation_record w workflow_id state
                 WorkflowStatus.GENERATING_DESIGN
                 WorkflowStatus.AWAITING_DESIGN_APPROVAL "design"
                 text model l "generate_design")
      as (state' & w' & Hrun & Hrest);
      [reflexivity|record_key|exact Hwf|exact Hl|discriminate|].
    exists state', w', WorkflowStatus.AWAITING_DESIGN_APPROVAL.
    split; [exact Hrun|]. destruct Hrest as (? & ? & ? & ? & ? & ? & ? & ?).
    repeat split; assumption.
  - rewrite (generate_tasks_node_success get_llm_client text snapshot w
               workflow_id state l model Hanswers Hsnap Hst Hwf Hl Hmodel).
    edestruct (succeeded_generation_record w workflow_id state
                 WorkflowStatus.GENERATING_TASKS
                 WorkflowStatus.AWAITING_TASKS_APPROVAL "tasks"
                 text model l "generate_tasks")
      as (state' & w' & Hrun & Hrest);
      [reflexivity|record_key|exact Hwf|exact Hl|discriminate|].
    exists state', w', WorkflowStatus.AWAITING_TASKS_APPROVAL.
    split; [exact Hrun|]. destruct Hrest as (? & ? & ? & ? & ? & ? & ? & ?).
    repeat split; assumption.
Qed.

(** The design of a started workflow, written by a model that answers. *)
Lemma X10_witness :
  exists state',
    (generate_design_node (answering_client "# Design")
       (current_state started "wf") started).1 = Return state' /\
    state' !! "design_content" = Some (VStr "# Design") /\
    _route_from_design state' = Return "human_approval".
Proof.
  destruct (X10_generation_success_arms_gate
              "design" generate_design_node _route_from_design
              (answering_client "# Design") "# Design"
              (current_state started "wf") started "wf"
              (current_state started "wf") [] (VStr "gpt-4-turbo-preview"))
    as (state' & w' & awaiting & Hrun & _ & _ & _ & _ & Hcontent & _ & _ & _
        & Hroute).
  - unfold generation_nodes. rewrite !elem_of_cons. tauto.
  - intros provider model_name. eexists. split; [reflexivity|].
    intros messages. eexists. split; reflexivity.
  - vm_compute; reflexivity.
  - apply current_state_lookup. vm_compute; reflexivity.
  - exact started_well_formed.
  - vm_compute; reflexivity.
  - vm_compute; reflexivity.
  - exists state'. rewrite Hrun. split; [reflexivity|].
    split; [exact Hcontent|exact Hroute].
Defined.

(** ** Final-document generation when rendering fails *)

(** X11: when rendering or writing the final documents fails, the node sets
    the status to failed and, in a record that has the key, [last_error] to
    the text of the error, without touching [retry_count]; so for a record
    whose count of retries is below 3, however many times the node has run
    and failed in a row, the router after it asks for one more run. *)
Theorem X11_final_documents_failure_repeats render_and_write e workflow_id w
    state n attempts :
  (forall snapshot, render_and_write snapshot = Raise e) ->
  _active_workflows w !! workflow_id = Some state ->
  state !! "workflow_id" = Some (VStr workflow_id) ->
  is_Some (state !! "status") ->
  state !! "retry_count" = Some (VInt n) ->
  n < 3 ->
  exists state',
    _active_workflows
      (rerun_node (generate_final_documents_node render_and_write)
         (S attempts) workflow_id w)
      !! workflow_id = Some state' /\
    state' !! "status" = Some (VStatus WorkflowStatus.FAILED) /\
    state' !! "last_error"
      = (fun _ => VStr (str_exc e)) <$> (state !! "last_error") /\
    state' !! "retry_count" = Some (VInt n) /\
    _route_from_final_documents state' = Return "generate_final_documents".
Proof.
  intros Hfails Hst Hid Hstatus Hn Hlt.
  assert (Hinv : forall k, exists st,
            _active_workflows
              (rerun_node (generate_final_documents_node render_and_write) k
                 workflow_id w)
              !! workflow_id = Some st /\
            st !! "workflow_id" = Some (VStr workflow_id) /\
            is_Some (st !! "status") /\
            st !! "retry_count" = Some (VInt n) /\
            (fun _ => VStr (str_exc e)) <$> (st !! "last_error")
              = (fun _ => VStr (str_exc e)) <$> (state !! "last_error") /\
            (k <> O ->
             st !! "status" = Some (VStatus WorkflowStatus.FAILED) /\
             st !! "last_error"
               = (fun _ => VStr (str_exc e)) <$> (state !! "last_error"))).
  { induction k as [|k (st & Hk & Hidk & [s Hs] & Hnk & Herr & _)].
    - exists state.
      repeat split; [exact Hst|exact Hid|exact Hstatus|exact Hn|done|done].
    - cbn [rerun_node].
      rewrite <- (current_state_stored _ _ _ Hk).
      rewrite (generate_final_documents_node_run render_and_write st _
                 workflow_id st Hidk Hk) by (by eexists).
      rewrite Hfails. cbv zeta. cbn [snd _active_workflows].
      eexists. split; [apply lookup_insert_eq|].
      rewrite !updated_lookup, Hidk, Hs, Hnk by discriminate.
      rewrite <- Herr.
      destruct (st !! "last_error"); repeat split; by eexists. }
  destruct (Hinv (S attempts)) as (st & Hk & Hidk & _ & Hnk & _ & Hfailed).
  destruct Hfailed as [Hfailed Herr]; [done|].
  exists st. split; [exact Hk|]. split; [exact Hfailed|].
  split; [exact Herr|]. split; [exact Hnk|].
  unfold _route_from_final_documents, is_workflow_failed, getitem.
  rewrite Hfailed, Hnk, Hidk by done.
  cbn [mbind Outcome_bind eq_status less_than].
  rewrite bool_decide_eq_true_2 by reflexivity.
  apply Z.ltb_lt in Hlt. by rewrite Hlt.
Qed.

(** Three failed runs on the approved tasks of a workflow. *)
Lemma X11_witness :
  let w := run_op (OpHandleUserApproval "wf" WorkflowAction.APPROVE None)
                  tasks_pending in
  let render : FinalDocuments := fun _ => Raise (Exception "disk full") in
  current_state
    (rerun_node (generate_final_documents_node render) 3 "wf" w) "wf"
    !! "last_error" = Some (VStr "disk full") /\
  _route_from_final_documents
    (current_state
       (rerun_node (generate_final_documents_node render) 3 "wf" w) "wf")
  = Return "generate_final_documents".
Proof.
  intros w render.
  destruct (X11_final_documents_failure_repeats render (Exception "disk full")
              "wf" w (current_state w "wf") 0 2)
    as (state' & Hst' & _ & Herr & _ & Hroute).
  - reflexivity.
  - apply current_state_lookup. vm_compute; reflexivity.
  - vm_compute; reflexivity.
  - eexists. vm_compute; reflexivity.
  - vm_compute; reflexivity.
  - lia.
  - apply current_state_stored in Hst'. rewrite <- Hst'.
    split; [|exact Hroute]. rewrite Herr. vm_compute. reflexivity.
Defined.

(** ** Generation retries *)

Lemma failed_generation_record w workflow_id state generating e n :
  well_formed workflow_id state ->
  state !! "retry_count" = Some (VInt n) ->
  exists state' w',
    failed_generation w workflow_id state generating e n = (Return state', w') /\
    _active_workflows w' !! workflow_id = Some state' /\
    well_formed workflow_id state' /\
    state' !! "status" = Some (VStatus WorkflowStatus.FAILED) /\
    state' !! "retry_count" = Some (VInt (n + 1)) /\
    state' !! "last_error" = Some (VStr (str_exc e)).
Proof.
  intros (Hkeys & Hid & [l Hl] & _) Hn.
  destruct (key_of "status" state Hkeys ltac:(record_key)) as [s0 Hs0].
  destruct (key_of "last_error" state Hkeys ltac:(record_key)) as [e0 He0].
  eexists _, _. split; [reflexivity|].
  split; [cbn [_active_workflows]; apply lookup_insert_eq|].
  split.
  { split; [by do 2 apply has_record_keys_updated|].
    rewrite !updated_lookup, Hid, Hl, Hn by discriminate.
    split; [reflexivity|]. split; by eexists. }
  rewrite !updated_lookup, Hs0, Hn, He0 by discriminate.
  by repeat split.
Qed.

Lemma rerun_generation_failures
    (node : LLMClientFactory -> gmap string Value -> M (gmap string Value))
    generating (get_llm_client : LLMClientFactory) e workflow_id w state n :
  (forall snapshot w0 state0 m,
     snapshot !! "workflow_id" = Some (VStr workflow_id) ->
     _active_workflows w0 !! workflow_id = Some state0 ->
     well_formed workflow_id state0 ->
     state0 !! "retry_count" = Some (VInt m) ->
     node get_llm_client snapshot w0
       = failed_generation w0 workflow_id state0 generating e m) ->
  _active_workflows w !! workflow_id = Some state ->
  well_formed workflow_id state ->
  state !! "retry_count" = Some (VInt n) ->
  forall attempts, exists state',
    _active_workflows (rerun_node (node get_llm_client) attempts workflow_id w)
      !! workflow_id = Some state' /\
    well_formed workflow_id state' /\
    state' !! "retry_count" = Some (VInt (n + Z.of_nat attempts)) /\
    (attempts <> O ->
     state' !! "status" = Some (VStatus WorkflowStatus.FAILED) /\
     state' !! "last_error" = Some (VStr (str_exc e))).
Proof.
  intros Hnode Hst Hwf Hn.
  induction attempts as [|k (st & Hk & Hwfk & Hnk & _)].
  - exists state. rewrite Z.add_0_r.
    split; [exact Hst|]. split; [exact Hwf|]. split; [exact Hn|done].
  - cbn [rerun_node]. rewrite <- (current_state_stored _ _ _ Hk).
    rewrite (Hnode st _ st _ (proj1 (proj2 Hwfk)) Hk Hwfk Hnk).
    destruct (failed_generation_record
                (rerun_node (node get_llm_client) k workflow_id w)
                workflow_id st generating e _ Hwfk Hnk)
      as (st' & w' & -> & Hst' & Hwf' & Hs' & Hn' & He').
    exists st'. split; [exact Hst'|]. split; [exact Hwf'|].
    split; [rewrite Hn'; do 2 f_equal; lia|by split].
Qed.

(** X24: when the model keeps failing, each run of a generation node adds
    one to [retry_count] and leaves the status failed with the message of
    the error; the router of the node sends the record back to the node
    while the count is below 3 and ends the run as soon as it reaches 3, so
    a record that starts at 0 is attempted three times and no more. *)
Theorem X24_generation_retries_are_bounded phase node route get_llm_client e
    workflow_id w state n attempts :
  (phase, node, route) ∈ generation_nodes ->
  always_fails get_llm_client e ->
  _active_workflows w !! workflow_id = Some state ->
  well_formed workflow_id state ->
  state !! "retry_count" = Some (VInt n) ->
  exists state',
    _active_workflows
      (rerun_node (node get_llm_client) (S attempts) workflow_id w)
      !! workflow_id = Some state' /\
    state' !! "status" = Some (VStatus WorkflowStatus.FAILED) /\
    state' !! "retry_count" = Some (VInt (n + Z.of_nat (S attempts))) /\
    state' !! "last_error" = Some (VStr (str_exc e)) /\
    route state' =
      Return (if n + Z.of_nat (S attempts) <? 3 then "generate_" +:+ phase
              else "end").
Proof.
  intros Hnode Hfails Hst Hwf Hn.
  assert (Hroute : forall awaiting again state',
            well_formed workflow_id state' ->
            state' !! "status" = Some (VStatus WorkflowStatus.FAILED) ->
            state' !! "retry_count" = Some (VInt (n + Z.of_nat (S attempts))) ->
            route_from_generation awaiting again state' =
            Return (if n + Z.of_nat (S attempts) <? 3 then again else "end")).
  { intros awaiting again state' (_ & Hid & _) Hs Hc.
    unfold route_from_generation, is_workflow_failed, getitem.
    rewrite Hs, Hc, Hid. cbn [mbind Outcome_bind eq_status less_than].
    rewrite bool_decide_eq_true_2 by reflexivity.
    by destruct (n + Z.of_nat (S attempts) <? 3). }
  unfold generation_nodes in Hnode.
  apply elem_of_cons in Hnode as [[= -> -> ->]|Hnode];
    [|apply elem_of_cons in Hnode as [[= -> -> ->]|Hnode];
      [|apply elem_of_cons in Hnode as [[= -> -> ->]|Hnode];
        [|by apply elem_of_nil in Hnode]]].
  - destruct (rerun_generation_failures generate_requirements_node
                WorkflowStatus.GENERATING_REQUIREMENTS get_llm_client e
                workflow_id w state n) with (attempts := S attempts)
      as (st' & Hst' & Hwf' & Hn' & Hfailed); try assumption.
    { intros. by apply generate_requirements_node_failure. }
    destruct Hfailed as [Hs' He']; [done|].
    exists st'. repeat split; try assumption. by apply Hroute.
  - destruct (rerun_generation_failures generate_design_node
                WorkflowStatus.GENERATING_DESIGN get_llm_client e
                workflow_id w state n) with (attempts := S attempts)
      as (st' & Hst' & Hwf' & Hn' & Hfailed); try assumption.
    { intros. by apply generate_design_node_failure. }
    destruct Hfailed as [Hs' He']; [done|].
    exists st'. repeat split; try assumption. by apply Hroute.
  - destruct (rerun_generation_failures generate_tasks_node
                WorkflowStatus.GENERATING_TASKS get_llm_client e
                workflow_id w state n) with (attempts := S attempts)
      as (st' & Hst' & Hwf' & Hn' & Hfailed); try assumption.
    { intros. by apply generate_tasks_node_failure. }
    destruct Hfailed as [Hs' He']; [done|].
    exists st'. repeat split; try assumption. by apply Hroute.
Qed.

(** Three failed attempts at the requirements of a started workflow. *)
Lemma X24_witness :
  let node := generate_requirements_node (failing_client "provider down") in
  _route_from_requirements (current_state (rerun_node node 2 "wf" started) "wf")
    = Return "generate_requirements" /\
  _route_from_requirements (current_state (rerun_node node 3 "wf" started) "wf")
    = Return "end".
Proof.
  cbv zeta.
  assert (Hfails : always_fails (failing_client "provider down")
                     (Exception "provider down")).
  { intros provider model_name. eexists. split; [reflexivity|]. done. }
  assert (Hst : _active_workflows started !! "wf"
                = Some (current_state started "wf"))
    by (apply current_state_lookup; vm_compute; reflexivity).
  assert (Hn : current_state started "wf" !! "retry_count" = Some (VInt 0))
    by (vm_compute; reflexivity).
  assert (Hin : ("requirements", generate_requirements_node,
                 _route_from_requirements) ∈ generation_nodes)
    by (unfold generation_nodes; rewrite !elem_of_cons; tauto).
  split.
  - destruct (X24_generation_retries_are_bounded _ _ _ _ _ _ _ _ _ 1%nat
                Hin Hfails Hst started_well_formed Hn)
      as (st' & Hst' & _ & _ & _ & Hroute).
    apply current_state_stored in Hst'. rewrite <- Hst'. exact Hroute.
  - destruct (X24_generation_retries_are_bounded _ _ _ _ _ _ _ _ _ 2%nat
                Hin Hfails Hst started_well_formed Hn)
      as (st' & Hst' & _ & _ & _ & Hroute).
    apply current_state_stored in Hst'. rewrite <- Hst'. exact Hroute.
Defined.

(** ** The routers of the graph *)

(** Unfolds a router down to the lookups in the record and splits on each
    test it makes, in order. *)
Ltac route_cases H :=
  unfold _route_from_start, _route_from_approval, _route_from_requirements,
    _route_from_design, _route_from_tasks, _route_from_final_documents,
    route_from_generation, is_workflow_failed, is_workflow_complete,
    should_generate_final_documents, should_wait_for_approval,
    should_generate_requirements, should_generate_design,
    should_generate_tasks, getitem, less_than in H;
  cbn [mbind Outcome_bind] in H;
  repeat match type of H with
    | context [match ?state !! ?key with _ => _ end] =>
        destruct (state !! key) eqn:?; cbn [mbind Outcome_bind] in H;
        try discriminate H
    | context [if ?b then _ else _] =>
        destruct b eqn:?; cbn [mbind Outcome_bind negb] in H;
        try discriminate H
    | context [match ?v with VNone => _ | _ => _ end] =>
        destruct v; cbn [mbind Outcome_bind] in H; try discriminate H
    end.

(** X12: every label a router answers with is a key of the edges declared
    for it in [create_spec_workflow]; the approval router never answers
    [human_approval], which its edges do not have. *)
Theorem X12_routers_answer_declared_edges router edges state label :
  (router, edges) ∈ routers ->
  router state = Return label ->
  label ∈ edges.
Proof.
  intros Hrouter Hlabel. unfold routers in Hrouter.
  repeat (apply elem_of_cons in Hrouter as [[= -> ->]|Hrouter];
    [route_cases Hlabel; injection Hlabel as <-;
     unfold edges_from_start, edges_from_requirements, edges_from_design,
       edges_from_tasks, edges_from_approval, edges_from_final_documents;
     rewrite !elem_of_cons; tauto|]).
  by apply elem_of_nil in Hrouter.
Qed.

(** The approval router on a workflow whose tasks await approval. *)
Lemma X12_witness :
  _route_from_approval (current_state tasks_pending "wf") = Return "end" /\
  "end" ∈ edges_from_approval.
Proof.
  assert (H : _route_from_approval (current_state tasks_pending "wf")
              = Return "end") by (vm_compute; reflexivity).
  split; [exact H|].
  apply (X12_routers_answer_declared_edges _route_from_approval
           edges_from_approval (current_state tasks_pending "wf") "end").
  - unfold routers. rewrite !elem_of_cons. tauto.
  - exact H.
Defined.

Lemma status_value_inj s s' : WorkflowStatus.value s = WorkflowStatus.value s' -> s = s'.
Proof. destruct s, s'; first [reflexivity | discriminate]. Qed.

Lemma eq_status_exclusive v s s' :
  eq_status v s = true -> s <> s' -> eq_status v s' = false.
Proof.
  destruct v; try discriminate; cbn [eq_status].
  - intros H%String.eqb_eq Hne. apply String.eqb_neq. intros H'.
    apply Hne, status_value_inj. congruence.
  - intros H%bool_decide_eq_true Hne. apply bool_decide_eq_false. congruence.
Qed.

Lemma final_documents_not_complete state :
  should_generate_final_documents state = Return true ->
  is_workflow_complete state = Return false.
Proof.
  unfold should_generate_final_documents, is_workflow_complete, getitem.
  repeat (match goal with
          | |- context [match ?state !! ?key with _ => _ end] =>
              destruct (state !! key); cbn [mbind Outcome_bind];
              try discriminate
          | |- context [if ?b then _ else _] =>
              destruct b; cbn [mbind Outcome_bind]; try discriminate
          end).
  intros [= H]. by apply negb_true_iff in H as ->.
Qed.

(** X13: whenever the approval router sends a record to a node, the entry
    router of the graph sends the same record to the same node; a run that
    is resumed from the entry point goes where the gate would have sent
    it. *)
Theorem X13_entry_router_follows_approval_router state label :
  _route_from_approval state = Return label ->
  label <> "end" ->
  is_Some (state !! "workflow_id") ->
  _route_from_start state = Return label.
Proof.
  intros Hroute Hnode [i Hid].
  unfold _route_from_approval in Hroute. unfold _route_from_start.
  assert (Hget : getitem state "workflow_id" = Return i)
    by (unfold getitem; by rewrite Hid).
  rewrite !Hget. cbn [mbind Outcome_bind].
  destruct (state !! "status") as [v|] eqn:Hs;
    [|unfold is_workflow_failed, getitem in Hroute; by rewrite Hs in Hroute].
  assert (Hstatus : getitem state "status" = Return v)
    by (unfold getitem; by rewrite Hs).
  assert (Hfailed : is_workflow_failed state
                    = Return (eq_status v WorkflowStatus.FAILED))
    by (unfold is_workflow_failed; by rewrite Hstatus).
  assert (Hwait : exists b, should_wait_for_approval state = Return b)
    by (unfold should_wait_for_approval; rewrite Hstatus; by eexists).
  destruct Hwait as [wait Hwait].
  assert (Hdesign : should_generate_design state
                    = Return (eq_status v WorkflowStatus.GENERATING_DESIGN))
    by (unfold should_generate_design; by rewrite Hstatus).
  assert (Htasks : should_generate_tasks state
                   = Return (eq_status v WorkflowStatus.GENERATING_TASKS))
    by (unfold should_generate_tasks; by rewrite Hstatus).
  assert (Hcomplete : is_workflow_complete state
                      = Return (eq_status v WorkflowStatus.COMPLETED))
    by (unfold is_workflow_complete; by rewrite Hstatus).
  rewrite Hfailed, Hstatus, Hwait in Hroute.
  rewrite Hfailed, Hwait, Hdesign, Htasks, ?Hstatus.
  cbn [mbind Outcome_bind] in *.
  destruct (eq_status v WorkflowStatus.FAILED) eqn:Hf;
    cbn [mbind Outcome_bind] in Hroute; [by injection Hroute as <-|].
  destruct (eq_status v WorkflowStatus.CANCELLED) eqn:Hc;
    [by injection Hroute as <-|].
  destruct (should_generate_final_documents state) as [[|]|e] eqn:Hfinal;
    cbn [mbind Outcome_bind] in Hroute; [| |discriminate].
  { rewrite (final_documents_not_complete _ Hfinal). cbn [mbind Outcome_bind].
    exact Hroute. }
  destruct wait; cbn [mbind Outcome_bind] in Hroute;
    [rewrite Hget in Hroute; by injection Hroute as <-|].
  rewrite Hcomplete. cbn [mbind Outcome_bind].
  unfold should_generate_requirements. rewrite !Hstatus.
  cbn [mbind Outcome_bind].
  destruct (eq_status v WorkflowStatus.GENERATING_REQUIREMENTS) eqn:Hr.
  { rewrite (eq_status_exclusive _ _ WorkflowStatus.COMPLETED Hr)
      by discriminate.
    exact Hroute. }
  destruct (eq_status v WorkflowStatus.GENERATING_DESIGN) eqn:Hd.
  { rewrite (eq_status_exclusive _ _ WorkflowStatus.COMPLETED Hd),
      (eq_status_exclusive _ _ WorkflowStatus.INITIALIZING Hd) by discriminate.
    exact Hroute. }
  destruct (eq_status v WorkflowStatus.GENERATING_TASKS) eqn:Ht;
    [|by injection Hroute as <-].
  rewrite (eq_status_exclusive _ _ WorkflowStatus.COMPLETED Ht),
    (eq_status_exclusive _ _ WorkflowStatus.INITIALIZING Ht) by discriminate.
  exact Hroute.
Qed.

(** The record of a workflow whose requirements were just approved. *)
Lemma X13_witness :
  let w := run_ops [OpSetPendingApproval "wf" "requirements" "# Requirements";
                    OpHandleUserApproval "wf" WorkflowAction.APPROVE None]
                   started in
  _route_from_approval (current_state w "wf") = Return "generate_design" /\
  _route_from_start (current_state w "wf") = Return "generate_design".
Proof.
  intros w.
  assert (H : _route_from_approval (current_state w "wf")
              = Return "generate_design") by (vm_compute; reflexivity).
  split; [exact H|].
  apply X13_entry_router_follows_approval_router.
  - exact H.
  - discriminate.
  - eexists. vm_compute; reflexivity.
Defined.

(** ** The retry loop for any client *)

Section RetryBounds.
Context (py : Interpreter) (llm_client : LLMClient)
      (messages : list LLMMessage) (validation_model : option BaseModel)
      (retry_prompt : option string).

Lemma parse_json_response_max_retries self content strict :
max_retries (parse_json_response py self content validation_model strict).2
= max_retries self.
Proof.
unfold parse_json_response.
destruct (if cache_enabled self then _ else _); [reflexivity|].
destruct (_extract_json_from_response py content)
  as [[json_content m]|e]; [|reflexivity].
destruct (negb _); [reflexivity|].
destruct (from_option _ _ json_content) as [parsed|message|e];
  [|reflexivity|reflexivity].
destruct validation_model as [model|].
- destruct parsed; try reflexivity.
  cbn [mbind Outcome_bind].
  destruct (construct model members) as [[e|validated]|e];
    [destruct strict| |]; destruct (cache_enabled self); reflexivity.
- destruct (cache_enabled self); reflexivity.
Qed.

Lemma slept_app events events' :
slept (events ++ events') = (slept events ++ slept events')%list.
Proof. apply omap_app. Qed.

Lemma invocations_app events events' :
invocations (events ++ events') = (invocations events + invocations events')%nat.
Proof. unfold invocations. by rewrite List.filter_app, length_app. Qed.

Lemma retry_loop_paced remaining : forall attempt last_error self events,
0 <= attempt ->
attempt + Z.of_nat remaining = max_retries self + 1 ->
paced (max_retries self) attempt remaining events
  (retry_loop py llm_client messages validation_model retry_prompt
     remaining attempt last_error self events).
Proof.
induction remaining as [|r IH]; intros attempt last_error self events Hpos Hsum.
{ exists []. cbn [retry_loop snd fst]. rewrite app_nil_r.
  split; [reflexivity|]. split; [cbn; lia|].
  split; [apply sublist_nil_l|reflexivity]. }
set (request := Generate (attempt_messages messages retry_prompt attempt)).
assert (Hone : forall (result : ParseResult) self',
          max_retries self' = max_retries self ->
          paced (max_retries self) attempt (S r) events
            (result, self', (events ++ [request])%list)).
{ intros result self' Hmax. exists [request]. split; [reflexivity|].
  split; [cbn; lia|]. split; [apply sublist_nil_l|exact Hmax]. }
assert (Hnext : forall last_error' self',
          max_retries self' = max_retries self ->
          paced (max_retries self) attempt (S r) events
            (retry_loop py llm_client messages validation_model
               retry_prompt r (attempt + 1) last_error' self'
               (events ++ [request])%list)).
{ intros last_error' self' Hmax.
  destruct (IH (attempt + 1) last_error' self' (events ++ [request])%list)
    as (new & Hnew & Hcount & Hsleep & Hmax'); [lia|lia|].
  exists (request :: new).
  split; [by rewrite Hnew, <- app_assoc|].
  split; [change (invocations (request :: new)) with (S (invocations new)); lia|].
  split; [|congruence].
  change (slept (request :: new)) with (slept new).
  rewrite Hmax in Hsleep.
  destruct (decide (attempt = max_retries self)) as [->|Hne].
  - replace (max_retries self - (max_retries self + 1)) with (-1) in Hsleep
      by lia.
    apply sublist_nil_r in Hsleep. rewrite Hsleep. apply sublist_nil_l.
  - rewrite (seqZ_cons attempt) by lia. rewrite fmap_cons.
    apply sublist_cons.
    by replace (Z.pred (max_retries self - attempt))
      with (max_retries self - (attempt + 1)) by lia. }
assert (Hexcept : forall e self',
          max_retries self' = max_retries self ->
          paced (max_retries self) attempt (S r) events
            (if attempt =? max_retries self' then
               (all_failed self' (Some (str_exc e)), self',
                (events ++ [request])%list)
             else
               retry_loop py llm_client messages validation_model
                 retry_prompt r (attempt + 1) (Some (str_exc e)) self'
                 ((events ++ [request]) ++ [Sleep (2 ^ attempt)])%list)).
{ intros e self' Hmax. rewrite Hmax.
  destruct (Z.eqb_spec attempt (max_retries self)) as [Heq|Hne];
    [by apply Hone|].
  destruct (IH (attempt + 1) (Some (str_exc e)) self'
              ((events ++ [request]) ++ [Sleep (2 ^ attempt)])%list)
    as (new & Hnew & Hcount & Hsleep & Hmax'); [lia|lia|].
  exists (request :: Sleep (2 ^ attempt) :: new).
  split; [by rewrite Hnew, <- !app_assoc|].
  split; [change (invocations (request :: _ :: new))
            with (S (invocations new)); lia|].
  split; [|congruence].
  change (slept (request :: _ :: new)) with (2 ^ attempt :: slept new).
  rewrite Hmax in Hsleep.
  rewrite (seqZ_cons attempt) by lia. rewrite fmap_cons.
  apply sublist_skip.
  by replace (Z.pred (max_retries self - attempt))
    with (max_retries self - (attempt + 1)) by lia. }
cbn [retry_loop]. fold request.
destruct (llm_client _ _) as [response|e]; [|by apply Hexcept].
pose proof (parse_json_response_max_retries self (response_content response)
              true) as Hmax.
destruct (parse_json_response _ _ _ _ _) as [[parse_result|e] self'];
  cbn [snd] in Hmax; [|by apply Hexcept].
destruct (success parse_result); [by apply Hone|].
destruct (_ && _); [by apply Hone|by apply Hnext].
Qed.

(** X14: whatever the client does (answer, raise, or either by turns), and
  whatever is cached, a run of [parse_with_retry] invokes the model at
  most [max_retries + 1] times, and its sleeps, in order, are taken from
  the waits 1, 2, 4, ... of the attempts below [max_retries], each at
  most once; the ceiling of the processor is unchanged. *)
Theorem X14_retry_loop_is_bounded self :
let run := parse_with_retry py llm_client messages validation_model
             retry_prompt self in
(invocations run.2 <= Z.to_nat (max_retries self + 1))%nat /\
sublist (slept run.2) (backoff_waits (max_retries self)) /\
max_retries run.1.2 = max_retries self.
Proof.
cbv zeta. unfold parse_with_retry, backoff_waits.
destruct (decide (0 <= max_retries self + 1)) as [Hpos|Hneg].
- destruct (retry_loop_paced (Z.to_nat (max_retries self + 1)) 0 None self [])
    as (new & Hnew & Hcount & Hsleep & Hmax); [lia|lia|].
  rewrite Hnew. cbn [app]. rewrite Z.sub_0_r in Hsleep. done.
- replace (Z.to_nat (max_retries self + 1)) with O by lia.
  cbn [retry_loop snd fst].
  split; [cbn; lia|]. split; [apply sublist_nil_l|reflexivity].
Qed.
End RetryBounds.

(** X15: with a negative ceiling, [generate_and_parse] makes no attempt at
    all: the model is never invoked and the result is the overall failure,
    which reports [max_retries + 1] attempts and no error. *)
Theorem X15_negative_ceiling_never_invokes py messages validation_model
    llm_client ceiling :
  ceiling < 0 ->
  generate_and_parse py messages validation_model llm_client ceiling =
  ({| success := false; data := None;
      error := Some ("Failed after " +:+ pretty (ceiling + 1)
                     +:+ " attempts. Last error: None");
      mode := Some ParseMode.JSON;
      raw_content := None |},
   {| max_retries := ceiling; cache_enabled := true; _response_cache := ∅ |},
   []).
Proof.
  intros Hneg. unfold generate_and_parse, parse_with_retry. cbn [max_retries].
  replace (Z.to_nat (ceiling + 1)) with O by lia. reflexivity.
Qed.

(** A ceiling of -1: zero attempts. *)
Lemma X15_witness :
  let llm_client : LLMClient :=
    fun _ _ => Return {| response_content := "{}"; response_model := "m" |} in
  let run := generate_and_parse cpython
               [{| msg_role := "user"; msg_content := "Describe login" |}]
               None llm_client (-1) in
  error run.1.1 = Some "Failed after 0 attempts. Last error: None" /\
  run.2 = [].
Proof.
  intros llm_client run. subst run.
  rewrite X15_negative_ceiling_never_invokes by lia.
  split; reflexivity.
Defined.

Section BadJson.
Context (py : Interpreter) (messages : list LLMMessage)
      (validation_model : option BaseModel) (llm_client : LLMClient).

Lemma json_loads_error (depth : nat) s message :
json_loads py depth s = JSONDecodeError message ->
message = decode_error py s.
Proof.
unfold json_loads. destruct (scan_once _ _ _) as [v rest| |e].
- destruct (skip_ws rest); [discriminate|]. by intros [= <-].
- by intros [= <-].
- discriminate.
Qed.

Lemma parse_json_response_bad_json self content strict payload message :
_response_cache self = ∅ ->
_extract_json_from_response py content
  = Return (Some payload, ParseMode.JSON) ->
json_loads py (json_depth py) payload = JSONDecodeError message ->
parse_json_response py self content validation_model strict =
(Return {| success := false; data := None;
           error := Some ("JSON parsing failed: "
                          +:+ decode_error py payload);
           mode := Some ParseMode.JSON;
           raw_content := Some content |}, self).
Proof.
intros Hcache Hextract Hloads. unfold parse_json_response.
rewrite Hcache, lookup_empty, Hextract.
cbn [from_option]. rewrite Hloads.
rewrite (json_loads_error _ _ _ Hloads).
by destruct (cache_enabled self).
Qed.

Lemma retry_loop_bad_json :
(forall i msgs, exists response payload message,
    llm_client i msgs = Return response /\
    _extract_json_from_response py (response_content response)
      = Return (Some payload, ParseMode.JSON) /\
    json_loads py (json_depth py) payload = JSONDecodeError message) ->
forall remaining attempt last_error self events,
  _response_cache self = ∅ ->
  attempt + Z.of_nat remaining = max_retries self + 1 ->
  (0 < remaining)%nat ->
  exists response payload,
    llm_client (length (List.filter is_generate events) + remaining - 1)%nat
      (attempt_messages messages None (max_retries self))
      = Return response /\
    _extract_json_from_response py (response_content response)
      = Return (Some payload, ParseMode.JSON) /\
    retry_loop py llm_client messages validation_model None
      remaining attempt last_error self events =
    (all_failed self (Some ("JSON parsing failed: "
                            +:+ decode_error py payload)), self,
     (events ++ reprompt_events messages remaining attempt)%list).
Proof.
intros Hllm. induction remaining as [|r IH];
  intros attempt last_error self events Hcache Hsum Hpos; [lia|].
cbn [retry_loop].
destruct (Hllm (length (List.filter is_generate events))
            (attempt_messages messages None attempt))
  as (response & payload & message & Hresp & Hextract & Hloads).
rewrite Hresp.
rewrite (parse_json_response_bad_json self (response_content response) true
           payload message Hcache Hextract Hloads).
cbn [success mode error].
rewrite (bool_decide_eq_false_2 (Some ParseMode.JSON = Some ParseMode.CONVERSATION))
  by discriminate.
rewrite (bool_decide_eq_false_2 (Some ParseMode.JSON = Some ParseMode.MARKDOWN))
  by discriminate.
rewrite andb_false_r.
destruct r as [|r].
- cbn [retry_loop reprompt_events].
  assert (attempt = max_retries self) as -> by lia.
  exists response, payload. split; [|by split].
  rewrite <- Hresp. f_equal. lia.
- destruct (IH (attempt + 1)
              (Some ("JSON parsing failed: " +:+ decode_error py payload))
              self
              (events ++ [Generate (attempt_messages messages None attempt)])%list
              Hcache ltac:(lia) ltac:(lia))
    as (last & last_payload & Hlast & Hlast_extract & Hloop).
  exists last, last_payload. split; [|split; [exact Hlast_extract|]].
  + rewrite <- Hlast. f_equal.
    rewrite List.filter_app, length_app. simpl. lia.
  + rewrite Hloop. cbn [reprompt_events]. by rewrite <- app_assoc.
Qed.
End BadJson.

(** X16: when every answer of the model holds a payload that extraction
    classifies as json and on which the decoder raises [JSONDecodeError],
    [generate_and_parse] asks again without sleeping, once per attempt, and
    ends in the overall failure, whose error quotes the decoder's message on
    the payload of the last answer: the conversation fallback is for answers
    classified as markdown or conversation only. *)
Theorem X16_undecodable_answers_fail py messages validation_model llm_client
    ceiling :
  0 <= ceiling ->
  (forall i msgs, exists response payload message,
      llm_client i msgs = Return response /\
      _extract_json_from_response py (response_content response)
        = Return (Some payload, ParseMode.JSON) /\
      json_loads py (json_depth py) payload = JSONDecodeError message) ->
  exists response payload,
    llm_client (Z.to_nat ceiling) (attempt_messages messages None ceiling)
      = Return response /\
    _extract_json_from_response py (response_content response)
      = Return (Some payload, ParseMode.JSON) /\
    generate_and_parse py messages validation_model llm_client ceiling =
    ({| success := false; data := None;
        error := Some ("Failed after " +:+ pretty (ceiling + 1)
                       +:+ " attempts. Last error: JSON parsing failed: "
                       +:+ decode_error py payload);
        mode := Some ParseMode.JSON;
        raw_content := None |},
     {| max_retries := ceiling; cache_enabled := true; _response_cache := ∅ |},
     reprompt_events messages (Z.to_nat (ceiling + 1)) 0).
Proof.
  intros Hceiling Hllm. unfold generate_and_parse, parse_with_retry.
  cbn [max_retries].
  set (self := {| max_retries := ceiling; cache_enabled := true;
                  _response_cache := ∅ |}).
  destruct (retry_loop_bad_json py messages validation_model llm_client Hllm
              (Z.to_nat (ceiling + 1)) 0 None self [] eq_refl)
    as (response & payload & Hlast & Hextract & Hloop).
  - cbn [max_retries self]. rewrite Z2Nat.id by lia. reflexivity.
  - lia.
  - exists response, payload. cbn [max_retries self] in Hlast.
    split; [|split; [exact Hextract|exact Hloop]].
    rewrite <- Hlast. f_equal. simpl. lia.
Qed.

(** A model that keeps answering with a broken object, on an interpreter
    that words the error of that object as CPython 3.11 does. *)
Lemma X16_witness :
  let py :=
    {| hash := hash cpython; json_depth := json_depth cpython;
       json_depth_extracting := json_depth_extracting cpython;
       int_max_str_digits := int_max_str_digits cpython;
       decode_error := fun _ =>
         "Expecting property name enclosed in double quotes: line 1 column 2 (char 1)" |} in
  let llm_client : LLMClient :=
    fun _ _ => Return {| response_content := "{oops}"; response_model := "m" |} in
  let run := generate_and_parse py
               [{| msg_role := "user"; msg_content := "Describe login" |}]
               None llm_client 2 in
  success run.1.1 = false /\
  error run.1.1
    = Some ("Failed after 3 attempts. Last error: JSON parsing failed: "
            +:+ "Expecting property name enclosed in double quotes: "
            +:+ "line 1 column 2 (char 1)") /\
  invocations run.2 = 3%nat /\ slept run.2 = [].
Proof.
  intros py llm_client run. subst run.
  destruct (X16_undecodable_answers_fail py
              [{| msg_role := "user"; msg_content := "Describe login" |}]
              None llm_client 2)
    as (response & payload & Hlast & Hextract & ->).
  - lia.
  - intros i msgs.
    exists {| response_content := "{oops}"; response_model := "m" |},
           "{oops}", (decode_error py "{oops}").
    split; [reflexivity|]. split; vm_compute; reflexivity.
  - injection Hlast as <-.
    repeat split; vm_compute; reflexivity.
Defined.

(** ** The cache of the processor *)

(** X17: once a call of [parse_json_response] on a caching processor has
    returned a success or a validation failure, every later call whose
    cache key is the same (the same content hash and model name) returns
    that very result and leaves the processor as it is, whatever its
    [strict] flag and whatever its content: a failure of strict validation
    is also what a later lenient call gets. *)
Theorem X17_cached_result_is_sticky py self content validation_model strict
    r self' :
  cache_enabled self = true ->
  parse_json_response py self content validation_model strict
    = (Return r, self') ->
  success r = true \/ (exists e, error r = Some ("Validation failed: " +:+ e)) ->
  forall content2 validation_model2 strict2,
    _get_cache_key py content2 validation_model2
      = _get_cache_key py content validation_model ->
    parse_json_response py self' content2 validation_model2 strict2
      = (Return r, self').
Proof.
  intros Henabled Hrun Hkind content2 validation_model2 strict2 Hkey.
  assert (Hcached : cache_enabled self' = true /\
                    _response_cache self'
                      !! _get_cache_key py content validation_model = Some r).
  { revert Hrun. unfold parse_json_response. rewrite Henabled.
    destruct (_response_cache self !! _) as [cached|] eqn:Hhit;
      [by intros [= <- <-]|].
    destruct (_extract_json_from_response py content)
      as [[json_content m]|e]; [|discriminate].
    destruct (negb _).
    { intros [= <- <-]. destruct Hkind as [Hs|[e He]]; [discriminate Hs|].
      cbn [error] in He. injection He as He. discriminate He. }
    destruct (from_option _ _ json_content) as [parsed|message|e];
      [| |discriminate]; cycle 1.
    { intros [= <- <-]. destruct Hkind as [Hs|[e He]]; [discriminate Hs|].
      cbn [error] in He. injection He as He. discriminate He. }
    assert (Hstore : forall result,
              (Return result,
               set_cache self
                 (<[_get_cache_key py content validation_model := result]>
                    (_response_cache self))) = (Return r, self') ->
              cache_enabled self' = true /\
              _response_cache self'
                !! _get_cache_key py content validation_model = Some r).
    { intros result [= <- <-]. split; [exact Henabled|].
      cbn [set_cache _response_cache]. apply lookup_insert_eq. }
    destruct validation_model as [model|]; [|apply Hstore].
    destruct parsed; try discriminate.
    cbn [mbind Outcome_bind].
    destruct (construct model members) as [[e|validated]|e];
      [destruct strict| |discriminate]; apply Hstore. }
  destruct Hcached as [Henabled' Hhit].
  unfold parse_json_response. by rewrite Henabled', Hkey, Hhit.
Qed.

(** A strict call on an object the model class refuses, then a lenient call
    on the same text. *)
Lemma X17_witness :
  let py := cpython in
  let model := {| __name__ := "Spec";
                  construct := fun _ => Return (inl "title: field required") |} in
  let fresh := {| max_retries := 3; cache_enabled := true;
                  _response_cache := ∅ |} in
  let strict := parse_json_response py fresh "{}" (Some model) true in
  exists r,
    strict.1 = Return r /\
    success r = false /\
    (parse_json_response py strict.2 "{}" (Some model) false).1 = Return r /\
    (parse_json_response py fresh "{}" (Some model) false).1 <> Return r.
Proof.
  intros py model fresh strict.
  destruct strict as [[r|e] self'] eqn:Hstrict;
    [|exfalso; apply (f_equal fst) in Hstrict; vm_compute in Hstrict;
      discriminate].
  assert (Herror : error r = Some ("Validation failed: " +:+ "title: field required")).
  { apply (f_equal fst) in Hstrict. vm_compute in Hstrict.
    injection Hstrict as <-. reflexivity. }
  exists r. split; [reflexivity|].
  split.
  { apply (f_equal fst) in Hstrict. vm_compute in Hstrict.
    injection Hstrict as <-. reflexivity. }
  split.
  - cbn [snd].
    rewrite (X17_cached_result_is_sticky py fresh "{}" (Some model) true r
               self' eq_refl Hstrict (or_intror (ex_intro _ _ Herror))
               "{}" (Some model) false eq_refl).
    reflexivity.
  - apply (f_equal fst) in Hstrict. vm_compute in Hstrict.
    injection Hstrict as <-. vm_compute. discriminate.
Defined.

(** ** What extraction hands to the decoder *)

Lemma last_char_cons c s : s <> "" -> last_char (String c s) = last_char s.
Proof. by destruct s. Qed.

Lemma last_char_nonempty s c : last_char s = Some c -> s <> "".
Proof. by destruct s. Qed.

Lemma last_char_push c s x :
  last_char s = Some x -> last_char (String c s) = Some x.
Proof. intros H. rewrite last_char_cons; [exact H|by destruct s]. Qed.

Lemma startswith_head c s : startswith (String c "") (String c s) = true.
Proof.
  unfold startswith. cbn. destruct (ascii_dec c c); [by destruct s|done].
Qed.

Lemma rev_app_head s : forall acc c,
  last_char s = Some c -> exists t, String.rev_app s acc = String c t.
Proof.
  induction s as [|a s IH]; intros acc c Hlast; [discriminate|].
  destruct s as [|b s].
  - injection Hlast as <-. by eexists.
  - change (String.rev_app (String a (String b s)) acc)
      with (String.rev_app (String b s) (String a acc)).
    apply IH. exact Hlast.
Qed.

Lemma endswith_last_char s c :
  last_char s = Some c -> endswith (String c "") s = true.
Proof.
  intros Hlast. unfold endswith, String.rev.
  destruct (rev_app_head s "" c Hlast) as [t ->].
  cbn. destruct (ascii_dec c c); [by destruct t|done].
Qed.

Lemma prefix_head a b t :
  String.prefix (String a "") (String b t) = true -> a = b.
Proof.
  cbn. destruct (ascii_dec a b) as [->|]; intros H; [reflexivity|].
  cbv beta iota in H. discriminate H.
Qed.

Lemma startswith_inv c s :
  startswith (String c "") s = true -> exists rest, s = String c rest.
Proof.
  unfold startswith. destruct s as [|a s]; [discriminate|].
  intros ->%prefix_head. by eexists.
Qed.

Lemma rev_app_last s : forall acc,
  s <> "" ->
  exists c t, last_char s = Some c /\ String.rev_app s acc = String c t.
Proof.
  induction s as [|a s IH]; intros acc Hne; [done|].
  destruct s as [|b s].
  - by eexists _, _.
  - change (String.rev_app (String a (String b s)) acc)
      with (String.rev_app (String b s) (String a acc)).
    destruct (IH (String a acc)) as (c & t & Hc & Ht); [done|].
    by exists c, t.
Qed.

(** The braced text [String "{" g] ends with a closing brace only if [g]
    does. *)
Lemma endswith_inv g :
  endswith "}" (String "{" g) = true -> last_char g = Some "}"%char.
Proof.
  unfold endswith, String.rev.
  destruct (rev_app_last (String "{" g) "") as (c & t & Hc & Ht); [done|].
  rewrite Ht. intros <-%prefix_head.
  destruct g as [|b g]; [discriminate Hc|exact Hc].
Qed.

Lemma rstrip_last_char s c :
  last_char s = Some c -> is_space c = false -> rstrip s = s.
Proof.
  intros Hlast Hc. induction s as [|a s IH]; [done|].
  destruct s as [|b s].
  - injection Hlast as ->. cbn. by rewrite Hc.
  - change (rstrip (String a (String b s)))
      with (match rstrip (String b s) with
            | EmptyString => if is_space a then EmptyString else String a EmptyString
            | r => String a r
            end).
    rewrite IH by exact Hlast. reflexivity.
Qed.

Lemma strip_braced s :
  last_char s = Some "}"%char -> strip (String "{" s) = String "{" s.
Proof.
  intros Hlast. unfold strip.
  rewrite (rstrip_last_char (String "{" s) "}");
    [reflexivity|by apply last_char_push|reflexivity].
Qed.

Lemma lazy_object_last s g :
  lazy_object s = Some g -> last_char g = Some "}"%char.
Proof.
  revert g. induction s as [|c s IH]; intros g; [discriminate|].
  cbn [lazy_object].
  destruct (Ascii.eqb_spec c "}") as [->|_]; cbn [andb];
    [destruct (startswith fence (lstrip s)); [by intros [= <-]|]|];
    (destruct (lazy_object s) as [g'|]; [|discriminate]);
    intros [= <-]; by apply last_char_push, IH.
Qed.

Lemma match_braces_last s : forall inner m,
  match_braces inner s = Some m -> last_char m = Some "}"%char.
Proof.
  induction s as [|c s IH]; intros inner m; [discriminate|].
  cbn [match_braces].
  destruct (Ascii.eqb c "{").
  { destruct inner; [discriminate|].
    destruct (match_braces true s) as [m'|] eqn:Hm; [|discriminate].
    intros [= <-]. by eapply last_char_push, IH. }
  destruct (Ascii.eqb_spec c "}") as [->|_].
  { destruct inner; [|by intros [= <-]].
    destruct (match_braces false s) as [m'|] eqn:Hm; [|discriminate].
    intros [= <-]. by eapply last_char_push, IH. }
  destruct (match_braces inner s) as [m'|] eqn:Hm; [|discriminate].
  intros [= <-]. by eapply last_char_push, IH.
Qed.

(** A text that begins with an opening brace and ends with a closing one. *)
Lemma braced_inv {A} (s : string) (x : string -> A) (y r : A) :
  match s with String "{" rest => x rest | _ => y end = r ->
  (exists rest, s = String "{" rest /\ r = x rest) \/ r = y.
Proof.
  destruct s as [|[[] [] [] [] [] [] [] []] rest]; intros <-;
    first [by right | left; by eexists].
Qed.

Lemma match_json_block_braced s group :
  match_json_block s = Some group ->
  exists g, group = String "{" g /\ last_char g = Some "}"%char.
Proof.
  unfold match_json_block. destruct (startswith fence s); [|discriminate].
  intros H. apply braced_inv in H as [(rest & _ & H)|H]; [|discriminate].
  destruct (lazy_object rest) as [g|] eqn:Hg; [|discriminate].
  injection H as H. subst group. exists g. split; [reflexivity|].
  by eapply lazy_object_last.
Qed.

Lemma search_json_block_braced s group :
  search_json_block s = Some group ->
  exists g, group = String "{" g /\ last_char g = Some "}"%char.
Proof.
  induction s as [|c s IH]; cbn [search_json_block].
  - destruct (match_json_block "") eqn:H; [|discriminate].
    intros [= <-]. by eapply match_json_block_braced.
  - destruct (match_json_block (String c s)) eqn:H; [|exact IH].
    intros [= <-]. by eapply match_json_block_braced.
Qed.

Lemma match_json_pattern_braced s m :
  match_json_pattern s = Some m ->
  exists g, m = String "{" g /\ last_char g = Some "}"%char.
Proof.
  unfold match_json_pattern. intros H.
  apply braced_inv in H as [(rest & _ & H)|H]; [|discriminate].
  destruct (match_braces false rest) as [g|] eqn:Hg; [|discriminate].
  injection H as H. subst m. exists g. split; [reflexivity|].
  by eapply match_braces_last.
Qed.

Lemma findall_json_pattern_braced s : forall skip m,
  In m (findall_json_pattern skip s) ->
  exists g, m = String "{" g /\ last_char g = Some "}"%char.
Proof.
  induction s as [|c s IH]; intros skip m; [intros []|].
  cbn [findall_json_pattern]. destruct skip as [|k]; [|apply IH].
  destruct (match_json_pattern (String c s)) as [m'|] eqn:Hm; [|apply IH].
  intros [<-|Hin]; [by eapply match_json_pattern_braced|by eapply IH].
Qed.

Lemma first_decodable_in py matches m :
  first_decodable py matches = Return (Some m) -> In m matches.
Proof.
  induction matches as [|candidate rest IH]; [discriminate|].
  cbn [first_decodable].
  destruct (json_loads py _ candidate) as [document|message|e].
  - intros [= <-]. by left.
  - intros H. right. by apply IH.
  - discriminate.
Qed.

Lemma extracted_json_braced py content payload :
  _extract_json_from_response py content = Return (payload, ParseMode.JSON) ->
  exists g, payload = Some (String "{" g) /\ last_char g = Some "}"%char.
Proof.
  unfold _extract_json_from_response.
  destruct (search_json_block (strip content)) as [group|] eqn:Hblock.
  { apply search_json_block_braced in Hblock as (g & -> & Hlast).
    intros [= <-]. rewrite (strip_braced g Hlast). by exists g. }
  destruct (startswith "{" (strip content) && endswith "}" (strip content))
    eqn:Hwhole.
  { apply andb_true_iff in Hwhole as [Hopen Hclose].
    intros [= <-].
    destruct (startswith_inv _ _ Hopen) as [g Hg]. rewrite Hg in *.
    exists g. split; [reflexivity|]. by apply endswith_inv in Hclose. }
  destruct (first_decodable py _) as [[m|]|e] eqn:Hfind;
    cbn [mbind Outcome_bind].
  - apply first_decodable_in, findall_json_pattern_braced in Hfind
      as (g & -> & Hlast).
    intros [= <-]. by exists g.
  - destruct (existsb _ _); discriminate.
  - discriminate.
Qed.

(** X18: whenever [_extract_json_from_response] answers with mode json, its
    payload begins with an opening brace and ends with a closing brace,
    whichever of the three patterns found it. *)
Theorem X18_json_payload_is_braced py content payload :
  _extract_json_from_response py content = Return (payload, ParseMode.JSON) ->
  exists p,
    payload = Some p /\ startswith "{" p = true /\ endswith "}" p = true.
Proof.
  intros H. apply extracted_json_braced in H as (g & -> & Hlast).
  eexists. split; [reflexivity|]. split; [apply startswith_head|].
  by apply endswith_last_char, last_char_push.
Qed.

(** An object in a fenced block after some prose. *)
Lemma X18_witness :
  let content := "Here it is: ```json {" +:+ quoted "a" +:+ ": 1} ``` done" in
  exists p,
    _extract_json_from_response cpython content
      = Return (Some p, ParseMode.JSON) /\
    startswith "{" p = true /\ endswith "}" p = true.
Proof.
  intros content.
  assert (Hextract : _extract_json_from_response cpython content
                     = Return (Some ("{" +:+ quoted "a" +:+ ": 1}"),
                               ParseMode.JSON))
    by (vm_compute; reflexivity).
  destruct (X18_json_payload_is_braced cpython content _ Hextract)
    as (p & [= <-] & Hopen & Hclose).
  eexists. split; [exact Hextract|]. by split.
Defined.

(** ** Decoding a braced payload *)

Lemma object_members_object scan n : forall s acc v rest,
  object_members scan n s acc = Scanned v rest ->
  exists members, v = JObject members.
Proof.
  induction n as [|n IH]; intros s acc v rest; [discriminate|].
  cbn [object_members].
  destruct (scanstring s) as [[key s1]|]; [|discriminate].
  destruct (skip_ws s1) as [|[[] [] [] [] [] [] [] []] s2]; try discriminate.
  destruct (scan (skip_ws s2)) as [v0 s3| |e]; [|discriminate|discriminate].
  destruct (skip_ws s3) as [|[[] [] [] [] [] [] [] []] s4]; try discriminate.
  - intros [= <- _]. by eexists.
  - destruct (skip_ws s4) as [|c s5]; [discriminate|].
    destruct (Ascii.eqb c quote); [apply IH|discriminate].
Qed.

Lemma scan_once_brace max_digits depth rest :
  scan_once max_digits depth (String "{" rest) =
  match depth with
  | O => GaveUp (RecursionError "object")
  | S depth =>
      match skip_ws rest with
      | String "}" s => Scanned (JObject []) s
      | String c s =>
          if Ascii.eqb c quote
          then object_members (scan_once max_digits depth)
                 (String.length rest) s []
          else Malformed
      | EmptyString => Malformed
      end
  end.
Proof. destruct depth; reflexivity. Qed.

Lemma json_loads_braced py depth g document :
  json_loads py depth (String "{" g) = Loaded document ->
  exists members, document = JObject members.
Proof.
  unfold json_loads.
  change (skip_ws (String "{" g)) with (String "{" g).
  rewrite scan_once_brace.
  destruct depth as [|depth]; [discriminate|].
  assert (Hscan : forall v tail,
            match skip_ws g with
            | String "}" s => Scanned (JObject []) s
            | String c s =>
                if Ascii.eqb c quote
                then object_members
                       (scan_once (int_max_str_digits py) depth)
                       (String.length g) s []
                else Malformed
            | EmptyString => Malformed
            end = Scanned v tail -> exists members, v = JObject members).
  { intros v tail.
    destruct (skip_ws g) as [|c s]; [discriminate|].
    destruct (Ascii.eqb c quote) eqn:Hquote.
    - apply Ascii.eqb_eq in Hquote as ->. apply object_members_object.
    - destruct c as [[] [] [] [] [] [] [] []];
        first [discriminate | intros [= <- _]; by eexists]. }
  destruct (match skip_ws g with EmptyString => _ | _ => _ end)
    as [v tail| |e] eqn:Hrun; [|discriminate|discriminate].
  destruct (Hscan _ _ eq_refl) as [members ->].
  destruct (skip_ws tail); [|discriminate].
  intros [= <-]. by eexists.
Qed.

(** X19: [parse_json_response] raises only what the decoder raises that is
    no [JSONDecodeError], in extraction or on the payload, or what the
    constructor of the validation model raises that is no
    [ValidationError]; the processor is then as it was.  What it decodes in
    json mode is brace-delimited, so a document that decodes is an object:
    the call with keyword arguments never fails for want of a mapping. *)
Theorem X19_parse_json_response_raises_only py self content validation_model
    strict e self' :
  parse_json_response py self content validation_model strict
    = (Raise e, self') ->
  self' = self /\
  (_extract_json_from_response py content = Raise e \/
   (exists payload,
      _extract_json_from_response py content
        = Return (Some payload, ParseMode.JSON) /\
      json_loads py (json_depth py) payload = Uncaught e) \/
   (exists payload members model,
      _extract_json_from_response py content
        = Return (Some payload, ParseMode.JSON) /\
      json_loads py (json_depth py) payload = Loaded (JObject members) /\
      validation_model = Some model /\
      construct model members = Raise e)).
Proof.
  unfold parse_json_response.
  destruct (if cache_enabled self then _ else _); [discriminate|].
  destruct (_extract_json_from_response py content)
    as [[json_content m]|e0] eqn:Hextract;
    [|intros [= <- <-]; split; [reflexivity|by left]].
  destruct (decide (m = ParseMode.JSON)) as [->|Hm];
    [|rewrite bool_decide_eq_false_2 by exact Hm; discriminate].
  rewrite bool_decide_eq_true_2 by reflexivity. cbn [negb].
  destruct (extracted_json_braced _ _ _ Hextract) as (g & -> & _).
  cbn [from_option].
  destruct (json_loads py (json_depth py) (String "{" g))
    as [parsed|message|e0] eqn:Hloads.
  - destruct (json_loads_braced _ _ _ _ Hloads) as [members ->].
    destruct validation_model as [model|];
      [|destruct (cache_enabled self); discriminate].
    cbn [mbind Outcome_bind].
    destruct (construct model members) as [[e1|validated]|e1] eqn:Hconstruct;
      [destruct strict| |]; try (destruct (cache_enabled self); discriminate).
    intros [= <- <-]. split; [reflexivity|]. right; right.
    by exists (String "{" g), members, model.
  - discriminate.
  - intros [= <- <-]. split; [reflexivity|]. right; left.
    by exists (String "{" g).
Qed.

(** An object that holds arrays nested four deep, decoded where three
    containers can still be entered. *)
Lemma X19_witness :
  let py :=
    {| hash := hash cpython; json_depth := 3; json_depth_extracting := 2;
       int_max_str_digits := int_max_str_digits cpython;
       decode_error := decode_error cpython |} in
  let self := {| max_retries := 3; cache_enabled := true;
                 _response_cache := ∅ |} in
  let content := "{" +:+ quoted "a" +:+ ":[[[[1]]]]}" in
  parse_json_response py self content None true
    = (Raise (RecursionError "array"), self) /\
  json_loads py (json_depth py) content = Uncaught (RecursionError "array").
Proof.
  intros py self content.
  assert (Hrun : parse_json_response py self content None true
                 = (Raise (RecursionError "array"), self))
    by (vm_compute; reflexivity).
  split; [exact Hrun|].
  destruct (X19_parse_json_response_raises_only py self content None true
              _ _ Hrun)
    as [_ [Hextract|[(payload & Hextract & Hloads)
                    |(payload & members & model & _ & _ & Hmodel & _)]]].
  - vm_compute in Hextract. discriminate Hextract.
  - assert (payload = content) as ->; [|exact Hloads].
    vm_compute in Hextract. injection Hextract as <-. reflexivity.
  - discriminate Hmodel.
Defined.

(** ** Answers without an opening brace *)

Lemma no_open_brace_head c s :
  no_open_brace (String c s) = true -> c <> "{"%char /\ no_open_brace s = true.
Proof.
  cbn [no_open_brace]. intros [Hc Hs]%andb_true_iff. split; [|exact Hs].
  apply negb_true_iff in Hc. by apply Ascii.eqb_neq.
Qed.

Lemma no_open_brace_lstrip s :
  no_open_brace s = true -> no_open_brace (lstrip s) = true.
Proof.
  induction s as [|c s IH]; [done|]. intros H.
  cbn [lstrip]. destruct (is_space c); [|exact H].
  apply IH. by apply no_open_brace_head in H as [_ H].
Qed.

Lemma no_open_brace_rstrip s :
  no_open_brace s = true -> no_open_brace (rstrip s) = true.
Proof.
  induction s as [|c s IH]; [done|]. intros H.
  apply no_open_brace_head in H as [Hc Hs].
  assert (Hhead : negb (Ascii.eqb c "{") = true)
    by (by apply negb_true_iff, Ascii.eqb_neq).
  cbn [rstrip]. destruct (rstrip s) as [|b r] eqn:Hr.
  - destruct (is_space c); [done|]. cbn [no_open_brace]. by rewrite Hhead.
  - cbn [no_open_brace]. rewrite Hhead. by apply IH.
Qed.

Lemma no_open_brace_drop n : forall s,
  no_open_brace s = true -> no_open_brace (drop_chars n s) = true.
Proof.
  induction n as [|n IH]; intros [|c s] H; try done.
  cbn [drop_chars]. apply IH. by apply no_open_brace_head in H as [_ H].
Qed.

Lemma no_open_brace_not_braced s rest :
  no_open_brace s = true -> s <> String "{" rest.
Proof. intros H ->. by apply no_open_brace_head in H as [H _]. Qed.

Lemma match_json_block_no_brace s :
  no_open_brace s = true -> match_json_block s = None.
Proof.
  intros H. destruct (match_json_block s) as [group|] eqn:Hmatch; [|done].
  exfalso. revert Hmatch. unfold match_json_block.
  destruct (startswith fence s); [|discriminate].
  intros Hmatch. apply braced_inv in Hmatch as [(rest & Hrest & _)|Hnone];
    [|discriminate].
  revert Hrest. apply no_open_brace_not_braced, no_open_brace_lstrip.
  destruct (startswith_ignorecase "json" (drop_chars 3 s));
    repeat apply no_open_brace_drop; exact H.
Qed.

Lemma search_json_block_no_brace s :
  no_open_brace s = true -> search_json_block s = None.
Proof.
  induction s as [|c s IH]; intros H; cbn [search_json_block];
    rewrite (match_json_block_no_brace _ H); [done|].
  apply IH. by apply no_open_brace_head in H as [_ H].
Qed.

Lemma findall_json_pattern_no_brace s : forall skip,
  no_open_brace s = true -> findall_json_pattern skip s = [].
Proof.
  induction s as [|c s IH]; intros skip H; [done|].
  pose proof (no_open_brace_head _ _ H) as [Hc Hs].
  cbn [findall_json_pattern]. destruct skip as [|k]; [|by apply IH].
  assert (Hnone : match_json_pattern (String c s) = None).
  { unfold match_json_pattern. destruct c as [[] [] [] [] [] [] [] []];
      try reflexivity. by destruct Hc. }
  rewrite Hnone. by apply IH.
Qed.

Lemma prefix_trans p : forall q s,
  String.prefix p q = true -> String.prefix q s = true -> String.prefix p s = true.
Proof.
  induction p as [|a p IH]; intros q s; [by destruct s|].
  destruct q as [|b q]; [by destruct s|].
  destruct s as [|c s]; [discriminate|].
  cbn [String.prefix].
  destruct (ascii_dec a b) as [->|]; [|discriminate].
  destruct (ascii_dec b c) as [->|]; [|discriminate].
  apply IH.
Qed.

Lemma contains_prefix p q s :
  String.prefix p q = true -> contains q s = true -> contains p s = true.
Proof.
  intros Hpq. induction s as [|c s IH]; cbn [contains]; unfold startswith;
    intros [H|H]%orb_true_iff; apply orb_true_iff;
    first [left; by eapply prefix_trans | right; by apply IH | discriminate].
Qed.

(** X20: an answer without an opening brace is never classified as json:
    its stripped text is the payload, with mode markdown when it holds a
    hash sign, a fence of three backquotes, a star, a hyphen or a vertical
    bar, and mode conversation otherwise. *)
Theorem X20_text_without_brace_is_prose py content :
  no_open_brace content = true ->
  _extract_json_from_response py content =
  Return (Some (strip content),
          if existsb (fun marker => contains marker (strip content))
               markdown_markers
          then ParseMode.MARKDOWN else ParseMode.CONVERSATION).
Proof.
  intros H.
  assert (Hstrip : no_open_brace (strip content) = true)
    by (by apply no_open_brace_lstrip, no_open_brace_rstrip).
  unfold _extract_json_from_response.
  rewrite (search_json_block_no_brace _ Hstrip).
  assert (Hopen : startswith "{" (strip content) = false).
  { destruct (startswith "{" (strip content)) eqn:Hopen; [|done].
    apply startswith_inv in Hopen as [rest Hrest].
    by apply no_open_brace_not_braced with (rest := rest) in Hstrip. }
  rewrite Hopen, (findall_json_pattern_no_brace _ 0%nat Hstrip).
  cbn [andb first_decodable mbind Outcome_bind existsb markdown_markers].
  destruct (contains "#" (strip content)) eqn:Hhash; [reflexivity|].
  cbn [orb].
  assert (Htwo : contains "##" (strip content) = false).
  { destruct (contains "##" _) eqn:Hc; [|done].
    by rewrite (contains_prefix "#" "##" _ eq_refl Hc) in Hhash. }
  assert (Hthree : contains "###" (strip content) = false).
  { destruct (contains "###" _) eqn:Hc; [|done].
    by rewrite (contains_prefix "#" "###" _ eq_refl Hc) in Hhash. }
  rewrite Htwo, Hthree. cbn [orb].
  by destruct (contains "```" (strip content) || _).
Qed.

(** Prose with a hyphen counts as markdown; without one, as conversation. *)
Lemma X20_witness :
  _extract_json_from_response cpython "  It depends - see the notes. "
    = Return (Some "It depends - see the notes.", ParseMode.MARKDOWN) /\
  _extract_json_from_response cpython "  It depends. "
    = Return (Some "It depends.", ParseMode.CONVERSATION).
Proof.
  split.
  - rewrite X20_text_without_brace_is_prose by reflexivity.
    vm_compute; reflexivity.
  - rewrite X20_text_without_brace_is_prose by reflexivity.
    vm_compute; reflexivity.
Defined.

(** ** The loops of the decoder run within their bounds *)

Ltac break_match_in H :=
  repeat match type of H with
         | context [match ?x with _ => _ end] => destruct x eqn:?
         | context [if ?x then _ else _] => destruct x eqn:?
         | context [mbind _ ?x] =>
             destruct x as [[? ?]|] eqn:?; cbn [mbind option_bind] in H
         end.

Lemma skip_ws_length s : (String.length (skip_ws s) <= String.length s)%nat.
Proof.
  induction s as [|c s IH]; [done|]. cbn [skip_ws].
  destruct (is_json_ws c); cbn [String.length]; lia.
Qed.

Lemma drop_chars_length n : forall s,
  (String.length (drop_chars n s) <= String.length s)%nat.
Proof.
  induction n as [|n IH]; intros [|c s]; cbn [drop_chars String.length];
    try lia.
  specialize (IH s). lia.
Qed.

Lemma span_digits_length s digits tail :
  span_digits s = (digits, tail) ->
  (String.length tail <= String.length s)%nat.
Proof.
  revert digits tail. induction s as [|c s IH]; intros digits tail.
  - intros [= <- <-]. done.
  - cbn [span_digits]. destruct (is_digit c); [|intros [= <- <-]; done].
    destruct (span_digits s) as [d t]. intros [= <- <-].
    specialize (IH d t eq_refl). cbn [String.length]. lia.
Qed.

Lemma scanstring_length n : forall s lexeme tail,
  (String.length s <= n)%nat ->
  scanstring s = Some (lexeme, tail) ->
  (String.length tail < String.length s)%nat.
Proof.
  induction n as [|n IH]; intros s lexeme tail Hlen;
    (destruct s as [|c s]; [discriminate|]); [cbn in Hlen; lia|].
  cbn [String.length] in Hlen. cbn [scanstring].
  destruct (Ascii.eqb c quote); [intros [= <- <-]; cbn [String.length]; lia|].
  destruct (Ascii.eqb c backslash).
  - intros H.
    assert (Hsub : exists rest' lexeme',
              scanstring rest' = Some (lexeme', tail) /\
              (String.length rest' < String.length s)%nat).
    { break_match_in H; try discriminate H;
        match goal with
        | E : scanstring ?r = Some _ |- _ =>
            exists r; eexists; split;
            [rewrite E; injection H as <- <-; reflexivity
            |subst; cbn [String.length]; lia]
        end. }
    destruct Hsub as (rest' & lexeme' & Hrest & Hshort).
    apply IH in Hrest; [|lia]. cbn [String.length]. lia.
  - destruct (nat_of_ascii c <? 32)%nat; [discriminate|].
    destruct (scanstring s) as [[l t]|] eqn:Hs; [|discriminate].
    intros [= <- <-]. apply IH in Hs; [|lia]. cbn [String.length]. lia.
Qed.

Ltac break_one :=
  match goal with
  | |- context [match ?x with _ => _ end] => destruct x eqn:?
  end.

Ltac pair_bound E :=
  injection E as <- <-; cbn [String.length] in *; lia.

Lemma match_number_length s lexeme tail :
  match_number s = Some (lexeme, tail) ->
  (String.length tail <= String.length s)%nat.
Proof.
  unfold match_number.
  (* the sign *)
  break_one.
  match goal with
  | E : match ?src with _ => _ end = (_, ?b) |- _ =>
      assert (H1 : (String.length b <= String.length src)%nat)
        by (clear - E; destruct src as [|[[] [] [] [] [] [] [] []] ?];
            pair_bound E);
      clear E
  end.
  (* the integer part *)
  break_one; [discriminate|].
  match goal with
  | |- context [if is_digit ?c then _ else _] =>
      destruct (is_digit c); [|discriminate]
  end.
  break_one.
  match goal with
  | E : (if _ then (_, ?src) else _) = (_, ?b) |- _ =>
      assert (H2 : (String.length b <= String.length src)%nat)
        by (clear - E;
            match type of E with
            | (if ?t then _ else _) = _ => destruct t
            end; [pair_bound E|];
            destruct (span_digits src) as [? ?] eqn:Es;
            apply span_digits_length in Es; pair_bound E);
      clear E
  end.
  (* the fraction *)
  break_one.
  match goal with
  | E : match ?src with _ => _ end = (_, ?b) |- _ =>
      assert (H3 : (String.length b <= String.length src)%nat)
        by (clear - E; destruct src as [|[[] [] [] [] [] [] [] []] r];
            try pair_bound E;
            destruct (span_digits r) as [[|? ?] ?] eqn:Es;
            apply span_digits_length in Es; pair_bound E);
      clear E
  end.
  (* the exponent *)
  break_one.
  match goal with
  | E : match ?src with _ => _ end = (_, ?b) |- _ =>
      assert (H4 : (String.length b <= String.length src)%nat)
        by (clear - E; destruct src as [|e rest3]; [pair_bound E|];
            match type of E with
            | (if ?t then _ else _) = _ => destruct t
            end; [|pair_bound E];
            match type of E with
            | context [match rest3 with _ => _ end] =>
                destruct (match rest3 with
                          | String "+" r => ("+", r)
                          | String "-" r => ("-", r)
                          | _ => (EmptyString, rest3)
                          end) as [esign rest4] eqn:E6
            end;
            assert (String.length rest4 <= String.length rest3)%nat
              by (clear - E6;
                  destruct rest3 as [|[[] [] [] [] [] [] [] []] ?];
                  pair_bound E6);
            destruct (span_digits rest4) as [[|? ?] ?] eqn:Es;
            apply span_digits_length in Es; pair_bound E);
      clear E
  end.
  intros [= _ <-]. cbn [String.length] in *. lia.
Qed.

Lemma literal_length word v s r :
  literal word v s = Some r -> (String.length r.2 <= String.length s)%nat.
Proof.
  unfold literal. destruct (startswith word s); [|discriminate].
  intros [= <-]. apply drop_chars_length.
Qed.
Lemma scan_once_bracket max_digits depth rest :
  scan_once max_digits depth (String "[" rest) =
  match depth with
  | O => GaveUp (RecursionError "array")
  | S depth =>
      match skip_ws rest with
      | String "]" s => Scanned (JArray []) s
      | s => array_elements (scan_once max_digits depth)
               (String.length rest) s []
      end
  end.
Proof. destruct depth; reflexivity. Qed.

Section Turns.
Variable scan : string -> Scan.
Hypothesis scan_length : forall s v rest,
scan s = Scanned v rest -> (String.length rest <= String.length s)%nat.
Hypothesis scan_empty : scan "" = Malformed.

Lemma skip_ws_cons s c rest :
skip_ws s = String c rest -> (String.length rest < String.length s)%nat.
Proof.
intros H. pose proof (skip_ws_length s) as Hlen.
rewrite H in Hlen. cbn [String.length] in Hlen. lia.
Qed.

Ltac run_turn :=
intros ?;
first [progress cbn [object_members] | progress cbn [array_elements]];
repeat (match goal with
        | E : ?l = _ |- context [?l] => rewrite E
        end; cbv beta iota zeta);
reflexivity.

Ltac loop_ends r :=
left; exists r; intros ?m; split; [revert m; run_turn|try discriminate].

(** One turn of the loop over the members of an object: either the loop
  ends, with [r], or it goes on from a shorter text [s']. *)
Lemma object_members_turn s acc :
(exists r, forall m, object_members scan (S m) s acc = r /\
           (forall v rest, r = Scanned v rest ->
              (String.length rest < String.length s)%nat)) \/
(exists s' acc',
   (String.length s' < String.length s)%nat /\
   forall m, object_members scan (S m) s acc = object_members scan m s' acc').
Proof.
destruct (scanstring s) as [[key s1]|] eqn:Hkey; [|loop_ends Malformed].
pose proof (scanstring_length _ _ _ _ (le_n _) Hkey) as Hkey_length.
destruct (skip_ws s1) as [|c1 s2] eqn:Hcolon; [loop_ends Malformed|].
pose proof (skip_ws_cons _ _ _ Hcolon) as Hcolon_length.
pose proof (skip_ws_length s2) as Hvalue_length.
destruct c1 as [[] [] [] [] [] [] [] []]; try (loop_ends Malformed).
destruct (scan (skip_ws s2)) as [v s3| |e] eqn:Hscan;
  [|loop_ends Malformed|loop_ends (GaveUp e)].
pose proof (scan_length _ _ _ Hscan) as Hscan_length.
destruct (skip_ws s3) as [|c3 s4] eqn:Hnext; [loop_ends Malformed|].
pose proof (skip_ws_cons _ _ _ Hnext) as Hnext_length.
destruct c3 as [[] [] [] [] [] [] [] []]; try (loop_ends Malformed).
- loop_ends (Scanned (JObject (acc ++ [(key, v)])) s4).
  intros v' rest [= _ <-]. lia.
- destruct (skip_ws s4) as [|c5 s5] eqn:Hquote; [loop_ends Malformed|].
  pose proof (skip_ws_cons _ _ _ Hquote) as Hquote_length.
  destruct (Ascii.eqb c5 quote) eqn:Hc5; [|loop_ends Malformed].
  right. exists s5, (acc ++ [(key, v)])%list. split; [lia|run_turn].
Qed.

Lemma object_members_length n : forall s acc v rest,
object_members scan n s acc = Scanned v rest ->
(String.length rest < String.length s)%nat.
Proof.
induction n as [|n IH]; intros s acc v rest; [discriminate|].
destruct (object_members_turn s acc)
  as [(r & Hr)|(s' & acc' & Hshort & Hturn)].
- destruct (Hr n) as [-> Hlen]. apply Hlen.
- rewrite Hturn. intros H%IH. lia.
Qed.

(** With as many turns as the text has characters, more turns change
  nothing. *)
Lemma object_members_turns n : forall s acc extra,
(String.length s <= n)%nat ->
object_members scan (n + extra) s acc = object_members scan n s acc.
Proof.
induction n as [|n IH]; intros s acc extra Hlen.
- destruct s; [|cbn in Hlen; lia]. by destruct extra.
- change (S n + extra)%nat with (S (n + extra)).
  destruct (object_members_turn s acc)
    as [(r & Hr)|(s' & acc' & Hshort & Hturn)].
  + by rewrite (proj1 (Hr (n + extra)%nat)), (proj1 (Hr n)).
  + rewrite !Hturn. apply IH. lia.
Qed.

Lemma array_elements_turn s acc :
(exists r, forall m, array_elements scan (S m) s acc = r /\
           (forall v rest, r = Scanned v rest ->
              (String.length rest < String.length s)%nat)) \/
(exists s' acc',
   (String.length s' < String.length s)%nat /\
   forall m, array_elements scan (S m) s acc = array_elements scan m s' acc').
Proof.
destruct (scan s) as [v s1| |e] eqn:Hscan;
  [|loop_ends Malformed|loop_ends (GaveUp e)].
pose proof (scan_length _ _ _ Hscan) as Hscan_length.
destruct (skip_ws s1) as [|c s2] eqn:Hnext; [loop_ends Malformed|].
pose proof (skip_ws_cons _ _ _ Hnext) as Hnext_length.
pose proof (skip_ws_length s2) as Hvalue_length.
destruct c as [[] [] [] [] [] [] [] []]; try (loop_ends Malformed).
- loop_ends (Scanned (JArray (acc ++ [v])) s2).
  intros v' rest [= _ <-]. lia.
- right. exists (skip_ws s2), (acc ++ [v])%list. split; [lia|run_turn].
Qed.

Lemma array_elements_length n : forall s acc v rest,
array_elements scan n s acc = Scanned v rest ->
(String.length rest < String.length s)%nat.
Proof.
induction n as [|n IH]; intros s acc v rest; [discriminate|].
destruct (array_elements_turn s acc)
  as [(r & Hr)|(s' & acc' & Hshort & Hturn)].
- destruct (Hr n) as [-> Hlen]. apply Hlen.
- rewrite Hturn. intros H%IH. lia.
Qed.

Lemma array_elements_turns n : forall s acc extra,
(String.length s <= n)%nat ->
array_elements scan (n + extra) s acc = array_elements scan n s acc.
Proof.
induction n as [|n IH]; intros s acc extra Hlen.
- destruct s; [|cbn in Hlen; lia]. destruct extra; [done|].
  cbn [array_elements Nat.add]. by rewrite scan_empty.
- change (S n + extra)%nat with (S (n + extra)).
  destruct (array_elements_turn s acc)
    as [(r & Hr)|(s' & acc' & Hshort & Hturn)].
  + by rewrite (proj1 (Hr (n + extra)%nat)), (proj1 (Hr n)).
  + rewrite !Hturn. apply IH. lia.
Qed.
End Turns.

(** What [scan_once] leaves is no longer than what it was given. *)
Lemma scan_once_length max_digits depth : forall s v rest,
  scan_once max_digits depth s = Scanned v rest ->
  (String.length rest <= String.length s)%nat.
Proof.
  assert (Hscalar : forall depth s v rest,
            (forall c t, s = String c t ->
               Ascii.eqb c "{" = false /\ Ascii.eqb c "[" = false) ->
            scan_once max_digits depth s = Scanned v rest ->
            (String.length rest <= String.length s)%nat).
  { intros d s v rest Hs. destruct s as [|c t]; [destruct d; discriminate|].
    destruct (Hs c t eq_refl) as [Hbrace Hbracket].
    assert (Hrun : scan_once max_digits d (String c t) =
              if Ascii.eqb c quote then
                match scanstring t with
                | Some (lexeme, s) => Scanned (JString lexeme) s
                | None => Malformed
                end
              else
                let scanned (r : option (Json * string)) (otherwise : Scan) :=
                  match r with
                  | Some (v, s) => Scanned v s
                  | None => otherwise
                  end in
                scanned (literal "null" JNull (String c t)) (
                scanned (literal "true" (JBool true) (String c t)) (
                scanned (literal "false" (JBool false) (String c t)) (
                match match_number (String c t) with
                | Some (lexeme, s) =>
                    match int_conversion max_digits lexeme with
                    | Some e => GaveUp e
                    | None => Scanned (JNumber lexeme) s
                    end
                | None =>
                    scanned (literal "NaN" (JNumber "NaN") (String c t)) (
                    scanned (literal "Infinity" (JNumber "Infinity")
                               (String c t)) (
                    scanned (literal "-Infinity" (JNumber "-Infinity")
                               (String c t))
                      Malformed))
                end)))).
    { destruct d; cbn [scan_once]; by rewrite Hbrace, Hbracket. }
    rewrite Hrun. clear Hrun. cbv zeta.
    destruct (Ascii.eqb c quote).
    { destruct (scanstring t) as [[l s']|] eqn:Hstr; [|discriminate].
      intros [= _ <-].
      apply (scanstring_length _ _ _ _ (le_n _)) in Hstr.
      cbn [String.length]. lia. }
    repeat match goal with
           | |- context [literal ?w ?j ?s] =>
               let E := fresh "E" in
               destruct (literal w j s) as [[? ?]|] eqn:E;
               [apply literal_length in E; by intros [= _ <-]|]
           end.
    destruct (match_number (String c t)) as [[l s']|] eqn:Hnum.
    { apply match_number_length in Hnum.
      destruct (int_conversion max_digits l); [discriminate|].
      by intros [= _ <-]. }
    repeat match goal with
           | |- context [literal ?w ?j ?s] =>
               let E := fresh "E" in
               destruct (literal w j s) as [[? ?]|] eqn:E;
               [apply literal_length in E; by intros [= _ <-]|]
           end.
    discriminate. }
  induction depth as [|depth IH]; intros s v rest.
  - destruct s as [|c t]; [discriminate|].
    destruct (Ascii.eqb_spec c "{") as [->|Hbrace]; [discriminate|].
    destruct (Ascii.eqb_spec c "[") as [->|Hbracket]; [discriminate|].
    apply Hscalar. intros c' t' [= <- <-].
    split; by apply Ascii.eqb_neq.
  - destruct s as [|c t]; [discriminate|].
    destruct (Ascii.eqb_spec c "{") as [->|Hbrace].
    { rewrite scan_once_brace.
      destruct (skip_ws t) as [|c1 s1] eqn:Hws; [discriminate|].
      apply skip_ws_cons in Hws.
      destruct (Ascii.eqb c1 quote) eqn:Hquote.
      - apply Ascii.eqb_eq in Hquote as ->.
        intros H%(object_members_length _ IH). cbn [String.length]. lia.
      - destruct c1 as [[] [] [] [] [] [] [] []]; try discriminate.
        intros [= _ <-]. cbn [String.length]. lia. }
    destruct (Ascii.eqb_spec c "[") as [->|Hbracket].
    { rewrite scan_once_bracket.
      pose proof (skip_ws_length t) as Hws.
      assert (Hloop : array_elements (scan_once max_digits depth)
                        (String.length t) (skip_ws t) [] = Scanned v rest ->
                      (String.length rest <= String.length (String "[" t))%nat).
      { intros H%(array_elements_length _ IH). cbn [String.length]. lia. }
      destruct (skip_ws t) as [|c1 s1] eqn:Hc1; [exact Hloop|].
      destruct c1 as [[] [] [] [] [] [] [] []]; try exact Hloop.
      intros [= _ <-]. cbn [String.length] in *. lia. }
    apply Hscalar. intros c' t' [= <- <-].
    split; by apply Ascii.eqb_neq.
Qed.

(** The loops of [scan_once] never stop for want of turns: with more turns
    than the characters of the text they start on, they give the same
    answer. *)
Lemma scan_once_loops_within_bounds max_digits depth rest extra :
  (forall s,
     skip_ws rest = String quote s ->
     object_members (scan_once max_digits depth)
       (String.length rest + extra) s []
     = object_members (scan_once max_digits depth) (String.length rest) s []) /\
  array_elements (scan_once max_digits depth)
    (String.length rest + extra) (skip_ws rest) []
  = array_elements (scan_once max_digits depth)
      (String.length rest) (skip_ws rest) [].
Proof.
  split.
  - intros s Hs. apply object_members_turns.
    + apply scan_once_length.
    + apply skip_ws_cons in Hs. lia.
  - apply array_elements_turns.
    + apply scan_once_length.
    + by destruct depth.
    + apply skip_ws_length.
Qed.

(** ** Sections of a markdown answer *)

Lemma save_section_lookup scan title :
  save_section scan !! title =
  if decide (current_section scan = Some title /\ title <> "")
  then Some (strip (join nl (current_content scan)))
  else sections scan !! title.
Proof.
  unfold save_section. destruct (current_section scan) as [t|].
  - destruct (String.eqb_spec t "") as [->|Hne].
    + destruct (decide _) as [[[= <-] H]|_]; [done|reflexivity].
    + destruct (decide _) as [[[= <-] _]|Hn].
      * apply lookup_insert_eq.
      * apply lookup_insert_ne. intros <-. by apply Hn.
  - destruct (decide _) as [[H _]|_]; [discriminate|reflexivity].
Qed.

Lemma scan_line_no_empty scan line :
  sections scan !! "" = None -> sections (scan_line scan line) !! "" = None.
Proof.
  intros H. unfold scan_line. destruct (startswith "#" line); [|exact H].
  cbn [sections]. rewrite save_section_lookup.
  destruct (decide _) as [[_ Hne]|_]; [done|exact H].
Qed.

(** What the loop leaves in the dictionary comes from a section of the
    lines still to read, from the section that is open, or from the
    dictionary as it is. *)
Lemma sections_sound lines : forall scan title body,
  sections scan !! "" = None ->
  save_section (fold_left scan_line lines scan) !! title = Some body ->
  title <> "" /\
  (section_of lines title body \/
   (current_section scan = Some title /\
    section_body title body (current_content scan) lines) \/
   (sections scan !! title = Some body /\
    current_section scan <> Some title /\
    untitled title lines)).
Proof.
  induction lines as [|line lines IH]; intros scan title body Hempty.
  - cbn [fold_left]. rewrite save_section_lookup.
    destruct (decide _) as [[Hcur Hne]|Hn].
    + intros [= <-]. split; [exact Hne|]. right; left. split; [exact Hcur|].
      exists [], []. rewrite (app_nil_r (current_content scan)).
      split; [reflexivity|]. split; [constructor|].
      split; [discriminate|]. split; [constructor|reflexivity].
    + intros Hlook.
      assert (Hne : title <> "")
        by (intros ->; rewrite Hempty in Hlook; discriminate).
      split; [exact Hne|]. right; right. split; [exact Hlook|].
      split; [|constructor]. intros Hcur. by apply Hn.
  - cbn [fold_left]. intros Hlook.
    destruct (IH _ _ _ (scan_line_no_empty _ line Hempty) Hlook)
      as [Hne [HA|[[Hcur Hbody]|(Hsec & Hcur & Hrest)]]];
      (split; [exact Hne|]).
    + left. destruct HA as (pre & header & after & -> & Hh & Ht & Hbody).
      by exists (line :: pre), header, after.
    + unfold scan_line in Hcur, Hbody.
      destruct (startswith "#" line) eqn:Hh;
        cbn [current_section current_content] in Hcur, Hbody.
      * left. injection Hcur as Ht. by exists [], line, lines.
      * right; left. split; [exact Hcur|].
        destruct Hbody as (block & rest & -> & Hblock & Hnext & Hrest & ->).
        exists (line :: block), rest. rewrite <- app_assoc.
        split; [reflexivity|]. split; [by constructor|]. done.
    + unfold scan_line in Hsec, Hcur.
      destruct (startswith "#" line) eqn:Hh;
        cbn [sections current_section] in Hsec, Hcur.
      * rewrite save_section_lookup in Hsec.
        destruct (decide _) as [[Hc _]|Hn].
        -- injection Hsec as <-. right; left. split; [exact Hc|].
           exists [], (line :: lines).
           rewrite (app_nil_r (current_content scan)).
           split; [reflexivity|]. split; [constructor|].
           split; [by intros next [= <-]|]. split; [|reflexivity].
           apply Forall_cons. split; [|exact Hrest].
           intros _ Ht. apply Hcur. by rewrite Ht.
        -- right; right. split; [exact Hsec|].
           split; [intros Hc; by apply Hn|].
           apply Forall_cons. split; [|exact Hrest].
           intros _ Ht. apply Hcur. by rewrite Ht.
      * right; right. split; [exact Hsec|]. split; [exact Hcur|].
        apply Forall_cons. split; [|exact Hrest]. congruence.
Qed.

Lemma sections_complete lines : forall scan title body,
  title <> "" ->
  (section_of lines title body \/
   (current_section scan = Some title /\
    section_body title body (current_content scan) lines) \/
   (sections scan !! title = Some body /\
    current_section scan <> Some title /\
    untitled title lines)) ->
  save_section (fold_left scan_line lines scan) !! title = Some body.
Proof.
  induction lines as [|line lines IH]; intros scan title body Hne H.
  - cbn [fold_left]. rewrite save_section_lookup.
    destruct H as [HA|[[Hcur HB]|(Hsec & Hcur & _)]].
    + destruct HA as (pre & header & after & Heq & _). by destruct pre.
    + destruct HB as (block & rest & Heq & _ & _ & _ & ->).
      symmetry in Heq. apply app_eq_nil in Heq as [-> ->].
      rewrite (app_nil_r (current_content scan)). by rewrite decide_True.
    + rewrite decide_False; [exact Hsec|]. by intros [Hc _].
  - cbn [fold_left]. apply IH; [exact Hne|].
    destruct H as [HA|[[Hcur HB]|(Hsec & Hcur & Hrest)]].
    + destruct HA as (pre & header & after & Heq & Hh & Ht & Hbody).
      destruct pre as [|p pre]; injection Heq as -> ->.
      * right; left. unfold scan_line. rewrite Hh.
        cbn [current_section current_content].
        split; [by rewrite Ht|exact Hbody].
      * left. by exists pre, header, after.
    + destruct HB as (block & rest & Heq & Hblock & Hnext & Hrest & ->).
      destruct block as [|b block].
      * cbn [app] in Heq. subst rest.
        pose proof (Hnext line eq_refl) as Hh.
        apply Forall_cons in Hrest as [Hline Hrest].
        right; right. unfold scan_line. rewrite Hh.
        cbn [sections current_section].
        split; [rewrite save_section_lookup, decide_True by done;
                by rewrite (app_nil_r (current_content scan))|].
        split; [|exact Hrest]. intros [= Ht]. by apply Hline.
      * injection Heq as -> ->.
        apply Forall_cons in Hblock as [Hb Hblock].
        right; left. unfold scan_line. rewrite Hb.
        cbn [current_section current_content]. split; [exact Hcur|].
        exists block, rest. by rewrite <- app_assoc.
    + apply Forall_cons in Hrest as [Hline Hrest].
      right; right. unfold scan_line.
      destruct (startswith "#" line) eqn:Hh; cbn [sections current_section].
      * split; [rewrite save_section_lookup, decide_False;
                [exact Hsec|by intros [Hc _]]|].
        split; [|exact Hrest]. intros [= Ht]. by apply Hline.
      * done.
Qed.

(** X21: the dictionary built by [extract_markdown_sections] holds [body]
    under [title] exactly when the title is not empty and is that of a
    header line, the last one with this title, and [body] is the stripped
    join of the lines between that header and the next header or the end of
    the text.  So the text before the first header and the lines under a
    header without a title are in no section, and of two headers with one
    title the second wins. *)
Theorem X21_sections_are_titled_headers content title body :
  extract_markdown_sections content !! title = Some body <->
  title <> "" /\ section_of (split_lines content) title body.
Proof.
  unfold extract_markdown_sections. cbv zeta. split.
  - intros H. apply sections_sound in H; [|apply lookup_empty].
    destruct H as [Hne [HA|[[Hcur _]|(Hsec & _)]]];
      [done|discriminate Hcur|].
    cbn [sections] in Hsec. by rewrite lookup_empty in Hsec.
  - intros [Hne HA]. apply sections_complete; [exact Hne|by left].
Qed.

(** An introduction, a section of two lines, a header without a title, and
    the first title again. *)
Lemma X21_witness :
  let content :=
    "intro" +:+ nl +:+ "## Goals " +:+ nl +:+ "fast" +:+ nl +:+ "#" +:+ nl
    +:+ "lost" +:+ nl +:+ "# Goals" +:+ nl +:+ " cheap" +:+ nl +:+ "safe " in
  extract_markdown_sections content !! "Goals"
    = Some ("cheap" +:+ nl +:+ "safe") /\
  extract_markdown_sections content !! "" = None.
Proof.
  intros content. split.
  - apply X21_sections_are_titled_headers. split; [discriminate|].
    exists ["intro"; "## Goals "; "fast"; "#"; "lost"], "# Goals",
           [" cheap"; "safe "].
    split; [vm_compute; reflexivity|]. split; [reflexivity|].
    split; [vm_compute; reflexivity|].
    exists [" cheap"; "safe "], [].
    split; [reflexivity|].
    split; [repeat constructor|]. split; [discriminate|].
    split; [constructor|vm_compute; reflexivity].
  - destruct (extract_markdown_sections content !! "") as [body|] eqn:H;
      [|reflexivity].
    apply X21_sections_are_titled_headers in H as [Hne _]. done.
Defined.

(** ** The approval route *)

(** X22: on a manager reached by any calls, the approval route never
    answers 500.  It answers 404 or 400 and then leaves the manager as it
    was; or it answers with a body, and then the action is one of approve,
    reject and revise, the stored record has no pending approval any more,
    the body carries its status and phase, and the continuation of the
    workflow is scheduled unless the action is reject. *)
Theorem X22_approval_route_answers workflow_id action feedback w :
  reachable any_op w ->
  match handle_approval workflow_id action feedback w with
  | (HTTPException status_code _, w') =>
      (status_code = 404 \/ status_code = 400) /\ w' = w
  | (HTTPOk body, w') =>
      exists workflow_action state',
        action_mapping action = Some workflow_action /\
        _active_workflows w' !! workflow_id = Some state' /\
        state' !! "pending_approval" = Some VNone /\
        state' !! "status" = Some (response_status body) /\
        state' !! "current_phase" = Some (response_current_phase body) /\
        continue_scheduled body = negb (String.eqb action "reject")
  end.
Proof.
  intros Hreach. unfold handle_approval. cbv zeta.
  destruct (_active_workflows w !! workflow_id) as [state|] eqn:Hst;
    [|cbv beta iota; split; [by left|reflexivity]].
  destruct (decide (state = ∅)) as [|Hne]; [cbv beta iota; split; [by left|reflexivity]|].
  assert (Hkey : forall key, key ∈ record_keys -> is_Some (state !! key))
    by (intros key Hk; by eapply reachable_has_record_keys).
  destruct (Hkey "pending_approval" ltac:(record_key)) as [pending Hp].
  destruct (Hkey "status" ltac:(record_key)) as [status Hs].
  destruct (Hkey "current_phase" ltac:(record_key)) as [phase Hph].
  rewrite Hp. change (default VNone (Some pending)) with pending.
  destruct (negb (truthy pending)) eqn:Htruthy;
    [cbv beta iota; split; [by right|reflexivity]|].
  destruct (action_mapping action) as [workflow_action|] eqn:Haction;
    [|cbv beta iota; split; [by right|reflexivity]].
  rewrite handle_user_approval_run, Hst.
  destruct (decide (state = ∅)); [done|].
  rewrite Hp, Htruthy, update_workflow_state_run, Hst. cbv zeta.
  set (state' := updated state _ _).
  assert (Hs' : is_Some (state' !! "status"))
    by (unfold state'; rewrite updated_lookup, Hs by discriminate; by eexists).
  assert (Hph' : is_Some (state' !! "current_phase"))
    by (unfold state'; rewrite updated_lookup, Hph by discriminate; by eexists).
  assert (Hup' : is_Some (state' !! "updated_at"))
    by (unfold state', updated; rewrite lookup_insert_eq; by eexists).
  destruct Hs' as [status' Hs'], Hph' as [phase' Hph'], Hup' as [now Hup'].
  unfold getitem. rewrite Hs', Hph', Hup'.
  exists workflow_action, state'.
  split; [reflexivity|]. split; [cbn [_active_workflows]; apply lookup_insert_eq|].
  split.
  { unfold state'. rewrite updated_lookup, Hp by discriminate.
    cbn [fmap option_fmap option_map]. by rewrite approval_updates_pending. }
  split; [exact Hs'|]. split; [exact Hph'|].
  cbn [continue_scheduled]. revert Haction. unfold action_mapping.
  destruct (String.eqb_spec action "approve") as [->|_]; [reflexivity|].
  destruct (String.eqb_spec action "reject") as [->|_]; [reflexivity|].
  destruct (String.eqb_spec action "revise") as [->|_]; [reflexivity|].
  discriminate.
Qed.

(** A request with an action the route does not know, on pending tasks. *)
Lemma X22_witness :
  let answer := handle_approval "wf" "cancel" None tasks_pending in
  answer.1 = HTTPException 400 "Invalid action: cancel" /\
  answer.2 = tasks_pending.
Proof.
  intros answer.
  assert (Hreach : reachable any_op tasks_pending).
  { apply reachable_run_ops; [|repeat constructor].
    apply reachable_step; [constructor|exact I]. }
  pose proof (X22_approval_route_answers "wf" "cancel" None tasks_pending
                Hreach) as H.
  fold answer in H.
  assert (Hanswer : answer.1 = HTTPException 400 "Invalid action: cancel")
    by (vm_compute; reflexivity).
  split; [exact Hanswer|].
  destruct answer as [[body|status_code detail] w']; [discriminate Hanswer|].
  exact (proj2 H).
Defined.

(** ** The conversation context of the prompts *)

Lemma filter_nil_Forall {A} (f : A -> bool) l :
  List.filter f l = [] <-> Forall (fun x => f x = false) l.
Proof.
  induction l as [|x l IH]; [by split|]. cbn [List.filter].
  destruct (f x) eqn:Hx.
  - split; [discriminate|]. intros H. inversion H; congruence.
  - rewrite IH. split; [by constructor|]. intros H. by inversion H.
Qed.

Lemma join_header_nonempty a header parts :
  join nl (String a header :: parts) <> "".
Proof.
  unfold join. destruct parts as [|part parts]; [discriminate|].
  cbn [String.concat].
  change (String a header +:+ ?t) with (String a (header +:+ t)).
  discriminate.
Qed.

Lemma last_n_app_full {A} n (older l : list A) :
  (n <= length l)%nat -> last_n n (older ++ l) = last_n n l.
Proof.
  intros Hfull. unfold last_n. rewrite length_app, drop_app_ge by lia.
  f_equal. lia.
Qed.

(** X23: [_build_context_from_conversation] returns on every record with a
    list of messages; its text is empty exactly when none of the last ten
    messages is from the user; and once the conversation has ten messages,
    whatever came before them has no influence on it. *)
Theorem X23_context_reads_last_ten_messages state l :
  state !! "conversation_history" = Some (VMessages l) ->
  exists context,
    _build_context_from_conversation state = Return context /\
    (context = "" <-> Forall (fun msg => role msg <> "user") (last_n 10 l)) /\
    forall state' older,
      state' !! "conversation_history" = Some (VMessages (older ++ l)) ->
      (10 <= length l)%nat ->
      _build_context_from_conversation state' = Return context.
Proof.
  intros Hl.
  assert (Hrun : forall st (h : list ChatEntry),
            st !! "conversation_history" = Some (VMessages h) ->
            h <> [] ->
            _build_context_from_conversation st =
            match List.filter (fun msg => String.eqb (role msg) "user")
                    (last_n 10 h) with
            | [] => Return ""
            | user_messages =>
                Return (join nl
                  ("**Additional Context from Conversation:**" ::
                   imap (fun i msg =>
                           pretty (S i) +:+ ". " +:+
                           substring 0 200 (content msg) +:+
                           (if (200 <? String.length (content msg))%nat
                            then "..." else ""))
                        (last_n 3 user_messages)))
            end).
  { intros st h Hh Hne. unfold _build_context_from_conversation, getitem.
    rewrite Hh. cbn [mbind Outcome_bind truthy].
    destruct h as [|m h]; [done|]. cbn [negb].
    by destruct (List.filter _ _). }
  assert (Hquiet : forall h : list ChatEntry,
            List.filter (fun msg => String.eqb (role msg) "user") h = [] <->
            Forall (fun msg => role msg <> "user") h).
  { intros h. rewrite filter_nil_Forall. apply Forall_iff. intros msg.
    apply String.eqb_neq. }
  destruct l as [|m l].
  { exists "". split; [|split].
    - unfold _build_context_from_conversation, getitem. by rewrite Hl.
    - split; [intros _; apply Forall_nil_2|done].
    - cbn [length]. lia. }
  set (h := m :: l) in *.
  destruct (List.filter (fun msg => String.eqb (role msg) "user") (last_n 10 h))
    as [|u users] eqn:Hfilter.
  - exists "". split; [by rewrite (Hrun state h Hl), Hfilter|]. split.
    + split; [intros _; by apply Hquiet|done].
    + intros state' older Hl' Hfull.
      rewrite (Hrun state' (older ++ h)%list Hl')
        by (intros [_ H]%app_eq_nil; discriminate H).
      by rewrite last_n_app_full, Hfilter.
  - eexists. split; [by rewrite (Hrun state h Hl), Hfilter|]. split.
    + split.
      * intros H. by apply join_header_nonempty in H.
      * intros H%Hquiet. rewrite Hfilter in H. discriminate H.
    + intros state' older Hl' Hfull.
      rewrite (Hrun state' (older ++ h)%list Hl')
        by (intros [_ H]%app_eq_nil; discriminate H).
      by rewrite last_n_app_full, Hfilter.
Qed.

(** Twelve messages on a started workflow: the context is read off the last
    ten, of which four are from the user, and shows the last three of
    those; the two oldest messages play no part. *)
Lemma X23_witness :
  _build_context_from_conversation
    (current_state
       (run_ops [
          OpAddConversationMessage "wf" "user" "Use OAuth" [];
          OpAddConversationMessage "wf" "assistant" "Noted" [];
          OpAddConversationMessage "wf" "user" "Add single sign-on" [];
          OpAddConversationMessage "wf" "assistant" "Added" [];
          OpAddConversationMessage "wf" "system" "Requirements generated" [];
          OpAddConversationMessage "wf" "user" "Limit failed logins" [];
          OpAddConversationMessage "wf" "assistant" "Which limit?" [];
          OpAddConversationMessage "wf" "user" "Five per hour" [];
          OpAddConversationMessage "wf" "assistant" "Done" [];
          OpAddConversationMessage "wf" "system" "Design generated" [];
          OpAddConversationMessage "wf" "user" "Keep an audit log" [];
          OpAddConversationMessage "wf" "assistant" "Logged" []
        ] started) "wf")
  = Return ("**Additional Context from Conversation:**" +:+ nl
            +:+ "1. Limit failed logins" +:+ nl
            +:+ "2. Five per hour" +:+ nl
            +:+ "3. Keep an audit log").
Proof.
  pose (say := fun (role content : string) (at_ : nat) =>
          {| role := role; content := content; timestamp := isoformat at_;
             metadata := [] |}).
  pose (older := [say "user" "Use OAuth" 1%nat;
                  say "assistant" "Noted" 3%nat]).
  pose (l := [say "user" "Add single sign-on" 5%nat;
              say "assistant" "Added" 7%nat;
              say "system" "Requirements generated" 9%nat;
              say "user" "Limit failed logins" 11%nat;
              say "assistant" "Which limit?" 13%nat;
              say "user" "Five per hour" 15%nat;
              say "assistant" "Done" 17%nat;
              say "system" "Design generated" 19%nat;
              say "user" "Keep an audit log" 21%nat;
              say "assistant" "Logged" 23%nat]).
  destruct (X23_context_reads_last_ten_messages
              {["conversation_history" := VMessages l]} l)
    as (context & Hrun & _ & Hwindow); [apply lookup_singleton_eq|].
  rewrite (Hwindow _ older); [|vm_compute; reflexivity|cbn; lia].
  rewrite <- Hrun. vm_compute. reflexivity.
Defined.
